(** * Riverboat: a shallow embedding of the Texas Hold'em table engine

    The development follows [game.go] (table state, blind rotation, round
    progression, river settlement) and [views.go] (snapshots, restore,
    per-player projection).

    Conventions.
    - Go's [uint] is taken at 64 bits and embedded in [Z]; additions and
      subtractions wrap modulo [wB], written out in [uadd] and [usub].
    - Slices are lists, indexed through [at_], which panics out of range
      exactly where Go does.
    - A run of the code ends in a value, a run-time panic, or never:
      the [outcome] monad. *)

From Stdlib Require Import ZArith Lia Bool.
From stdpp Require Import base list sorting.

Local Open Scope Z_scope.

(** ** Machine integers *)

Definition wB : Z := 2 ^ 64.

Definition uadd (a b : Z) : Z := (a + b) mod wB.
Definition usub (a b : Z) : Z := (a - b) mod wB.

Definition is_uint (a : Z) : Prop := 0 <= a < wB.

(** ** Outcomes of a run *)

Inductive outcome (A : Type) : Type :=
| Ok (a : A)
| Panic
| Diverge.

Arguments Ok {A} a.
Arguments Panic {A}.
Arguments Diverge {A}.

Definition obind {A B : Type} (m : outcome A) (k : A -> outcome B) : outcome B :=
  match m with
  | Ok a => k a
  | Panic => Panic
  | Diverge => Diverge
  end.

Declare Scope outcome_scope.
Delimit Scope outcome_scope with outcome.
Notation "x <~ m ;; k" := (obind m (fun x => k))
  (at level 100, m at next level, right associativity,
   format "x  <~  m  ;;  '/' k") : outcome_scope.
Local Open Scope outcome_scope.

(** [for _, x := range xs { s = body(s, x) }] with a body that may panic. *)
Fixpoint foldM {S X : Type} (body : S -> X -> outcome S) (xs : list X) (s : S)
  : outcome S :=
  match xs with
  | [] => Ok s
  | x :: xs' => s' <~ body s x ;; foldM body xs' s'
  end.

(** Slice indexing [l[i]] with a [uint] index. *)
Definition at_ {A : Type} (l : list A) (i : Z) : outcome A :=
  if i <? 0 then Panic
  else match l !! Z.to_nat i with
       | Some x => Ok x
       | None => Panic
       end.

(** [a % b] on unsigned operands; a zero divisor is a run-time panic. *)
Definition umod (a b : Z) : outcome Z :=
  if b =? 0 then Panic else Ok (a mod b).

Definition len {A : Type} (l : list A) : Z := Z.of_nat (length l).

(** The seat numbers [0 .. n-1] of a table with [n] seats. *)
Definition seatNums (n : nat) : list Z := Z.of_nat <$> seq 0 n.

(** ** Data model *)

Definition Card : Type := Z.

Inductive error : Type :=
| ErrBadPlayerNum
| ErrNotEnoughPlayers.

(** Modelled from the spec: the player record, declared outside the two
    files. Section 3 lists [Ready], [In], [Stack], [Bet], [TotalBet] and
    the two hole cards; these are also the fields that [game.go] and
    [views.go] read and write. *)
Record Player : Type := mkPlayer {
  Ready : bool;
  In : bool;
  Stack : Z;
  Bet : Z;
  TotalBet : Z;
  Cards : Card * Card
}.

Definition setReady (p : Player) (b : bool) : Player :=
  mkPlayer b (In p) (Stack p) (Bet p) (TotalBet p) (Cards p).
Definition setIn (p : Player) (b : bool) : Player :=
  mkPlayer (Ready p) b (Stack p) (Bet p) (TotalBet p) (Cards p).
Definition setStack (p : Player) (v : Z) : Player :=
  mkPlayer (Ready p) (In p) v (Bet p) (TotalBet p) (Cards p).
Definition setBet (p : Player) (v : Z) : Player :=
  mkPlayer (Ready p) (In p) (Stack p) v (TotalBet p) (Cards p).
Definition setTotalBet (p : Player) (v : Z) : Player :=
  mkPlayer (Ready p) (In p) (Stack p) (Bet p) v (Cards p).
Definition setCards (p : Player) (c : Card * Card) : Player :=
  mkPlayer (Ready p) (In p) (Stack p) (Bet p) (TotalBet p) c.

Record Pot : Type := mkPot {
  TopShare : Z;
  Amt : Z;
  EligblePlayerNums : list Z;
  WinningPlayerNums : list Z;
  WinningHand : list Card;
  WinningScore : Z
}.

(** [Pot{}] *)
Definition emptyPot : Pot := mkPot 0 0 [] [] [] 0.

(** The configuration of [game.go] with the shuffle seed that [views.go]
    reads from it. *)
Record GameConfig : Type := mkConfig {
  MaxBuy : Z;
  BigBlind : Z;
  SmallBlind : Z;
  Seed : Z
}.

(** The pseudo-random source of a table: the seed it was created from and
    how many values have been drawn from it since. *)
Record RandSource : Type := mkRand {
  rand_seed : Z;
  rand_drawn : nat
}.

(** [rand.New(rand.NewSource(seed))] *)
Definition newRand (seed : Z) : RandSource := mkRand seed 0.

(** The table of [game.go], with the [calledNum] and [rand] fields that
    [views.go] reads and writes; the lock is left out, every function
    below running under it. *)
Record Game : Type := mkGame {
  dealerNum : Z;
  actionNum : Z;
  utgNum : Z;
  sbNum : Z;
  bbNum : Z;
  calledNum : Z;
  communityCards : list Card;
  flags : Z;
  config : GameConfig;
  players : list Player;
  deck : list Card;
  pots : list Pot;
  minRaise : Z;
  rand : RandSource
}.

Definition set_dealerNum (g : Game) (v : Z) : Game :=
  mkGame v (actionNum g) (utgNum g) (sbNum g) (bbNum g) (calledNum g)
    (communityCards g) (flags g) (config g) (players g) (deck g) (pots g)
    (minRaise g) (rand g).
Definition set_actionNum (g : Game) (v : Z) : Game :=
  mkGame (dealerNum g) v (utgNum g) (sbNum g) (bbNum g) (calledNum g)
    (communityCards g) (flags g) (config g) (players g) (deck g) (pots g)
    (minRaise g) (rand g).
Definition set_utgNum (g : Game) (v : Z) : Game :=
  mkGame (dealerNum g) (actionNum g) v (sbNum g) (bbNum g) (calledNum g)
    (communityCards g) (flags g) (config g) (players g) (deck g) (pots g)
    (minRaise g) (rand g).
Definition set_sbNum (g : Game) (v : Z) : Game :=
  mkGame (dealerNum g) (actionNum g) (utgNum g) v (bbNum g) (calledNum g)
    (communityCards g) (flags g) (config g) (players g) (deck g) (pots g)
    (minRaise g) (rand g).
Definition set_bbNum (g : Game) (v : Z) : Game :=
  mkGame (dealerNum g) (actionNum g) (utgNum g) (sbNum g) v (calledNum g)
    (communityCards g) (flags g) (config g) (players g) (deck g) (pots g)
    (minRaise g) (rand g).
Definition set_flags (g : Game) (v : Z) : Game :=
  mkGame (dealerNum g) (actionNum g) (utgNum g) (sbNum g) (bbNum g) (calledNum g)
    (communityCards g) v (config g) (players g) (deck g) (pots g)
    (minRaise g) (rand g).
Definition set_players (g : Game) (v : list Player) : Game :=
  mkGame (dealerNum g) (actionNum g) (utgNum g) (sbNum g) (bbNum g) (calledNum g)
    (communityCards g) (flags g) (config g) v (deck g) (pots g)
    (minRaise g) (rand g).
Definition set_pots (g : Game) (v : list Pot) : Game :=
  mkGame (dealerNum g) (actionNum g) (utgNum g) (sbNum g) (bbNum g) (calledNum g)
    (communityCards g) (flags g) (config g) (players g) (deck g) v
    (minRaise g) (rand g).

Definition set_calledNum (g : Game) (v : Z) : Game :=
  mkGame (dealerNum g) (actionNum g) (utgNum g) (sbNum g) (bbNum g) v
    (communityCards g) (flags g) (config g) (players g) (deck g) (pots g)
    (minRaise g) (rand g).
Definition set_communityCards (g : Game) (v : list Card) : Game :=
  mkGame (dealerNum g) (actionNum g) (utgNum g) (sbNum g) (bbNum g) (calledNum g)
    v (flags g) (config g) (players g) (deck g) (pots g)
    (minRaise g) (rand g).
Definition set_config (g : Game) (v : GameConfig) : Game :=
  mkGame (dealerNum g) (actionNum g) (utgNum g) (sbNum g) (bbNum g) (calledNum g)
    (communityCards g) (flags g) v (players g) (deck g) (pots g)
    (minRaise g) (rand g).
Definition set_deck (g : Game) (v : list Card) : Game :=
  mkGame (dealerNum g) (actionNum g) (utgNum g) (sbNum g) (bbNum g) (calledNum g)
    (communityCards g) (flags g) (config g) (players g) v (pots g)
    (minRaise g) (rand g).
Definition set_minRaise (g : Game) (v : Z) : Game :=
  mkGame (dealerNum g) (actionNum g) (utgNum g) (sbNum g) (bbNum g) (calledNum g)
    (communityCards g) (flags g) (config g) (players g) (deck g) (pots g)
    v (rand g).
Definition set_rand (g : Game) (v : RandSource) : Game :=
  mkGame (dealerNum g) (actionNum g) (utgNum g) (sbNum g) (bbNum g) (calledNum g)
    (communityCards g) (flags g) (config g) (players g) (deck g) (pots g)
    (minRaise g) v.

(** ** Table state and encoding ([game.go], lines 38-108) *)

Definition PreDeal : Z := 1.
Definition PreFlop : Z := 2.
Definition Flop : Z := 3.
Definition Turn : Z := 4.
Definition River : Z := 5.
Definition Over : Z := 6.

Definition getStage (g : Game) : Z := Z.land (flags g) 7.

Definition getBetting (g : Game) : bool := Z.land (flags g) 8 =? 8.

Definition setStage (g : Game) (s : Z) : Game :=
  set_flags g (Z.lor (Z.land (flags g) 248) s).

Definition setBetting (g : Game) (b : bool) : Game :=
  if b then set_flags g (Z.lor (flags g) 8)
  else set_flags g (Z.land (flags g) 247).

Definition setStageAndBetting (g : Game) (s : Z) (b : bool) : Game :=
  setBetting (setStage g s) b.

Definition getPlayer (g : Game) (pn : Z) : Player + error :=
  if len (players g) <=? pn then inr ErrBadPlayerNum
  else match players g !! Z.to_nat pn with
       | Some p => inl p
       | None => inr ErrBadPlayerNum
       end.

(** The counter is bounded by the slice length, so it cannot wrap. *)
Definition readyCount (g : Game) : Z :=
  fold_left (fun c p => if Ready p then c + 1 else c) (players g) 0.

Definition toCall (g : Game) : Z :=
  fold_left (fun val q => if Bet q >? val then Bet q else val) (players g) 0.

(** ** Blind and dealer rotation ([game.go], lines 147-225) *)

(** [(n + 1) % uint(len(g.players))] *)
Definition nextSeat (ps : list Player) (n : Z) : outcome Z :=
  umod (uadd n 1) (len ps).

(** [for !g.players[n].Ready { n = (n + 1) % uint(len(g.players)) }].
    Every test reads a seat in range, and the seats tested after the first
    are consecutive modulo the seat count; after [length ps + 1] failed
    tests every seat has been seen not ready and the loop never ends. *)
Fixpoint seekReady (fuel : nat) (ps : list Player) (n : Z) : outcome Z :=
  match fuel with
  | O => Diverge
  | S fuel' =>
      p <~ at_ ps n ;;
      if Ready p then Ok n
      else n' <~ nextSeat ps n ;; seekReady fuel' ps n'
  end.

(** [x = (from + 1) % len; for !ready(x) { x = (x + 1) % len }] *)
Definition readyAfter (ps : list Player) (from : Z) : outcome Z :=
  start <~ nextSeat ps from ;; seekReady (S (length ps)) ps start.

Definition updateBlindNums (g : Game) : outcome (Game * option error) :=
  let readyCount := readyCount g in
  if readyCount <? 2 then
    let g := set_bbNum g (dealerNum g) in
    let g := set_sbNum g (dealerNum g) in
    let g := set_utgNum g (dealerNum g) in
    Ok (g, Some ErrNotEnoughPlayers)
  else if readyCount =? 2 then
    let g := set_sbNum g (dealerNum g) in
    let g := set_utgNum g (dealerNum g) in
    bb <~ readyAfter (players g) (dealerNum g) ;;
    Ok (set_bbNum g bb, None)
  else
    sb <~ readyAfter (players g) (dealerNum g) ;;
    let g := set_sbNum g sb in
    bb <~ readyAfter (players g) (sbNum g) ;;
    let g := set_bbNum g bb in
    utg <~ readyAfter (players g) (bbNum g) ;;
    Ok (set_utgNum g utg, None).

(** The body of the first loop of [resetForNextHand]. *)
Definition resetPlayer (p : Player) : Player :=
  let p := setIn p false in
  let p := setBet p 0 in
  let p := setTotalBet p 0 in
  if Stack p =? 0 then setReady p false else p.

Definition resetForNextHand (g : Game) : outcome Game :=
  let g := set_players g (resetPlayer <$> players g) in
  let g := set_dealerNum g (uadd (dealerNum g) 1) in
  d <~ seekReady (S (length (players g))) (players g) (dealerNum g) ;;
  Ok (setStageAndBetting (set_dealerNum g d) PreDeal false).

(** ** Betting round progression and settlement ([game.go], lines 227-395) *)

Definition setTopShare (q : Pot) (v : Z) : Pot :=
  mkPot v (Amt q) (EligblePlayerNums q) (WinningPlayerNums q) (WinningHand q)
    (WinningScore q).
Definition setAmt (q : Pot) (v : Z) : Pot :=
  mkPot (TopShare q) v (EligblePlayerNums q) (WinningPlayerNums q) (WinningHand q)
    (WinningScore q).
Definition setEligble (q : Pot) (v : list Z) : Pot :=
  mkPot (TopShare q) (Amt q) v (WinningPlayerNums q) (WinningHand q)
    (WinningScore q).
Definition setWinningPlayerNums (q : Pot) (v : list Z) : Pot :=
  mkPot (TopShare q) (Amt q) (EligblePlayerNums q) v (WinningHand q)
    (WinningScore q).
Definition setWinningHand (q : Pot) (v : list Card) : Pot :=
  mkPot (TopShare q) (Amt q) (EligblePlayerNums q) (WinningPlayerNums q) v
    (WinningScore q).
Definition setWinningScore (q : Pot) (v : Z) : Pot :=
  mkPot (TopShare q) (Amt q) (EligblePlayerNums q) (WinningPlayerNums q)
    (WinningHand q) v.

(** [for i, p := range ps]: the seats paired with their numbers. *)
Definition indexed (ps : list Player) : list (Z * Player) :=
  zip (seatNums (length ps)) ps.

(** [a / b] on unsigned operands. *)
Definition udiv (a b : Z) : outcome Z :=
  if b =? 0 then Panic else Ok (a / b).

(** What the first loop of [updateRoundInfo] collects. *)
Record Scan : Type := mkScan {
  allCalled : bool;
  allInPlayerNums : list Z;
  inPlayerNums : list Z
}.

(** What river settlement computes before the table is reset. *)
Record Settlement : Type := mkSettlement {
  sidePots : list Pot;
  finalPot : Pot;
  paidPlayers : list Player
}.

(** [sort.Slice] with a comparison on a key, as an insertion sort. The
    library sort is not stable; by [carve_any_sort] every ascending
    arrangement of the seats gives the same pots and players. *)
Fixpoint insertBy (key : Z -> Z) (x : Z) (l : list Z) : list Z :=
  match l with
  | [] => [x]
  | y :: l' => if key y <? key x then y :: insertBy key x l' else x :: y :: l'
  end.

Definition sortSlice (key : Z -> Z) (l : list Z) : list Z :=
  foldr (insertBy key) [] l.

(** [g.players[i].TotalBet] for a seat number known to be in range. *)
Definition totalBetOf (ps : list Player) (i : Z) : Z :=
  match ps !! Z.to_nat i with
  | Some p => TotalBet p
  | None => 0
  end.

(** The inner loop of side-pot carving (lines 301-313): seat by seat, move
    up to [TopShare] chips of [TotalBet] into the pot. *)
Fixpoint carveRange (i : Z) (ps : list Player) (newPot : Pot) : Pot * list Player :=
  match ps with
  | [] => (newPot, [])
  | p :: rest =>
      if TotalBet p >=? TopShare newPot then
        let newPot :=
          if In p then setEligble newPot (EligblePlayerNums newPot ++ [i])
          else newPot in
        let newPot := setAmt newPot (uadd (Amt newPot) (TopShare newPot)) in
        let p := setTotalBet p (usub (TotalBet p) (TopShare newPot)) in
        let '(newPot, rest) := carveRange (i + 1) rest newPot in
        (newPot, p :: rest)
      else
        let newPot := setAmt newPot (uadd (Amt newPot) (TotalBet p)) in
        let p := setTotalBet p 0 in
        let '(newPot, rest) := carveRange (i + 1) rest newPot in
        (newPot, p :: rest)
  end.

(** The body of the loop over the sorted all-in seats (lines 296-316). *)
Definition carveStep (st : list Pot * list Player) (ndx : Z)
  : outcome (list Pot * list Player) :=
  let '(pots, ps) := st in
  p <~ at_ ps ndx ;;
  let newPot := setTopShare emptyPot (TotalBet p) in
  let '(newPot, ps) := carveRange 0 ps newPot in
  Ok (pots ++ [newPot], ps).

Definition carve (ps : list Player) (order : list Z)
  : outcome (list Pot * list Player) :=
  foldM carveStep order ([], ps).

Section RoundInfo.

(** Collaborators declared outside the two files: the player's
    [allIn] and [returnChips] methods and the hand-ranking library. *)
Variable allIn : Player -> bool.
Variable returnChips : Player -> Z -> Player.
Variable BestFiveOfSeven :
  Card -> Card -> Card -> Card -> Card -> Card -> Card -> list Card * Z.

Definition isCalled (g : Game) (pn : Z) : outcome bool :=
  p <~ at_ (players g) pn ;;
  Ok (allIn p || (Bet p =? toCall g)).

(** Lines 233-242. *)
Definition scanStep (g : Game) (s : Scan) (ip : Z * Player) : outcome Scan :=
  let '(i, p) := ip in
  if In p then
    let s := mkScan (allCalled s) (allInPlayerNums s) (inPlayerNums s ++ [i]) in
    if allIn p then
      Ok (mkScan (allCalled s) (allInPlayerNums s ++ [i]) (inPlayerNums s))
    else
      c <~ isCalled g i ;;
      if negb c then Ok (mkScan false (allInPlayerNums s) (inPlayerNums s))
      else Ok s
  else Ok s.

Definition scanPlayers (g : Game) : outcome Scan :=
  foldM (scanStep g) (indexed (players g)) (mkScan true [] []).

(** Lines 245-255: the hand has been conceded. *)
Definition concedeStep (inPlayerNums : list Z) (ps : list Player) (i : Z)
  : outcome (list Player) :=
  p <~ at_ ps i ;;
  w <~ at_ inPlayerNums 0 ;;
  pw <~ at_ ps w ;;
  Ok (<[Z.to_nat w := setStack pw (uadd (Stack pw) (TotalBet p))]> ps).

Definition concede (g : Game) (inPlayerNums : list Z) : outcome Game :=
  let g := setStageAndBetting g PreDeal false in
  ps <~ foldM (concedeStep inPlayerNums) (seatNums (length (players g)))
          (players g) ;;
  Ok (set_players g ps).

(** Lines 258-265: move the action to the next seat that owes a call.
    The bound is the one of [seekReady]. *)
Fixpoint advanceAction (fuel : nat) (g : Game) : outcome Game :=
  match fuel with
  | O => Diverge
  | S fuel' =>
      c <~ isCalled g (actionNum g) ;;
      p <~ at_ (players g) (actionNum g) ;;
      if c || allIn p || negb (In p) then
        n <~ nextSeat (players g) (actionNum g) ;;
        advanceAction fuel' (set_actionNum g n)
      else Ok g
  end.

(** Lines 272-286: return the overbet. *)
Definition topBettorStep (g : Game) (t : Z * Z) (ndx : Z) : outcome (Z * Z) :=
  let '(topBettor1, topBettor2) := t in
  pn <~ at_ (players g) ndx ;;
  p1 <~ at_ (players g) topBettor1 ;;
  if TotalBet pn >? TotalBet p1 then Ok (ndx, topBettor1)
  else
    p2 <~ at_ (players g) topBettor2 ;;
    if TotalBet pn >? TotalBet p2 then Ok (topBettor1, ndx)
    else Ok (topBettor1, topBettor2).

Definition topBettors (g : Game) (inPlayerNums : list Z) : outcome (Z * Z) :=
  foldM (topBettorStep g) inPlayerNums (0, 0).

Definition refundOverbet (g : Game) (inPlayerNums : list Z) : outcome Game :=
  t <~ topBettors g inPlayerNums ;;
  p1 <~ at_ (players g) t.1 ;;
  p2 <~ at_ (players g) t.2 ;;
  Ok (set_players g
        (<[Z.to_nat t.1 := returnChips p1 (usub (TotalBet p1) (TotalBet p2))]>
           (players g))).

(** The seven arguments of a ranking call: two hole cards and
    [g.communityCards[0..4]]. *)
Definition rank (g : Game) (c : Card * Card) : outcome (list Card * Z) :=
  c0 <~ at_ (communityCards g) 0 ;;
  c1 <~ at_ (communityCards g) 1 ;;
  c2 <~ at_ (communityCards g) 2 ;;
  c3 <~ at_ (communityCards g) 3 ;;
  c4 <~ at_ (communityCards g) 4 ;;
  Ok (BestFiveOfSeven c.1 c.2 c0 c1 c2 c3 c4).

(** Lines 332-339 and 368-375: lower is better for the score. *)
Definition considerHand (q : Pot) (num : Z) (hs : list Card * Z) : Pot :=
  let '(hand, score) := hs in
  if score <? WinningScore q then
    setWinningHand (setWinningPlayerNums (setWinningScore q score) [num]) hand
  else if score =? WinningScore q then
    setWinningPlayerNums q (WinningPlayerNums q ++ [num])
  else q.

Definition showdownStep (g : Game) (ps : list Player) (q : Pot) (num : Z)
  : outcome Pot :=
  p <~ at_ ps num ;;
  hs <~ rank g (Cards p) ;;
  Ok (considerHand q num hs).

(** Lines 342-345 and 379-381. *)
Definition payStep (q : Pot) (ps : list Player) (num : Z)
  : outcome (list Player) :=
  p <~ at_ ps num ;;
  share <~ udiv (Amt q) (len (WinningPlayerNums q)) ;;
  Ok (<[Z.to_nat num := setStack p (uadd (Stack p) share)]> ps).

Definition payPot (q : Pot) (ps : list Player) : outcome (list Player) :=
  foldM (payStep q) (WinningPlayerNums q) ps.

(** The body of the loop over the side pots (lines 318-346). *)
Definition settlePot (g : Game) (st : list Pot * list Player) (q : Pot)
  : outcome (list Pot * list Player) :=
  let '(settled, ps) := st in
  let q := setWinningScore q 8000 in
  q <~ foldM (showdownStep g ps) (EligblePlayerNums q) q ;;
  ps <~ payPot q ps ;;
  Ok (settled ++ [q], ps).

(** The body of the loop building the final pot (lines 354-377). The
    range variable is a copy: zeroing its [TotalBet] leaves the table's
    player untouched. *)
Definition finalStep (g : Game) (q : Pot) (ip : Z * Player) : outcome Pot :=
  let '(i, p) := ip in
  if In p && negb (allIn p) then
    let q := setAmt q (uadd (Amt q) (TotalBet p)) in
    hs <~ rank g (Cards p) ;;
    Ok (considerHand q i hs)
  else Ok q.

(** Lines 291-381. *)
Definition settle (g : Game) (allInPlayerNums : list Z) : outcome Settlement :=
  let order := sortSlice (totalBetOf (players g)) allInPlayerNums in
  carved <~ carve (players g) order ;;
  paid <~ foldM (settlePot g) carved.1 ([], carved.2) ;;
  let finalPot := setWinningScore emptyPot 8000 in
  finalPot <~ foldM (finalStep g) (indexed paid.2) finalPot ;;
  ps <~ payPot finalPot paid.2 ;;
  Ok (mkSettlement paid.1 finalPot ps).

(** What settlement leaves on the table: the paid players, and the pots
    when the final pot is not empty (lines 383-385). *)
Definition recordPots (g : Game) (st : Settlement) : Game :=
let g := set_players g (paidPlayers st) in
if negb (Amt (finalPot st) =? 0)
then set_pots g (sidePots st ++ [finalPot st]) else g.

(** The returned error is [nil] on every path, so only the table is
    returned. *)
Definition updateRoundInfo (g : Game) : outcome Game :=
  sc <~ scanPlayers g ;;
  if len (inPlayerNums sc) <? 2 then concede g (inPlayerNums sc)
  else if negb (allCalled sc) then advanceAction (S (length (players g))) g
  else
    g <~ (if len (inPlayerNums sc) - len (allInPlayerNums sc) <? 2
          then refundOverbet g (inPlayerNums sc) else Ok g) ;;
    if getStage g =? River then
      st <~ settle g (allInPlayerNums sc) ;;
      resetForNextHand (recordPots g st)
    else Ok (setBetting g false).

End RoundInfo.

(** [NewGame()] *)
Definition NewGame : Game :=
  mkGame 0 0 0 0 0 0 [] 1 (mkConfig 0 0 0 0) [] [] [] 0 (newRand 0).

(** ** Views ([views.go]) *)

Record GameView : Type := mkView {
  DealerNum : Z;
  ActionNum : Z;
  UTGNum : Z;
  SBNum : Z;
  BBNum : Z;
  CalledNum : Z;
  CommunityCards : list Card;
  Stage : Z;
  Betting : bool;
  Config : GameConfig;
  Players : list Player;
  Deck : list Card;
  Pots : list Pot;
  MinRaise : Z;
  ReadyCount : Z
}.

Definition copyPots (src : list Pot) : list Pot :=
  (fun q => mkPot (TopShare q) (Amt q)
              ([] ++ EligblePlayerNums q) ([] ++ WinningPlayerNums q)
              ([] ++ WinningHand q) (WinningScore q)) <$> src.

Definition copyToView (g : Game) : GameView :=
  mkView (dealerNum g) (actionNum g) (utgNum g) (sbNum g) (bbNum g) (calledNum g)
    ([] ++ communityCards g) (getStage g) (getBetting g) (config g)
    ([] ++ players g) ([] ++ deck g) (copyPots (pots g)) (minRaise g)
    (readyCount g).

Definition FillFromView (g : Game) (gv : GameView) : Game :=
  let g := set_dealerNum g (DealerNum gv) in
  let g := set_actionNum g (ActionNum gv) in
  let g := set_utgNum g (UTGNum gv) in
  let g := set_bbNum g (BBNum gv) in
  let g := set_sbNum g (SBNum gv) in
  let g := set_communityCards g ([] ++ CommunityCards gv) in
  let g := setStageAndBetting g (Stage gv) (Betting gv) in
  let g := set_config g (Config gv) in
  let g := set_players g ([] ++ Players gv) in
  let g := set_deck g ([] ++ Deck gv) in
  let g := set_pots g (copyPots (Pots gv)) in
  let g := set_minRaise g (MinRaise gv) in
  let g := set_rand g (newRand (Seed (config g))) in
  set_calledNum g (CalledNum gv).

Definition GenerateOmniView (g : Game) : GameView := copyToView g.

(** The three counters of the first loop of [GeneratePlayerView]. *)
Record Census : Type := mkCensus {
  allInCount : Z;
  inCount : Z;
  betCount : Z
}.

Section PlayerView.

(** The stage-dependent player methods [allIn], [in] and [bet] of
    [views.go] and the hand-ranking library, all declared outside the
    two files. *)
Variable p_allIn : Player -> Z -> bool.
Variable p_in : Player -> Z -> bool.
Variable p_bet : Player -> Z -> Z.
Variable BestFiveOfSeven :
  Card -> Card -> Card -> Card -> Card -> Card -> Card -> list Card * Z.

(** [gv.Players[pn2].Cards = [2]eval.Card{0, 0}] *)
Definition hideCards (vp : list Player) (pn2 : Z) : outcome (list Player) :=
  p <~ at_ vp pn2 ;;
  Ok (<[Z.to_nat pn2 := setCards p (0, 0)]> vp).

(** [gv.Players[pn2].Cards = g.players[pn2].Cards] *)
Definition showCards (g : Game) (vp : list Player) (pn2 : Z)
  : outcome (list Player) :=
  p <~ at_ vp pn2 ;;
  src <~ at_ (players g) pn2 ;;
  Ok (<[Z.to_nat pn2 := setCards p (Cards src)]> vp).

(** Lines 128-143. *)
Definition censusStep (pn stage : Z) (st : list Player * Census)
    (ip : Z * Player) : outcome (list Player * Census) :=
  let '(i, p) := ip in
  vp <~ (if negb (i =? pn) then hideCards st.1 i else Ok st.1) ;;
  let c := st.2 in
  let c := if p_allIn p stage
           then mkCensus (allInCount c + 1) (inCount c) (betCount c) else c in
  let c := if p_in p stage then
             let c := mkCensus (allInCount c) (inCount c + 1) (betCount c) in
             if p_bet p stage >? 0
             then mkCensus (allInCount c) (inCount c) (betCount c + 1) else c
           else c in
  Ok (vp, c).

(** Lines 145-150. *)
Definition showAllOf (c : Census) : bool :=
  let showAll := allInCount c =? inCount c in
  if negb showAll && (betCount c =? 0)
  then allInCount c =? inCount c - 1
  else showAll.

(** Lines 153-157. *)
Definition showInStep (g : Game) (stage : Z) (vp : list Player)
    (ip : Z * Player) : outcome (list Player) :=
  if p_in ip.2 stage then showCards g vp ip.1 else Ok vp.

(** Lines 173-189: the walk around the table from [calledNum]. *)
Definition walkStep (g : Game) (st : list Player * Z) (i : Z)
  : outcome (list Player * Z) :=
  pni <~ umod (uadd (calledNum g) i) (len (players g)) ;;
  p <~ at_ (players g) pni ;;
  hs <~ rank BestFiveOfSeven g (Cards p) ;;
  if (hs.2 <=? st.2) && In p then
    vp <~ showCards g st.1 pni ;;
    Ok (vp, hs.2)
  else Ok st.

(** Lines 191-195. *)
Definition showWinners (g : Game) (vp : list Player) (q : Pot)
  : outcome (list Player) :=
  foldM (showCards g) (WinningPlayerNums q) vp.

Definition GeneratePlayerView (g : Game) (pn : Z) : outcome GameView :=
  let gv := copyToView g in
  let stage := Stage gv in
  st <~ foldM (censusStep pn stage) (indexed (players g))
          (Players gv, mkCensus 0 0 0) ;;
  let showAll := showAllOf st.2 in
  vp <~ (if showAll then foldM (showInStep g stage) (indexed (players g)) st.1
         else Ok st.1) ;;
  vp <~ (if (getStage g =? PreDeal) && (inCount st.2 >? 1) then
           vp <~ showCards g vp (calledNum g) ;;
           pc <~ at_ (players g) (calledNum g) ;;
           hs <~ rank BestFiveOfSeven g (Cards pc) ;;
           w <~ foldM (walkStep g) (seatNums (length (players g))) (vp, hs.2) ;;
           foldM (showWinners g) (pots g) w.1
         else Ok vp) ;;
  Ok (mkView (DealerNum gv) (ActionNum gv) (UTGNum gv) (SBNum gv) (BBNum gv)
        (CalledNum gv) (CommunityCards gv) (Stage gv) (Betting gv)
        (mkConfig (MaxBuy (Config gv)) (BigBlind (Config gv))
           (SmallBlind (Config gv)) 0)
        vp [] (Pots gv) (MinRaise gv) (ReadyCount gv)).

End PlayerView.

(** ** Collaborators modelled from the specification *)

(** Modelled from the spec: the player's [allIn] method, declared outside
    the two files. Section 3 has "[AllIn] derivable from stack" and the
    glossary "a player has wagered their entire stack"; the comment at
    lines 267-271 of [game.go] relies on the same reading, since returning
    chips changes what the method answers. *)
Definition allIn (p : Player) : bool := In p && (Stack p =? 0).

(** Modelled from the spec: the player's [returnChips] method, declared
    outside the two files. Section 4.3: the excess chips "are returned to
    that seat", that is, taken off its [TotalBet] and credited to its
    stack. *)
Definition returnChips (p : Player) (amt : Z) : Player :=
  setStack (setTotalBet p (usub (TotalBet p) amt)) (uadd (Stack p) amt).

(** A stand-in for the external hand-ranking library, to run the engine on
    concrete tables: the hand is ranked by its first hole card. *)
Definition sampleRanking (h0 h1 c0 c1 c2 c3 c4 : Card) : list Card * Z :=
  ([h0; h1; c0; c1; c2], h0).

(** Stand-ins for the stage-dependent player methods [allIn], [in] and
    [bet] of [views.go], to run the projection on concrete tables: they
    read the player record and ignore the stage. *)
Definition viewAllIn (p : Player) (stage : Z) : bool := In p && (Stack p =? 0).
Definition viewIn (p : Player) (stage : Z) : bool := In p.
Definition viewBet (p : Player) (stage : Z) : Z := Bet p.

(** A table with the given seats, status word and dealer, five community
    cards on the board and nothing else set. *)
Definition tableOf (ps : list Player) (status dealer : Z) : Game :=
  mkGame dealer 0 0 0 0 0 [1; 2; 3; 4; 5] status (mkConfig 0 2 1 0) ps [] [] 2
    (newRand 0).

(** ** Notions used to state the properties *)

(** The seats of [ps] numbered from [k] on; [indexed] starts at 0. *)
Definition indexedFrom (k : nat) (ps : list Player) : list (Z * Player) :=
  zip (Z.of_nat <$> seq k (length ps)) ps.

(** The seats that are still in the hand, in table order. *)
Definition inSeats (ps : list Player) : list Z :=
  fst <$> List.filter (fun ip => In ip.2) (indexed ps).

(** The seats that are in the hand and all-in, in table order. *)
Definition allInSeats (allIn : Player -> bool) (ps : list Player) : list Z :=
  fst <$> List.filter (fun ip => In ip.2 && allIn ip.2) (indexed ps).

(** Every seat in the hand is all-in or has matched the bet to call. *)
Definition everyoneCalled (allIn : Player -> bool) (g : Game) : bool :=
  forallb (fun p => negb (In p) || allIn p || (Bet p =? toCall g)) (players g).

(** No seat is in the hand. *)
Definition noneIn (ps : list Player) : Prop :=
  Forall (fun p => In p = false) ps.

(** Seat [w] is the only one in the hand. *)
Definition soleIn (ps : list Player) (w : nat) : Prop :=
  (exists p, ps !! w = Some p /\ In p = true) /\
  forall j p, ps !! j = Some p -> In p = true -> j = w.

(** All the chips wagered in the hand. *)
Definition sumTotalBet (ps : list Player) : Z :=
  foldr (fun p acc => TotalBet p + acc) 0 ps.

(** The [k]-th seat met when walking round the table after seat [x],
    wrapping modulo the seat count. *)
Definition seatAfter (ps : list Player) (x : Z) (k : nat) : Z :=
  (uadd x 1 + Z.of_nat k) mod len ps.

(** Seat [n] exists and is ready. *)
Definition readyAt (ps : list Player) (n : Z) : bool :=
  match at_ ps n with
  | Ok p => Ready p
  | _ => false
  end.

(** [s] is the next ready seat after [x]: the first ready one met on the
    walk, every seat met before it being not ready. *)
Definition firstReadyAfter (ps : list Player) (x s : Z) : Prop :=
  exists k : nat,
    s = seatAfter ps x k /\ readyAt ps s = true /\
    forall j : nat, (j < k)%nat -> readyAt ps (seatAfter ps x j) = false.

(** What is left of a player's [TotalBet] above the level [L]. *)
Definition deduct (L : Z) (p : Player) : Player :=
  setTotalBet p (Z.max 0 (TotalBet p - L)).

(** The steps of a list of levels, counted from [L]. *)
Fixpoint increments (L : Z) (ls : list Z) : list Z :=
  match ls with
  | [] => []
  | l :: ls' => (l - L) :: increments l ls'
  end.

(** The levels go up (not strictly) from [L] on. *)
Fixpoint ascendingFrom (L : Z) (ls : list Z) : Prop :=
  match ls with
  | [] => True
  | l :: ls' => L <= l /\ ascendingFrom l ls'
  end.

(** The seats in the hand that have put in at least [L]. *)
Definition inAtLeast (ps : list Player) (L : Z) : list Z :=
  fst <$> List.filter (fun ip => In ip.2 && (TotalBet ip.2 >=? L)) (indexed ps).

(** The seats in the hand that still have at least [L' - L] above the
    level [L]. *)
Definition eligibleAt (k : nat) (ps : list Player) (L L' : Z) : list Z :=
  fst <$> List.filter
            (fun ip => In ip.2 && (Z.max 0 (TotalBet ip.2 - L) >=? L' - L))
            (indexedFrom k ps).

(** The eligible seats of the pots carved at the levels [ls] above [L]. *)
Fixpoint eligibleLists (ps : list Player) (L : Z) (ls : list Z) : list (list Z) :=
  match ls with
  | [] => []
  | l :: ls' => eligibleAt 0 ps L l :: eligibleLists ps l ls'
  end.

(** What one pass at ceiling [t] leaves of a player. *)
Definition carveOff (t : Z) (p : Player) : Player :=
  if TotalBet p >=? t then setTotalBet p (usub (TotalBet p) t)
  else setTotalBet p 0.

(** Seats [a] and [b] both exist and have put in the same. *)
Definition sameStake (ps : list Player) (a b : Z) : Prop :=
  exists pa pb, at_ ps a = Ok pa /\ at_ ps b = Ok pb /\
                TotalBet pa = TotalBet pb.

(** All the chips held by a list of pots. *)
Definition sumAmt (qs : list Pot) : Z :=
  foldr (fun q acc => Amt q + acc) 0 qs.

(** The chips wagered by the seats listed in [todo]. *)
Definition chipsOf (ps : list Player) (todo : list nat) : Z :=
  foldr (fun i acc => totalBetOf ps (Z.of_nat i) + acc) 0 todo.

(** *** The reveal set of a player view *)

(** How many of the players satisfy [f]. *)
Definition countIf (f : Player -> bool) (ps : list Player) : Z :=
  Z.of_nat (length (List.filter f ps)).

Section RevealPolicy.

Variable p_allIn : Player -> Z -> bool.
Variable p_in : Player -> Z -> bool.
Variable p_bet : Player -> Z -> Z.
Variable BestFiveOfSeven :
  Card -> Card -> Card -> Card -> Card -> Card -> Card -> list Card * Z.

(** The all-in show-down condition as the projection evaluates it, by
    the three counters of its first loop (lines 128-150): as many all-in
    seats, counted over the whole table, as active ones, or one fewer
    while no active seat has a bet out. The condition in the words of
    section 4.5 is [allInShowdownAsWorded] below. *)
Definition allInShowdown (g : Game) : bool :=
  let stage := getStage g in
  let nAllIn := countIf (fun p => p_allIn p stage) (players g) in
  let nActive := countIf (fun p => p_in p stage) (players g) in
  let nBetting :=
    countIf (fun p => p_in p stage && (p_bet p stage >? 0)) (players g) in
  (nAllIn =? nActive) || ((nBetting =? 0) && (nAllIn =? nActive - 1)).

(** "Reveal all active seats' cards", on that condition. *)
Definition revealedAllIn (g : Game) (q : nat) : Prop :=
  allInShowdown g = true /\
  exists p, players g !! q = Some p /\ p_in p (getStage g) = true.

(** "The stage is PreDeal and more than one seat was active." *)
Definition handEnded (g : Game) : Prop :=
  getStage g = PreDeal /\
  1 < countIf (fun p => p_in p (getStage g)) (players g).

(** The score the ranking library gives the hand of seat [n]. *)
Definition scoreOf (g : Game) (n : Z) : Z :=
  match at_ (players g) n with
  | Ok p =>
      match rank BestFiveOfSeven g (Cards p) with
      | Ok hs => hs.2
      | _ => 0
      end
  | _ => 0
  end.

(** Seat [n] exists and is in the hand. *)
Definition inHand (g : Game) (n : Z) : bool :=
  match at_ (players g) n with
  | Ok p => In p
  | _ => false
  end.

(** The [i]-th seat of the walk "in table order starting at
    [calledNum]". *)
Definition walkSeat (g : Game) (i : nat) : Z :=
  uadd (calledNum g) (Z.of_nat i) mod len (players g).

(** "The best score seen so far" when the walk reaches its [i]-th seat:
    the least of the score of [calledNum] and of the scores of the seats
    in the hand met before. *)
Definition bestSeen (g : Game) (i : nat) : Z :=
  fold_left Z.min
    (scoreOf g <$> List.filter (inHand g) (walkSeat g <$> seq 0 i))
    (scoreOf g (calledNum g)).

(** Seat [q] is met on the walk, is in the hand, and scores at or below
    the best score seen so far. *)
Definition revealedByWalk (g : Game) (q : nat) : Prop :=
  exists i : nat,
    (i < length (players g))%nat /\ walkSeat g i = Z.of_nat q /\
    inHand g (Z.of_nat q) = true /\
    scoreOf g (Z.of_nat q) <= bestSeen g i.

(** "Every seat recorded as a pot winner." *)
Definition revealedWinner (g : Game) (q : nat) : Prop :=
  exists pot, pot ∈ pots g /\ Z.of_nat q ∈ WinningPlayerNums pot.

(** The reveal set, with the all-in show-down condition evaluated by
    counting. *)
Definition revealed (g : Game) (q : nat) : Prop :=
  revealedAllIn g q \/
  (handEnded g /\
   (Z.of_nat q = calledNum g \/ revealedByWalk g q \/ revealedWinner g q)).

End RevealPolicy.

(** The score the ranking library gives the hand of seat [n] of [ps]. *)
Definition handScore
    (BestFiveOfSeven :
       Card -> Card -> Card -> Card -> Card -> Card -> Card -> list Card * Z)
    (g : Game) (ps : list Player) (n : Z) : Z :=
  match at_ ps n with
  | Ok p =>
      match rank BestFiveOfSeven g (Cards p) with
      | Ok hs => hs.2
      | _ => 0
      end
  | _ => 0
  end.

(** Seat [q] of a view shows no hole cards. *)
Definition hidden (q : nat) (vp : list Player) : Prop :=
  forall p, vp !! q = Some p -> Cards p = (0, 0).

(** ** Sample tables *)

(** Two funded, ready seats; the dealer button is on the last one. *)
Definition dealerOnLastSeat : Game :=
  tableOf [mkPlayer true true 50 10 10 (7, 7); mkPlayer true true 60 10 10 (9, 9)]
    13 1.

(** Two seats with the button on seat 0; the only ready seat has no
    chips left. *)
Definition bustedTable : Game :=
  tableOf [mkPlayer true true 0 10 10 (7, 7); mkPlayer false false 0 0 0 (9, 9)]
    13 0.

(** River, betting closed: seat 0 folded after putting in 10, seats 1 and
    2 are in for 20 each with chips behind; seat 1 holds the better hand. *)
Definition foldedChipsTable : Game :=
  tableOf [mkPlayer true false 90 10 10 (7, 7);
           mkPlayer true true 80 20 20 (10, 1);
           mkPlayer true true 80 20 20 (20, 1)] 13 0.

(** River, betting closed: seat 0 is all-in for 50 and holds the best
    hand; seats 1 and 2 are in for 100 each with chips behind, seat 1
    holding the better hand of the two. *)
Definition allInWinnerTable : Game :=
  tableOf [mkPlayer true true 0 50 50 (7, 7);
           mkPlayer true true 10 100 100 (10, 1);
           mkPlayer true true 10 100 100 (20, 1)] 13 0.

(** Flop, betting open: seat 0 is in for 100 with 50 behind, seat 1 is
    all-in for 40. *)
Definition overbetTable : Game :=
  tableOf [mkPlayer true true 50 100 100 (7, 7);
           mkPlayer true true 0 40 40 (10, 1)] 11 0.

(** The same hand with the two players sitting the other way round. *)
Definition overbetTableMirrored : Game :=
  tableOf [mkPlayer true true 0 40 40 (10, 1);
           mkPlayer true true 50 100 100 (7, 7)] 11 0.

(** River, betting closed: both seats are all-in for 50. *)
Definition tiedAllInTable : Game :=
  tableOf [mkPlayer true true 0 50 50 (7, 7);
           mkPlayer true true 0 50 50 (10, 1)] 13 0.

(** River, betting closed: seats 0 and 1 are all-in for 50, seats 2 and
    3 are in for 80 each with chips behind. *)
Definition tiedAllInWithCallers : Game :=
  tableOf [mkPlayer true true 0 50 50 (7, 7);
           mkPlayer true true 0 50 50 (10, 1);
           mkPlayer true true 20 80 80 (20, 1);
           mkPlayer true true 20 80 80 (30, 1)] 13 0.

(** River, betting closed: seats 0, 1 and 2 are all-in for 30, 50 and
    50. *)
Definition threeAllInTable : Game :=
  tableOf [mkPlayer true true 0 30 30 (7, 7);
           mkPlayer true true 0 50 50 (10, 1);
           mkPlayer true true 0 50 50 (20, 1)] 13 0.

(** River, betting closed: seats 0 and 1 are all-in for 30 and 50, seat 2
    is in for 80 with chips behind, seat 3 folded after putting in 10. *)
Definition twoLevelsTable : Game :=
  tableOf [mkPlayer true true 0 30 30 (7, 7);
           mkPlayer true true 0 50 50 (10, 1);
           mkPlayer true true 20 80 80 (20, 1);
           mkPlayer true false 90 10 10 (4, 4)] 13 0.

(** A hand just ended (PreDeal): three seats still marked in the hand
    with chips behind, seat 1 closed the betting, seat 0 is on record as
    the winner of the pot. *)
Definition showdownOver : Game :=
  mkGame 0 0 0 0 0 1 [1; 2; 3; 4; 5] 1 (mkConfig 200 2 1 42)
    [mkPlayer true true 60 0 0 (7, 7); mkPlayer true true 40 0 0 (10, 1);
     mkPlayer true true 40 0 0 (20, 1)]
    [31; 32; 33] [mkPot 0 60 [] [0] [7; 7; 1; 2; 3] 7] 2 (newRand 42).

(** A snapshot announcing one ready seat at a table without seats. *)
Definition staleCountView : GameView :=
  mkView 0 0 0 0 0 0 [] 1 false (mkConfig 0 2 1 7) [] [] [] 0 1.

(** A snapshot whose stage is not one of the declared stages and does not
    fit the three bits kept for it. *)
Definition wideStageView : GameView :=
  mkView 0 0 0 0 0 0 [] 9 false (mkConfig 0 2 1 7) [] [] [] 0 0.

(** A snapshot of a hand on the flop: two seats, one pot on record. *)
Definition flopView : GameView :=
  mkView 1 0 1 1 0 0 [11; 12; 13] 3 true (mkConfig 200 2 1 42)
    [mkPlayer true true 90 10 10 (7, 8); mkPlayer true true 80 10 20 (9, 10)]
    [21; 22; 23] [mkPot 5 10 [0; 1] [1] [9; 10; 11; 12; 13] 100] 2 2.

(** Five seats with the button on seat 3; seats 0, 2 and 4 are ready. *)
Definition threeReady : Game :=
  tableOf [mkPlayer true false 50 0 0 (0, 0); mkPlayer false false 0 0 0 (0, 0);
           mkPlayer true false 50 0 0 (0, 0); mkPlayer false false 0 0 0 (0, 0);
           mkPlayer true false 50 0 0 (0, 0)] 1 3.

(** One seat, not in the hand. *)
Definition loneFoldedSeat : Game :=
  tableOf [mkPlayer true false 50 10 10 (7, 7)] 11 0.

(** Seat 1 is the only one left in the hand; seats 0 and 2 folded after
    putting in 10 and 20. *)
Definition concededTable : Game :=
  tableOf [mkPlayer true false 90 10 10 (7, 7);
           mkPlayer true true 70 30 30 (9, 9);
           mkPlayer true false 80 20 20 (4, 4)] 11 0.

(** ** The rest of [game.go] *)

(** [for !want(g.players[n]) { n = (n + 1) % uint(len(g.players)) }]: the
    loop of [initStage] (line 134), bounded like [seekReady]. *)
Fixpoint seekSeat (want : Player -> bool) (fuel : nat) (ps : list Player) (n : Z)
  : outcome Z :=
  match fuel with
  | O => Diverge
  | S fuel' =>
      p <~ at_ ps n ;;
      if want p then Ok n
      else n' <~ nextSeat ps n ;; seekSeat want fuel' ps n'
  end.

(** Lines 132-145. *)
Definition initStage (g : Game) : outcome Game :=
  start <~ nextSeat (players g) (dealerNum g) ;;
  a <~ seekSeat In (S (length (players g))) (players g) start ;;
  let g := set_actionNum g a in
  let g := set_players g ((fun p => setBet p 0) <$> players g) in
  Ok (set_minRaise g (BigBlind (config g))).

(** ** Notions used to state the further properties *)

(** Seat [n] exists and its player satisfies [want]. *)
Definition wantAt (want : Player -> bool) (ps : list Player) (n : Z) : bool :=
  match at_ ps n with
  | Ok p => want p
  | _ => false
  end.

(** [s] is the first seat satisfying [want] met when walking round the
    table from seat [n] on, seat [n] included. *)
Definition firstSeatFrom (want : Player -> bool) (ps : list Player) (n s : Z)
  : Prop :=
  exists k : nat,
    (k < length ps)%nat /\
    s = (n + Z.of_nat k) mod len ps /\ wantAt want ps s = true /\
    forall j : nat, (j < k)%nat ->
                    wantAt want ps ((n + Z.of_nat j) mod len ps) = false.

(** The test that ends the loop at lines 260-262: the player is in the
    hand, not all-in, and has not matched the bet to call. *)
Definition owesCall (allIn : Player -> bool) (g : Game) (p : Player) : bool :=
  negb ((allIn p || (Bet p =? toCall g)) || allIn p || negb (In p)).

(** ** Further sample tables *)

(** Flop, betting open: seat 0 has folded, seat 1 has bet 20, seats 2 and
    3 are in for 10 and still owe a call; the action is on seat 1. *)
Definition openBetTable : Game :=
  mkGame 0 1 0 0 0 0 [1; 2; 3; 4; 5] 11 (mkConfig 200 2 1 0)
    [mkPlayer true false 90 10 10 (7, 7); mkPlayer true true 80 20 20 (9, 9);
     mkPlayer true true 90 10 10 (4, 4); mkPlayer true true 90 10 10 (5, 5)]
    [] [] 2 (newRand 0).

(** Turn, betting open: three seats in for 20 each, with chips behind. *)
Definition calledTable : Game :=
  mkGame 0 1 0 0 0 0 [1; 2; 3; 4; 5] 12 (mkConfig 200 2 1 0)
    [mkPlayer true true 80 20 20 (7, 7); mkPlayer true true 80 20 20 (9, 9);
     mkPlayer true true 80 20 20 (4, 4)]
    [] [] 2 (newRand 0).

(** What a view may make of a player: the player as it is, or with the
    hole cards zeroed. *)
Definition censored (p v : Player) : Prop := v = p \/ v = setCards p (0, 0).

(** Seat [q] of a view shows the table's player as it is. *)
Definition shown (g : Game) (q : nat) (vp : list Player) : Prop :=
  vp !! q = players g !! q.

(** *** The all-in show-down condition in the words of section 4.5 *)

Section RevealPolicyAsWorded.

Variable p_allIn : Player -> Z -> bool.
Variable p_in : Player -> Z -> bool.
Variable p_bet : Player -> Z -> Z.
Variable BestFiveOfSeven :
  Card -> Card -> Card -> Card -> Card -> Card -> Card -> list Card * Z.

(** "Every active seat is all-in." *)
Definition everyActiveAllIn (g : Game) : bool :=
  forallb (fun p => negb (p_in p (getStage g)) || p_allIn p (getStage g))
    (players g).

(** "All-but-one active seats are all-in": exactly one active seat is
    not. *)
Definition allButOneActiveAllIn (g : Game) : bool :=
  countIf (fun p => p_in p (getStage g) && negb (p_allIn p (getStage g)))
    (players g) =? 1.

(** "No seat has a positive current-round bet." *)
Definition noPositiveBet (g : Game) : bool :=
  forallb (fun p => negb (p_bet p (getStage g) >? 0)) (players g).

(** "Every active seat is all-in, or all-but-one active seats are all-in
    and no seat has a positive current-round bet." *)
Definition allInShowdownAsWorded (g : Game) : bool :=
  everyActiveAllIn g || (allButOneActiveAllIn g && noPositiveBet g).

(** The reveal set with the all-in show-down condition as worded; the
    end-of-hand part is the one of [revealed]. *)
Definition revealedAsWorded (g : Game) (q : nat) : Prop :=
  (allInShowdownAsWorded g = true /\
   exists p, players g !! q = Some p /\ p_in p (getStage g) = true) \/
  (handEnded p_in g /\
   (Z.of_nat q = calledNum g \/ revealedByWalk BestFiveOfSeven g q \/
    revealedWinner g q)).

End RevealPolicyAsWorded.

(** Flop, betting open: seat 0 has bet 10 and folded, seat 1 is all-in
    from an earlier round, seat 2 has chips behind and has not bet in
    this round. *)
Definition foldedBetTable : Game :=
  mkGame 0 2 0 0 0 0 [1; 2; 3; 4; 5] 11 (mkConfig 200 2 1 42)
    [mkPlayer true false 50 10 50 (7, 7); mkPlayer true true 0 0 40 (10, 1);
     mkPlayer true true 60 0 40 (9, 9)]
    [31; 32; 33] [] 2 (newRand 42).

(** *** Notions for the amounts of the pots *)

(** What a player puts into the pot carved between the levels [L] and
    [L']: what is left of the [TotalBet] above [L], up to the step. *)
Definition contribution (L L' : Z) (p : Player) : Z :=
  Z.min (L' - L) (Z.max 0 (TotalBet p - L)).

(** What all the players put into that pot. *)
Definition sumContribution (L L' : Z) (ps : list Player) : Z :=
  foldr (fun p acc => contribution L L' p + acc) 0 ps.

(** The amounts of the pots carved at the levels [ls] above [L]. *)
Fixpoint potAmounts (ps : list Player) (L : Z) (ls : list Z) : list Z :=
  match ls with
  | [] => []
  | l :: ls' => sumContribution L l ps mod wB :: potAmounts ps l ls'
  end.

(** What the seats that are in the hand and not all-in have left in
    [TotalBet]. *)
Definition leftOver (allIn : Player -> bool) (ps : list Player) : Z :=
  foldr (fun p acc => if In p && negb (allIn p) then TotalBet p + acc else acc)
    0 ps.

(** The last of the levels [ls], or [L] when there is none; the highest
    one when the levels go up. *)
Fixpoint lastLevel (L : Z) (ls : list Z) : Z :=
  match ls with
  | [] => L
  | l :: ls' => lastLevel l ls'
  end.

(** The level before the [k]-th of the levels [ls]: the previous one, or
    [L] for the first. *)
Definition levelBefore (L : Z) (ls : list Z) (k : nat) : Z :=
  match k with
  | O => L
  | S j => default L (ls !! j)
  end.

(** The [k]-th of the levels is the first one of its value: in a list
    that goes up, the place where that level is reached. *)
Definition firstOfLevel (ls : list Z) (k : nat) : Prop :=
  exists v, ls !! k = Some v /\ forall j, (j < k)%nat -> ls !! j <> Some v.


(** * Properties *)

(** ** The outcome monad and indexing *)

Lemma obind_Ok {A B : Type} (m : outcome A) (k : A -> outcome B) (b : B) :
  obind m k = Ok b -> exists a, m = Ok a /\ k a = Ok b.
Proof. destruct m as [a| |]; simpl; intros H; try discriminate. eauto. Qed.

Lemma at_Ok {A : Type} (l : list A) (i : Z) (x : A) :
  at_ l i = Ok x <-> 0 <= i /\ l !! Z.to_nat i = Some x.
Proof.
  unfold at_. destruct (Z.ltb_spec i 0) as [Hi|Hi].
  - split; [discriminate | lia].
  - destruct (l !! Z.to_nat i) as [y|]; split; intros H;
      try discriminate; try (destruct H; discriminate).
    + inversion H; subst. auto.
    + destruct H as [_ H]. inversion H. reflexivity.
Qed.

Lemma at_of_nat {A : Type} (l : list A) (i : nat) (x : A) :
  l !! i = Some x -> at_ l (Z.of_nat i) = Ok x.
Proof. intros H. apply at_Ok. rewrite Nat2Z.id. split; [lia | exact H]. Qed.

Lemma at_in_range {A : Type} (l : list A) (i : Z) :
  0 <= i < len l -> exists x, at_ l i = Ok x.
Proof.
  intros [H0 H1]. unfold len in H1.
  destruct (lookup_lt_is_Some_2 l (Z.to_nat i)) as [x Hx]; [lia|].
  exists x. apply at_Ok. auto.
Qed.

Lemma at_nil {A : Type} (i : Z) : at_ (@nil A) i = Panic.
Proof. unfold at_. destruct (i <? 0); reflexivity. Qed.

Lemma foldM_app {S X : Type} (body : S -> X -> outcome S) (xs ys : list X) (s : S) :
  foldM body (xs ++ ys) s = (s' <~ foldM body xs s ;; foldM body ys s').
Proof.
  revert s. induction xs as [|x xs IH]; intros s; simpl; [reflexivity|].
  destruct (body s x); simpl; auto.
Qed.

Lemma foldM_invariant {S X : Type} (P : S -> Prop) (body : S -> X -> outcome S) :
  (forall s x s', P s -> body s x = Ok s' -> P s') ->
  forall (xs : list X) (s s' : S), P s -> foldM body xs s = Ok s' -> P s'.
Proof.
  intros Hstep. induction xs as [|x xs IH]; intros s s' Hs H.
  - simpl in H. inversion H; subst. exact Hs.
  - cbn [foldM] in H. apply obind_Ok in H. destruct H as [s1 [H1 H]].
    apply (IH s1 s' (Hstep _ _ _ Hs H1) H).
Qed.

(** ** The packed status word *)

Lemma land_small (s : Z) : 0 <= s < 8 -> Z.land s 7 = s /\ Z.land s 8 = 0.
Proof.
  intros H.
  assert (s = 0 \/ s = 1 \/ s = 2 \/ s = 3 \/ s = 4 \/ s = 5 \/ s = 6 \/ s = 7)
    as Hs by lia.
  repeat (destruct Hs as [->|Hs]; [split; reflexivity|]). subst. split; reflexivity.
Qed.

Lemma lor_land_absorb (a b : Z) : Z.lor (Z.land a b) b = b.
Proof.
  apply Z.bits_inj'. intros n _. rewrite Z.lor_spec, Z.land_spec.
  destruct (Z.testbit a n), (Z.testbit b n); reflexivity.
Qed.

Lemma getStage_setStageAndBetting (g : Game) (s : Z) (b : bool) :
  0 <= s < 8 -> getStage (setStageAndBetting g s b) = s.
Proof.
  intros Hs. destruct (land_small s Hs) as [H7 _].
  unfold getStage, setStageAndBetting, setBetting, setStage.
  destruct b; simpl.
  - rewrite !Z.land_lor_distr_l, <- Z.land_assoc.
    change (Z.land 248 7) with 0. change (Z.land 8 7) with 0.
    rewrite Z.land_0_r, H7, Z.lor_0_l, Z.lor_0_r. reflexivity.
  - rewrite <- Z.land_assoc. change (Z.land 247 7) with 7.
    rewrite Z.land_lor_distr_l, <- Z.land_assoc. change (Z.land 248 7) with 0.
    rewrite Z.land_0_r, H7, Z.lor_0_l. reflexivity.
Qed.

Lemma getBetting_setStageAndBetting (g : Game) (s : Z) (b : bool) :
  0 <= s < 8 -> getBetting (setStageAndBetting g s b) = b.
Proof.
  intros Hs. destruct (land_small s Hs) as [_ H8].
  unfold getBetting, setStageAndBetting, setBetting, setStage.
  destruct b; simpl.
  - rewrite Z.land_lor_distr_l. change (Z.land 8 8) with 8.
    rewrite lor_land_absorb. reflexivity.
  - rewrite <- Z.land_assoc. change (Z.land 247 8) with 0. rewrite Z.land_0_r.
    reflexivity.
Qed.

(** ** Numbering the seats *)

Lemma indexed_indexedFrom (ps : list Player) : indexed ps = indexedFrom 0 ps.
Proof. reflexivity. Qed.

Lemma indexedFrom_cons (k : nat) (p : Player) (ps : list Player) :
  indexedFrom k (p :: ps) = (Z.of_nat k, p) :: indexedFrom (S k) ps.
Proof. reflexivity. Qed.

Lemma indexedFrom_noneIn (k : nat) (ps : list Player) :
  noneIn ps -> List.filter (fun ip => In ip.2) (indexedFrom k ps) = [].
Proof.
  revert k. induction ps as [|p ps IH]; intros k H; [reflexivity|].
  inversion H as [|? ? Hp Hps]; subst.
  rewrite indexedFrom_cons. simpl. rewrite Hp. apply IH, Hps.
Qed.

Lemma soleIn_tail_noneIn (p : Player) (ps : list Player) :
  soleIn (p :: ps) 0 -> noneIn ps.
Proof.
  intros [_ Hu]. apply Forall_lookup_2. intros j q Hq.
  destruct (In q) eqn:E; [|reflexivity].
  specialize (Hu (S j) q Hq E). discriminate.
Qed.

Lemma soleIn_tail (p : Player) (ps : list Player) (w : nat) :
  soleIn (p :: ps) (S w) -> In p = false /\ soleIn ps w.
Proof.
  intros [[q [Hq Hin]] Hu]. split.
  - destruct (In p) eqn:E; [|reflexivity].
    specialize (Hu O p eq_refl E). discriminate.
  - split; [exists q; auto|].
    intros j r Hr Hrin. specialize (Hu (S j) r Hr Hrin). lia.
Qed.

Lemma indexedFrom_soleIn (k : nat) (ps : list Player) (w : nat) :
  soleIn ps w ->
  fst <$> List.filter (fun ip => In ip.2) (indexedFrom k ps) = [Z.of_nat (k + w)].
Proof.
  revert k w. induction ps as [|p ps IH]; intros k w H.
  - destruct H as [[q [Hq _]] _]. discriminate.
  - rewrite indexedFrom_cons. simpl. destruct w as [|w].
    + destruct H as [[q [Hq Hin]] Hu]. simpl in Hq. inversion Hq; subst q.
      rewrite Hin. simpl.
      rewrite indexedFrom_noneIn.
      * rewrite Nat.add_0_r. reflexivity.
      * apply (soleIn_tail_noneIn p). split; [exists p; auto | exact Hu].
    + destruct (soleIn_tail _ _ _ H) as [Hp Hs]. rewrite Hp.
      rewrite (IH (S k) w Hs). f_equal. f_equal. lia.
Qed.

Lemma inSeats_soleIn (ps : list Player) (w : nat) :
  soleIn ps w -> inSeats ps = [Z.of_nat w].
Proof. intros H. unfold inSeats. rewrite indexed_indexedFrom. apply (indexedFrom_soleIn 0 ps w H). Qed.

Lemma inSeats_noneIn (ps : list Player) : noneIn ps -> inSeats ps = [].
Proof.
  intros H. unfold inSeats. rewrite indexed_indexedFrom, indexedFrom_noneIn; auto.
Qed.

(** Every pair of [indexedFrom k ps] is a seat number and the player
    sitting there, [k] seats further in any table that has [ps] after its
    first [k] seats. *)
Lemma indexedFrom_seated (pre ps : list Player) :
  Forall (fun ip => at_ (pre ++ ps) ip.1 = Ok ip.2) (indexedFrom (length pre) ps).
Proof.
  revert pre. induction ps as [|p ps IH]; intros pre; [constructor|].
  rewrite indexedFrom_cons. constructor.
  - simpl. apply at_of_nat. rewrite lookup_app_r by lia.
    rewrite Nat.sub_diag. reflexivity.
  - specialize (IH (pre ++ [p])). rewrite <- app_assoc in IH. simpl in IH.
    rewrite length_app in IH. simpl in IH.
    replace (length pre + 1)%nat with (S (length pre)) in IH by lia. exact IH.
Qed.

Lemma indexed_seated (ps : list Player) :
  Forall (fun ip => at_ ps ip.1 = Ok ip.2) (indexed ps).
Proof. apply (indexedFrom_seated [] ps). Qed.

Lemma indexed_in_range (ps : list Player) :
  Forall (fun ip : Z * Player => 0 <= ip.1 < len ps) (indexed ps).
Proof.
  eapply Forall_impl; [apply indexed_seated|].
  intros [i p] H. cbn [fst snd] in *. apply at_Ok in H. destruct H as [H0 H].
  apply lookup_lt_Some in H. unfold len. lia.
Qed.

(** ** The first loop of [updateRoundInfo] *)

Section ScanFacts.

Variable allIn : Player -> bool.

Lemma scan_fold (g : Game) (l : list (Z * Player)) (s : Scan) :
  Forall (fun ip => at_ (players g) ip.1 = Ok ip.2) l ->
  foldM (scanStep allIn g) l s =
  Ok (mkScan
        (allCalled s &&
         forallb (fun p => negb (In p) || allIn p || (Bet p =? toCall g)) l.*2)
        (allInPlayerNums s ++
         (List.filter (fun ip => In ip.2 && allIn ip.2) l).*1)
        (inPlayerNums s ++ (List.filter (fun ip => In ip.2) l).*1)).
Proof.
  revert s. induction l as [|[i p] l IH]; intros s Hl.
  - simpl. rewrite andb_true_r, !app_nil_r. destruct s; reflexivity.
  - inversion Hl as [|? ? Hip Hl']; subst. simpl in Hip.
    simpl. destruct (In p) eqn:Ein; simpl.
    + destruct (allIn p) eqn:Eall; simpl.
      * rewrite (IH _ Hl'). simpl. rewrite <- !app_assoc. reflexivity.
      * unfold isCalled. rewrite Hip. simpl. rewrite Eall. simpl.
        destruct (Bet p =? toCall g); simpl; rewrite (IH _ Hl'); simpl;
          rewrite <- !app_assoc, ?andb_false_r; reflexivity.
    + rewrite (IH _ Hl'). reflexivity.
Qed.

Lemma scanPlayers_Ok (g : Game) :
  scanPlayers allIn g =
  Ok (mkScan (everyoneCalled allIn g) (allInSeats allIn (players g))
        (inSeats (players g))).
Proof.
  unfold scanPlayers. rewrite scan_fold by apply indexed_seated.
  simpl. unfold everyoneCalled, allInSeats, inSeats, indexed.
  rewrite snd_zip; [reflexivity|].
  unfold seatNums. rewrite length_fmap, length_seq. lia.
Qed.

End ScanFacts.

(** ** Concession (lines 244-255) *)

Section ConcedeFacts.

Lemma chipsOf_seq (pre ps : list Player) :
  chipsOf (pre ++ ps) (seq (length pre) (length ps)) = sumTotalBet ps.
Proof.
  revert pre. induction ps as [|p ps IH]; intros pre; [reflexivity|].
  simpl. unfold totalBetOf at 1. rewrite Nat2Z.id.
  rewrite lookup_app_r by lia. rewrite Nat.sub_diag. simpl. f_equal.
  specialize (IH (pre ++ [p])). rewrite <- app_assoc in IH. simpl in IH.
  rewrite length_app in IH. simpl in IH.
  replace (length pre + 1)%nat with (S (length pre)) in IH by lia. exact IH.
Qed.

Lemma setStack_setStack (p : Player) (a b : Z) :
  setStack (setStack p a) b = setStack p b.
Proof. reflexivity. Qed.

Lemma setStack_same (p : Player) : setStack p (Stack p) = p.
Proof. destruct p; reflexivity. Qed.

(** The loop keeps every seat but the winner's, whose stack runs through
    the wrapped partial sums. *)
Lemma concede_fold (ps : list Player) (w : nat) (pw : Player)
    (todo : list nat) (s : Z) :
  ps !! w = Some pw ->
  Forall (fun i => (i < length ps)%nat) todo ->
  foldM (concedeStep [Z.of_nat w]) (Z.of_nat <$> todo) (<[w := setStack pw s]> ps) =
  Ok (<[w := setStack pw
               (match todo with
                | [] => s
                | _ => (s + chipsOf ps todo) mod wB
                end)]> ps).
Proof.
  intros Hw. revert s. induction todo as [|i todo IH]; intros s Htodo;
    [reflexivity|].
  inversion Htodo as [|? ? Hi Htodo']; subst.
  assert (Hlt : (w < length ps)%nat) by (apply lookup_lt_Some in Hw; exact Hw).
  destruct (lookup_lt_is_Some_2 ps i Hi) as [p Hp].
  assert (Hread : exists q, at_ (<[w := setStack pw s]> ps) (Z.of_nat i) = Ok q
                            /\ TotalBet q = TotalBet p).
  { destruct (decide (w = i)) as [->|Hne].
    - exists (setStack pw s). split.
      + apply at_of_nat, list_lookup_insert_eq, Hlt.
      + rewrite Hw in Hp. inversion Hp. reflexivity.
    - exists p. split; [|reflexivity].
      apply at_of_nat. rewrite list_lookup_insert_ne by exact Hne. exact Hp. }
  destruct Hread as [q [Hq Hqtb]].
  cbn [fmap list_fmap foldM]. unfold concedeStep at 1.
  rewrite Hq. cbn [obind].
  change (at_ [Z.of_nat w] 0) with (@Ok Z (Z.of_nat w)). cbn [obind].
  rewrite (at_of_nat _ w (setStack pw s))
    by (apply list_lookup_insert_eq, Hlt).
  cbn [obind]. rewrite Nat2Z.id, list_insert_insert_eq, setStack_setStack.
  change (Stack (setStack pw s)) with s.
  change (foldM (concedeStep [Z.of_nat w]) (list_fmap nat Z Z.of_nat todo))
    with (foldM (concedeStep [Z.of_nat w]) (Z.of_nat <$> todo)).
  rewrite (IH _ Htodo'). do 3 f_equal.
  assert (Htb : totalBetOf ps (Z.of_nat i) = TotalBet p).
  { unfold totalBetOf. rewrite Nat2Z.id, Hp. reflexivity. }
  unfold uadd. rewrite Hqtb. destruct todo as [|j todo].
  - simpl. rewrite Htb. f_equal. lia.
  - cbn [chipsOf foldr]. fold (chipsOf ps (j :: todo)). rewrite Htb.
    rewrite Zplus_mod_idemp_l. f_equal. lia.
Qed.

Lemma concede_sole (g : Game) (w : nat) (pw : Player) :
  players g !! w = Some pw ->
  concede g [Z.of_nat w] =
  Ok (set_players (setStageAndBetting g PreDeal false)
        (<[w := setStack pw ((Stack pw + sumTotalBet (players g)) mod wB)]>
           (players g))).
Proof.
  intros Hw. unfold concede.
  assert (Hps : players (setStageAndBetting g PreDeal false) = players g).
  { unfold setStageAndBetting, setBetting, setStage. reflexivity. }
  rewrite Hps. unfold seatNums.
  rewrite <- (list_insert_id (players g) w pw Hw) at 2.
  rewrite <- (setStack_same pw) at 1.
  rewrite (concede_fold (players g) w pw (seq 0 (length (players g))) (Stack pw) Hw).
  - cbn [obind]. do 3 f_equal.
    pose proof (chipsOf_seq [] (players g)) as Hsum. simpl in Hsum.
    destruct (players g) as [|p ps] eqn:E; [discriminate Hw|].
    cbn [length seq]. cbn [length seq] in Hsum. rewrite Hsum. reflexivity.
  - apply Forall_forall. intros i Hi. apply elem_of_seq in Hi. lia.
Qed.

End ConcedeFacts.

(** ** The overbet refund (lines 272-286) *)

(** X21. When no seat in the hand has put in more than seat 0, both top
    bettors stay on seat 0, where they start. *)
Lemma topBettors_seat_0_on_top (g : Game) (p0 : Player) (inPlayerNums : list Z) :
  players g !! 0%nat = Some p0 ->
  Forall (fun ndx => exists p, at_ (players g) ndx = Ok p /\
                               TotalBet p <= TotalBet p0) inPlayerNums ->
  topBettors g inPlayerNums = Ok (0, 0).
Proof.
  intros H0 Hall. unfold topBettors.
  induction Hall as [|ndx l [p [Hp Hle]] Hall IH]; [reflexivity|].
  cbn [foldM]. unfold topBettorStep at 1. rewrite Hp. cbn [obind].
  change (at_ (players g) 0) with (at_ (players g) (Z.of_nat 0)).
  rewrite (at_of_nat _ _ _ H0). cbn [obind].
  destruct (Z.gtb_spec (TotalBet p) (TotalBet p0)) as [Hgt|_]; [lia|].
  cbn [obind]. exact IH.
Qed.

Section RoundInfoFacts.

Variable allIn : Player -> bool.
Variable returnChips : Player -> Z -> Player.
Variable BestFiveOfSeven :
  Card -> Card -> Card -> Card -> Card -> Card -> Card -> list Card * Z.

Let run := updateRoundInfo allIn returnChips BestFiveOfSeven.

(** C6. When exactly one seat [w] is still in the hand, [updateRoundInfo]
    returns normally; the stack of [w] has grown by the sum of every
    seat's [TotalBet] (in [uint] arithmetic, hence exactly whenever the
    total fits a [uint]), no other seat has changed, the status is
    (PreDeal, not betting), and neither the pots nor the seat to act
    have been touched. *)
Theorem concession_pays_sole_player (g : Game) (w : nat) (pw : Player) :
  players g !! w = Some pw ->
  soleIn (players g) w ->
  exists g',
    run g = Ok g' /\
    players g' =
      <[w := setStack pw ((Stack pw + sumTotalBet (players g)) mod wB)]>
        (players g) /\
    (is_uint (Stack pw + sumTotalBet (players g)) ->
     Stack <$> players g' !! w = Some (Stack pw + sumTotalBet (players g))) /\
    getStage g' = PreDeal /\ getBetting g' = false /\
    pots g' = pots g /\ actionNum g' = actionNum g.
Proof.
  intros Hw Hsole. eexists. split.
  - unfold run, updateRoundInfo. rewrite scanPlayers_Ok. cbn [obind inPlayerNums].
    rewrite (inSeats_soleIn _ _ Hsole). change (len [Z.of_nat w] <? 2) with true.
    cbv iota. apply concede_sole, Hw.
  - split; [reflexivity|]. split; [|split; [|split; [|split]]].
    + intros Hfit. cbn [players set_players].
      rewrite list_lookup_insert_eq by (apply lookup_lt_Some in Hw; exact Hw).
      simpl. f_equal. apply Z.mod_small, Hfit.
    + apply (getStage_setStageAndBetting g PreDeal false). unfold PreDeal. lia.
    + apply (getBetting_setStageAndBetting g PreDeal false). unfold PreDeal. lia.
    + reflexivity.
    + reflexivity.
Qed.

(** With two or more seats in the hand and everyone called or all-in,
    [updateRoundInfo] is the overbet refund followed, on the river, by
    settlement over the all-in seats found by the first loop and the
    reset for the next hand. *)
Lemma updateRoundInfo_all_called (g : Game) :
  2 <= len (inSeats (players g)) ->
  everyoneCalled allIn g = true ->
  run g =
  (g1 <~ (if len (inSeats (players g)) - len (allInSeats allIn (players g)) <? 2
          then refundOverbet returnChips g (inSeats (players g)) else Ok g) ;;
   if getStage g1 =? River then
     st <~ settle allIn BestFiveOfSeven g1 (allInSeats allIn (players g)) ;;
     resetForNextHand (recordPots g1 st)
   else Ok (setBetting g1 false)).
Proof.
  intros Hin Hcalled. unfold run, updateRoundInfo. rewrite scanPlayers_Ok.
  cbn [obind inPlayerNums allInPlayerNums allCalled].
  destruct (Z.ltb_spec (len (inSeats (players g))) 2) as [Hlt|_]; [lia|].
  rewrite Hcalled. reflexivity.
Qed.

Lemma set_players_same (g : Game) : set_players g (players g) = g.
Proof. destruct g; reflexivity. Qed.

(** C10, as amended. With no seat in the hand, the concession branch
    reads the first element of an empty list as soon as its loop over
    the seats runs once: [updateRoundInfo] panics on every table that
    has a seat, and on a table without seats the loop body never runs
    and the call returns normally with the status set to (PreDeal, not
    betting). *)
Theorem updateRoundInfo_noneIn (g : Game) :
  noneIn (players g) ->
  (players g <> [] -> run g = Panic) /\
  (players g = [] -> run g = Ok (setStageAndBetting g PreDeal false)).
Proof.
  intros Hnone.
  assert (Hrun : run g = concede g []).
  { unfold run, updateRoundInfo. rewrite scanPlayers_Ok. cbn [obind inPlayerNums].
    rewrite (inSeats_noneIn _ Hnone). reflexivity. }
  rewrite Hrun. unfold concede.
  assert (Hps : players (setStageAndBetting g PreDeal false) = players g)
    by reflexivity.
  rewrite Hps. split; intros H.
  - destruct (players g) as [|p ps]; [congruence|]. reflexivity.
  - rewrite H. cbn [length seatNums seq fmap list_fmap foldM obind]. f_equal.
    rewrite <- (set_players_same (setStageAndBetting g PreDeal false)) at 2.
    rewrite Hps, H. reflexivity.
Qed.

End RoundInfoFacts.

(** C6, on a table where seat 1 is the only one left in the hand: it
    collects the 60 chips wagered. *)
Lemma concession_pays_sole_player_witness :
  exists g',
    updateRoundInfo allIn returnChips sampleRanking concededTable = Ok g' /\
    players g' =
      <[1%nat := setStack (mkPlayer true true 70 30 30 (9, 9))
                   ((70 + sumTotalBet (players concededTable)) mod wB)]>
        (players concededTable) /\
    (is_uint (70 + sumTotalBet (players concededTable)) ->
     Stack <$> players g' !! 1%nat =
     Some (70 + sumTotalBet (players concededTable))) /\
    getStage g' = PreDeal /\ getBetting g' = false /\
    pots g' = pots concededTable /\ actionNum g' = actionNum concededTable.
Proof.
  apply (concession_pays_sole_player allIn returnChips sampleRanking
           concededTable 1 (mkPlayer true true 70 30 30 (9, 9))).
  - reflexivity.
  - split.
    + eexists. split; reflexivity.
    + intros j p Hj Hp.
      destruct j as [|[|[|j]]]; simpl in Hj; inversion Hj; subst; simpl in Hp;
        try discriminate; reflexivity.
Defined.

(** C10 on a table whose only seat has folded: the call panics. *)
Lemma updateRoundInfo_noneIn_witness :
  noneIn (players loneFoldedSeat) /\
  players loneFoldedSeat <> [] /\
  updateRoundInfo allIn returnChips sampleRanking loneFoldedSeat = Panic.
Proof.
  assert (Hnone : noneIn (players loneFoldedSeat)) by (repeat constructor).
  assert (Hseat : players loneFoldedSeat <> []) by discriminate.
  split; [exact Hnone|]. split; [exact Hseat|].
  exact (proj1 (updateRoundInfo_noneIn allIn returnChips sampleRanking
                  loneFoldedSeat Hnone) Hseat).
Defined.

(** C10, the claim as stated fails: a freshly created table has no seat in
    the hand, yet [updateRoundInfo] reads nothing out of range on it and
    returns. *)
Lemma updateRoundInfo_NewGame_returns :
  noneIn (players NewGame) /\
  updateRoundInfo allIn returnChips sampleRanking NewGame =
  Ok (setStageAndBetting NewGame PreDeal false).
Proof. split; [constructor | reflexivity]. Qed.

(** ** resetForNextHand (lines 206-225) *)

(** X20. The dealer button is moved by [g.dealerNum + 1] without reduction
    modulo the seat count: from the last seat it leaves the table. *)
Lemma resetForNextHand_past_last_seat (g : Game) :
  len (players g) <= uadd (dealerNum g) 1 -> resetForNextHand g = Panic.
Proof.
  intros H. unfold resetForNextHand. cbn [players set_players set_dealerNum dealerNum].
  cbn [seekReady]. unfold at_.
  assert (H0 : 0 <= uadd (dealerNum g) 1)
    by (unfold uadd; apply Z.mod_pos_bound; reflexivity).
  destruct (Z.ltb_spec (uadd (dealerNum g) 1) 0); [lia|].
  rewrite lookup_ge_None_2; [reflexivity|].
  rewrite length_fmap. unfold len in H. lia.
Qed.

(** C7. Two ready, funded seats with the button on the last one:
    [resetForNextHand] indexes the seats out of range and panics instead
    of wrapping the button to seat 0. *)
Theorem resetForNextHand_last_seat_panics :
  readyCount dealerOnLastSeat = 2 /\
  dealerNum dealerOnLastSeat = len (players dealerOnLastSeat) - 1 /\
  resetForNextHand dealerOnLastSeat = Panic.
Proof. repeat split. Qed.

(** A ready seat is not enough for the search to end: busted seats are
    marked not ready first, and when none is left the loop runs for
    ever. *)
Example resetForNextHand_busted_table :
  readyCount bustedTable = 1 /\ resetForNextHand bustedTable = Diverge.
Proof. split; reflexivity. Qed.

(** ** Blind rotation (lines 147-182) *)

Lemma readyCount_filter (ps : list Player) (c : Z) :
  fold_left (fun c p => if Ready p then c + 1 else c) ps c =
  c + Z.of_nat (length (List.filter Ready ps)).
Proof.
  revert c. induction ps as [|p ps IH]; intros c; simpl; [lia|].
  rewrite IH. destruct (Ready p); simpl; lia.
Qed.

Lemma readyCount_pos (g : Game) :
  0 < readyCount g ->
  exists (r : nat) (p : Player), players g !! r = Some p /\ Ready p = true.
Proof.
  unfold readyCount. rewrite readyCount_filter. intros H.
  destruct (List.filter Ready (players g)) as [|p l] eqn:E; [simpl in H; lia|].
  assert (Hin : List.In p (List.filter Ready (players g)))
    by (rewrite E; left; reflexivity).
  apply filter_In in Hin. destruct Hin as [Hin Hr].
  apply list_elem_of_In, list_elem_of_lookup in Hin. destruct Hin as [r Hr'].
  exists r, p. auto.
Qed.

Lemma least_true (P : nat -> bool) (k0 : nat) :
  P k0 = true ->
  exists k : nat, (k <= k0)%nat /\ P k = true /\
                  forall j : nat, (j < k)%nat -> P j = false.
Proof.
  revert P. induction k0 as [|k0 IH]; intros P H.
  - exists O. repeat split; auto. intros j Hj. lia.
  - destruct (P O) eqn:E0.
    + exists O. repeat split; auto; [lia|]. intros j Hj. lia.
    + destruct (IH (fun k => P (S k)) H) as [k [Hk [Hpk Hmin]]].
      exists (S k). repeat split; auto; [lia|].
      intros [|j] Hj; [exact E0|]. apply Hmin. lia.
Qed.

Section SeekFacts.

Variable ps : list Player.
Hypothesis seats_fit : len ps <= wB.

Lemma nextSeat_in_range (n : Z) :
  0 <= n < len ps -> nextSeat ps n = Ok ((n + 1) mod len ps).
Proof.
  intros Hn. unfold nextSeat, umod.
  destruct (Z.eqb_spec (len ps) 0) as [E|E]; [lia|]. f_equal.
  unfold uadd. destruct (Z.eq_dec (n + 1) wB) as [Hw|Hw].
  - rewrite Hw, Z_mod_same_full. replace (len ps) with wB by lia.
    rewrite Z_mod_same_full. reflexivity.
  - rewrite (Z.mod_small (n + 1) wB) by lia. reflexivity.
Qed.

Lemma seekReady_finds (k : nat) :
  forall (fuel : nat) (n : Z),
    0 <= n < len ps -> (k < fuel)%nat ->
    (forall j : nat, (j < k)%nat ->
                     readyAt ps ((n + Z.of_nat j) mod len ps) = false) ->
    readyAt ps ((n + Z.of_nat k) mod len ps) = true ->
    seekReady fuel ps n = Ok ((n + Z.of_nat k) mod len ps).
Proof.
  induction k as [|k IH]; intros fuel n Hn Hfuel Hbefore Hk.
  - destruct fuel as [|fuel]; [lia|]. simpl.
    rewrite Z.add_0_r, Z.mod_small in * by lia.
    unfold readyAt in Hk. destruct (at_ ps n) as [p| |]; try discriminate.
    simpl. rewrite Hk. reflexivity.
  - destruct fuel as [|fuel]; [lia|]. simpl.
    pose proof (Hbefore O ltac:(lia)) as H0.
    rewrite Z.add_0_r, Z.mod_small in H0 by lia.
    destruct (at_in_range ps n Hn) as [p Hp].
    unfold readyAt in H0. rewrite Hp in H0. rewrite Hp. simpl. rewrite H0.
    rewrite nextSeat_in_range by exact Hn. simpl.
    assert (Hshift : forall j : nat,
               ((n + 1) mod len ps + Z.of_nat j) mod len ps =
               (n + Z.of_nat (S j)) mod len ps).
    { intros j. rewrite Zplus_mod_idemp_l. f_equal. lia. }
    rewrite <- Hshift. apply IH.
    + apply Z.mod_pos_bound. lia.
    + lia.
    + intros j Hj. rewrite Hshift. apply Hbefore. lia.
    + rewrite Hshift. exact Hk.
Qed.

Lemma readyAfter_spec (x : Z) :
  (exists (r : nat) (p : Player), ps !! r = Some p /\ Ready p = true) ->
  exists s : Z, readyAfter ps x = Ok s /\ firstReadyAfter ps x s.
Proof.
  intros [r [p [Hr Hp]]].
  assert (Hlen : (r < length ps)%nat) by (apply lookup_lt_Some in Hr; exact Hr).
  assert (HL : 0 < len ps) by (unfold len; lia).
  set (a := uadd x 1).
  set (k0 := Z.to_nat ((Z.of_nat r - a) mod len ps)).
  assert (Hk0 : readyAt ps (seatAfter ps x k0) = true).
  { unfold seatAfter. fold a. unfold k0.
    rewrite Z2Nat.id by (apply Z.mod_pos_bound; lia).
    rewrite Zplus_mod_idemp_r.
    replace (a + (Z.of_nat r - a)) with (Z.of_nat r) by lia.
    rewrite Z.mod_small by (unfold len; lia).
    unfold readyAt. rewrite (at_of_nat _ _ _ Hr). exact Hp. }
  destruct (least_true (fun k => readyAt ps (seatAfter ps x k)) k0 Hk0)
    as [k [Hle [Hk Hmin]]].
  assert (Hk0lt : (k0 < length ps)%nat).
  { unfold k0. pose proof (Z.mod_pos_bound (Z.of_nat r - a) (len ps) HL).
    unfold len in *. lia. }
  exists (seatAfter ps x k). split.
  - unfold readyAfter, nextSeat, umod.
    destruct (Z.eqb_spec (len ps) 0) as [E|E]; [lia|]. simpl. fold a.
    assert (Hseat : forall j : nat,
               (a mod len ps + Z.of_nat j) mod len ps = seatAfter ps x j).
    { intros j. unfold seatAfter. fold a. apply Zplus_mod_idemp_l. }
    rewrite <- Hseat.
    apply (seekReady_finds k (S (length ps)) (a mod len ps)).
    + apply Z.mod_pos_bound. lia.
    + lia.
    + intros j Hj. rewrite Hseat. apply Hmin, Hj.
    + rewrite Hseat. exact Hk.
  - exists k. auto.
Qed.

(** The bound on the search is exact: it is exhausted only when no
    seat is ready, and then the loop of the source never ends either. *)
Lemma seekReady_never_ready (fuel : nat) :
  Forall (fun p => Ready p = false) ps ->
  forall n : Z, 0 <= n < len ps -> seekReady fuel ps n = Diverge.
Proof.
  intros Hnone. induction fuel as [|fuel IH]; intros n Hn; [reflexivity|].
  simpl. destruct (at_in_range ps n Hn) as [p Hp]. rewrite Hp. simpl.
  apply at_Ok in Hp. destruct Hp as [_ Hp].
  rewrite (Forall_lookup_1 _ _ _ _ Hnone Hp).
  rewrite nextSeat_in_range by exact Hn. simpl.
  apply IH. apply Z.mod_pos_bound. lia.
Qed.

End SeekFacts.

(** X19. When the seat after the dealer exists and some ready seat has chips,
    [resetForNextHand] returns: every player is reset, busted players are
    no longer ready, the dealer moves to the next seat that is still
    ready, and the status is (PreDeal, not betting). *)
Lemma resetForNextHand_in_range (g : Game) :
  len (players g) <= wB ->
  uadd (dealerNum g) 1 < len (players g) ->
  (exists (r : nat) (p : Player),
      players g !! r = Some p /\ Ready p = true /\ Stack p <> 0) ->
  exists d : Z,
    resetForNextHand g =
    Ok (setStageAndBetting
          (set_dealerNum (set_players g (resetPlayer <$> players g)) d)
          PreDeal false) /\
    firstReadyAfter (resetPlayer <$> players g) (dealerNum g) d.
Proof.
  intros Hfit Hnext [r [p [Hr [Hready Hstack]]]].
  assert (Hlen : len (resetPlayer <$> players g) = len (players g))
    by (unfold len; rewrite length_fmap; reflexivity).
  destruct (readyAfter_spec (resetPlayer <$> players g)
              ltac:(rewrite Hlen; exact Hfit) (dealerNum g))
    as [d [Hd Hspec]].
  - exists r, (resetPlayer p). split.
    + rewrite list_lookup_fmap, Hr. reflexivity.
    + unfold resetPlayer. cbn [Stack setTotalBet setBet setIn].
      destruct (Z.eqb_spec (Stack p) 0); [contradiction | exact Hready].
  - exists d. split; [|exact Hspec].
    unfold resetForNextHand.
    cbn [players set_players set_dealerNum dealerNum].
    unfold readyAfter, nextSeat, umod in Hd. rewrite Hlen in Hd.
    destruct (Z.eqb_spec (len (players g)) 0) as [E|_].
    { assert (0 <= uadd (dealerNum g) 1)
        by (unfold uadd; apply Z.mod_pos_bound; reflexivity). lia. }
    cbn [obind] in Hd.
    rewrite Z.mod_small in Hd
      by (split; [unfold uadd; apply Z.mod_pos_bound; reflexivity | exact Hnext]).
    rewrite length_fmap in Hd. rewrite length_fmap, Hd. reflexivity.
Qed.

(** C8. On a table whose seat count fits a [uint], [updateBlindNums]
    - with fewer than two ready seats puts the small blind, the big
      blind and UTG on the dealer and returns [ErrNotEnoughPlayers];
    - with exactly two puts the small blind and UTG on the dealer and
      the big blind on the next ready seat after the dealer, and returns
      no error;
    - with three or more puts the small blind on the next ready seat
      after the dealer, the big blind on the next ready seat after the
      small blind and UTG on the next ready seat after the big blind, and
      returns no error;
    every search walking the seats in order, wrapping modulo the seat
    count and passing over the seats that are not ready. *)
Theorem updateBlindNums_policy (g : Game) :
  len (players g) <= wB ->
  (readyCount g < 2 ->
   updateBlindNums g =
   Ok (set_utgNum (set_sbNum (set_bbNum g (dealerNum g)) (dealerNum g))
         (dealerNum g),
       Some ErrNotEnoughPlayers)) /\
  (readyCount g = 2 ->
   exists bb : Z,
     updateBlindNums g =
     Ok (set_bbNum (set_utgNum (set_sbNum g (dealerNum g)) (dealerNum g)) bb,
         None) /\
     firstReadyAfter (players g) (dealerNum g) bb) /\
  (2 < readyCount g ->
   exists sb bb utg : Z,
     updateBlindNums g =
     Ok (set_utgNum (set_bbNum (set_sbNum g sb) bb) utg, None) /\
     firstReadyAfter (players g) (dealerNum g) sb /\
     firstReadyAfter (players g) sb bb /\
     firstReadyAfter (players g) bb utg).
Proof.
  intros Hfit. split; [|split]; intros Hrc; unfold updateBlindNums.
  - destruct (Z.ltb_spec (readyCount g) 2); [reflexivity | lia].
  - destruct (Z.ltb_spec (readyCount g) 2); [lia|].
    destruct (Z.eqb_spec (readyCount g) 2); [|lia].
    destruct (readyAfter_spec (players g) Hfit (dealerNum g)) as [bb [Hbb Hspec]];
      [apply readyCount_pos; lia|].
    exists bb. cbn [players set_sbNum set_utgNum dealerNum].
    rewrite Hbb. split; [reflexivity | exact Hspec].
  - destruct (Z.ltb_spec (readyCount g) 2); [lia|].
    destruct (Z.eqb_spec (readyCount g) 2); [lia|].
    assert (Hr : exists (r : nat) (p : Player),
               players g !! r = Some p /\ Ready p = true)
      by (apply readyCount_pos; lia).
    destruct (readyAfter_spec (players g) Hfit (dealerNum g) Hr) as [sb [Hsb Hs1]].
    destruct (readyAfter_spec (players g) Hfit sb Hr) as [bb [Hbb Hs2]].
    destruct (readyAfter_spec (players g) Hfit bb Hr) as [utg [Hutg Hs3]].
    exists sb, bb, utg. rewrite Hsb.
    cbv beta zeta. cbn [obind players set_sbNum set_bbNum sbNum bbNum].
    rewrite Hbb. cbn [obind players set_sbNum set_bbNum sbNum bbNum].
    rewrite Hutg. split; [reflexivity|]. auto.
Qed.

(** C8 on five seats with the button on seat 3 and seats 0, 2 and 4
    ready: small blind on 4, big blind on 0, UTG on 2. *)
Lemma updateBlindNums_policy_witness :
  len (players threeReady) <= wB /\
  2 < readyCount threeReady /\
  exists sb bb utg : Z,
    updateBlindNums threeReady =
    Ok (set_utgNum (set_bbNum (set_sbNum threeReady sb) bb) utg, None) /\
    firstReadyAfter (players threeReady) (dealerNum threeReady) sb /\
    firstReadyAfter (players threeReady) sb bb /\
    firstReadyAfter (players threeReady) bb utg.
Proof.
  assert (Hfit : len (players threeReady) <= wB) by (vm_compute; discriminate).
  assert (Hrc : 2 < readyCount threeReady) by reflexivity.
  split; [exact Hfit|]. split; [exact Hrc|].
  exact (proj2 (proj2 (updateBlindNums_policy threeReady Hfit)) Hrc).
Defined.

Example updateBlindNums_threeReady :
  updateBlindNums threeReady =
  Ok (set_utgNum (set_bbNum (set_sbNum threeReady 4) 0) 2, None).
Proof. reflexivity. Qed.

(** ** Snapshots and restore ([views.go], lines 51-111 and 201-205) *)

Lemma copyPots_id (l : list Pot) : copyPots l = l.
Proof.
  unfold copyPots. induction l as [|q l IH]; [reflexivity|].
  cbn [fmap list_fmap]. cbn [fmap list_fmap] in IH. rewrite IH.
  destruct q; reflexivity.
Qed.

Lemma getStage_range (g : Game) : 0 <= getStage g < 8.
Proof.
  unfold getStage. change 7 with (Z.ones 3). rewrite Z.land_ones by lia.
  apply Z.mod_pos_bound. reflexivity.
Qed.

(** What restoring and taking the omniscient snapshot does to any
    snapshot: every field comes back as it was, except the stage and the
    betting flag, which go through the status word, and the ready count,
    which is counted again from the players. *)
Lemma omniview_of_restored (g : Game) (v : GameView) :
  GenerateOmniView (FillFromView g v) =
  mkView (DealerNum v) (ActionNum v) (UTGNum v) (SBNum v) (BBNum v)
    (CalledNum v) (CommunityCards v)
    (getStage (setStageAndBetting g (Stage v) (Betting v)))
    (getBetting (setStageAndBetting g (Stage v) (Betting v)))
    (Config v) (Players v) (Deck v) (Pots v) (MinRaise v)
    (countIf Ready (Players v)).
Proof.
  unfold GenerateOmniView, copyToView, countIf.
  assert (Hr : readyCount (FillFromView g v) =
               Z.of_nat (length (List.filter Ready (Players v)))).
  { unfold readyCount. rewrite readyCount_filter. reflexivity. }
  rewrite Hr.
  cbn [FillFromView dealerNum actionNum utgNum sbNum bbNum calledNum
       communityCards config players deck pots minRaise set_calledNum set_rand
       set_minRaise set_pots set_deck set_players set_config].
  rewrite !copyPots_id, !app_nil_l.
  destruct v as [? ? ? ? ? ? ? ? b ? ? ? ? ? ?]; destruct b; reflexivity.
Qed.

(** C9, as amended. For every snapshot whose stage fits the three bits of
    the status word (the declared stages do) and whose ready count is the
    number of ready players it lists, restoring a table from it and taking
    the omniscient snapshot of that table gives the snapshot back, field
    for field (slices compared as sequences); the random source of the
    restored table is the fresh one made from the seed of the snapshot's
    configuration. *)
Theorem restore_then_omniview (g : Game) (v : GameView) :
  0 <= Stage v < 8 ->
  ReadyCount v = countIf Ready (Players v) ->
  GenerateOmniView (FillFromView g v) = v /\
  rand (FillFromView g v) = newRand (Seed (Config v)).
Proof.
  intros Hstage Hcount. split; [|reflexivity].
  rewrite omniview_of_restored.
  rewrite (getStage_setStageAndBetting g (Stage v) (Betting v) Hstage).
  rewrite (getBetting_setStageAndBetting g (Stage v) (Betting v) Hstage).
  rewrite <- Hcount. destruct v; reflexivity.
Qed.

(** C9 on a snapshot of a hand on the flop, restored into a fresh table. *)
Lemma restore_then_omniview_witness :
  (0 <= Stage flopView < 8 /\
   ReadyCount flopView = countIf Ready (Players flopView)) /\
  GenerateOmniView (FillFromView NewGame flopView) = flopView /\
  rand (FillFromView NewGame flopView) = newRand (Seed (Config flopView)).
Proof.
  assert (Hs : 0 <= Stage flopView < 8) by (simpl; lia).
  assert (Hc : ReadyCount flopView = countIf Ready (Players flopView))
    by reflexivity.
  split; [split; assumption|].
  exact (restore_then_omniview NewGame flopView Hs Hc).
Defined.

(** C9, the claim as stated fails on snapshots that no table produces: a
    ready count that disagrees with the listed players is recomputed, and
    a stage outside the three bits of the status word is truncated. *)
Lemma restore_then_omniview_not_for_every_view :
  ReadyCount (GenerateOmniView (FillFromView NewGame staleCountView)) = 0 /\
  ReadyCount staleCountView = 1 /\
  Stage (GenerateOmniView (FillFromView NewGame wideStageView)) = 1 /\
  Stage wideStageView = 9.
Proof. repeat split. Qed.

(** X28. Snapshots taken from a table always qualify, so that snapshot,
    restore, snapshot is the same as snapshot. *)
Corollary omniview_restore_idempotent (g g0 : Game) :
  GenerateOmniView (FillFromView g (GenerateOmniView g0)) = GenerateOmniView g0.
Proof.
  rewrite omniview_of_restored. unfold GenerateOmniView, copyToView.
  cbn [DealerNum ActionNum UTGNum SBNum BBNum CalledNum CommunityCards Stage
       Betting Config Players Deck Pots MinRaise].
  rewrite (getStage_setStageAndBetting g _ _ (getStage_range g0)).
  rewrite (getBetting_setStageAndBetting g _ _ (getStage_range g0)).
  rewrite !copyPots_id, !app_nil_l. f_equal.
  unfold countIf, readyCount. rewrite readyCount_filter. lia.
Qed.

(** ** River settlement on sample tables *)

(** Runs the engine on a closed table and reads the result off. *)
Ltac run_table :=
  split; [vm_compute; reflexivity | repeat split; reflexivity].

(** C1. A river showdown with everyone called: seat 0 folded after
    putting in 10, seats 1 and 2 are in for 20 each. The 50 chips
    wagered become a single pot of 40; the folded seat's 10 are in no
    pot. *)
Theorem showdown_drops_folded_chips :
  getStage foldedChipsTable = River /\
  inSeats (players foldedChipsTable) = [1; 2] /\
  everyoneCalled allIn foldedChipsTable = true /\
  sumTotalBet (players foldedChipsTable) = 50 /\
  exists g',
    updateRoundInfo allIn returnChips sampleRanking foldedChipsTable = Ok g' /\
    Amt <$> pots g' = [40] /\
    Stack <$> players g' = [90; 120; 80].
Proof. repeat (split; [reflexivity|]). eexists. run_table. Qed.

(** C4. A river showdown: seat 0, all-in for 50, wins the side pot of
    150; its stack is then no longer zero, so the loop building the final
    pot takes it for a seat that is not all-in, and it also wins the 100
    chips that only seats 1 and 2 put in above its all-in. The final pot
    records no eligible seat at all. *)
Theorem final_pot_paid_to_all_in_seat :
  getStage allInWinnerTable = River /\
  allInSeats allIn (players allInWinnerTable) = [0] /\
  exists g',
    updateRoundInfo allIn returnChips sampleRanking allInWinnerTable = Ok g' /\
    pots g' = [mkPot 50 150 [0; 1; 2] [0] [7; 7; 1; 2; 3] 7;
               mkPot 0 100 [] [0] [7; 7; 1; 2; 3] 7] /\
    Stack <$> players g' = [250; 10; 10].
Proof. repeat (split; [reflexivity|]). eexists. run_table. Qed.

(** C5. Seat 0 is the only seat in the hand that is not all-in and has
    60 chips in above the all-in seat. Both [topBettor1] and [topBettor2]
    start at seat 0 and no seat out-bets it, so the amount returned is
    [TotalBet(0) - TotalBet(0) = 0]: the table's players are unchanged. *)
Theorem overbet_of_seat_0_not_returned :
  inSeats (players overbetTable) = [0; 1] /\
  allInSeats allIn (players overbetTable) = [1] /\
  everyoneCalled allIn overbetTable = true /\
  topBettors overbetTable [0; 1] = Ok (0, 0) /\
  exists g',
    updateRoundInfo allIn returnChips sampleRanking overbetTable = Ok g' /\
    players g' = players overbetTable /\
    getBetting g' = false.
Proof. repeat (split; [reflexivity|]). eexists. run_table. Qed.

(** With the same two players seated the other way round the 60 chips
    are returned. *)
Example overbet_of_seat_1_returned :
  exists g',
    updateRoundInfo allIn returnChips sampleRanking overbetTableMirrored = Ok g' /\
    (fun p => (Stack p, TotalBet p)) <$> players g' = [(0, 40); (110, 40)].
Proof. eexists. run_table. Qed.

(** ** Side-pot carving (lines 291-316) *)

Lemma insertBy_perm (key : Z -> Z) (x : Z) (l : list Z) :
  insertBy key x l ≡ₚ x :: l.
Proof.
  induction l as [|y l IH]; simpl; [reflexivity|].
  destruct (key y <? key x); [|reflexivity].
  rewrite IH. apply Permutation_swap.
Qed.

Lemma sortSlice_perm (key : Z -> Z) (l : list Z) : sortSlice key l ≡ₚ l.
Proof.
  induction l as [|x l IH]; simpl; [reflexivity|].
  rewrite insertBy_perm. rewrite IH. reflexivity.
Qed.

Lemma insertBy_ascending (key : Z -> Z) (x : Z) (l : list Z) (m : Z) :
  m <= key x -> ascendingFrom m (key <$> l) ->
  ascendingFrom m (key <$> insertBy key x l).
Proof.
  revert m. induction l as [|y l IH]; intros m Hm Hl; simpl.
  - auto.
  - destruct Hl as [Hy Hl]. destruct (Z.ltb_spec (key y) (key x)) as [Hlt|Hge].
    + simpl. split; [exact Hy|]. apply IH; [lia | exact Hl].
    + simpl. repeat split; [exact Hm | lia | exact Hl].
Qed.

Lemma sortSlice_ascending (key : Z -> Z) (l : list Z) (m : Z) :
  (forall x, m <= key x) -> ascendingFrom m (key <$> sortSlice key l).
Proof.
  intros Hm. induction l as [|x l IH]; simpl; [exact I|].
  apply insertBy_ascending; [apply Hm | exact IH].
Qed.

Lemma ascendingFrom_lookup (ls : list Z) :
  forall (L : Z) (j k : nat) (a b : Z),
    ascendingFrom L ls -> (j <= k)%nat ->
    ls !! j = Some a -> ls !! k = Some b -> L <= a /\ a <= b.
Proof.
  induction ls as [|l ls IH]; intros L j k a b Hasc Hjk Ha Hb; [discriminate|].
  destruct Hasc as [HL Hasc]. destruct j as [|j].
  - simpl in Ha. inversion Ha; subst a. split; [exact HL|].
    destruct k as [|k]; [simpl in Hb; inversion Hb; lia|].
    simpl in Hb. destruct ls as [|l' ls']; [discriminate|].
    destruct (IH l O k l' b Hasc ltac:(lia) eq_refl Hb) as [H1 H2]. lia.
  - destruct k as [|k]; [lia|]. simpl in Ha, Hb.
    destruct (IH l j k a b Hasc ltac:(lia) Ha Hb) as [H1 H2]. lia.
Qed.

Lemma totalBetOf_nonneg (ps : list Player) (i : Z) :
  Forall (fun p => is_uint (TotalBet p)) ps -> 0 <= totalBetOf ps i.
Proof.
  intros Hfit. unfold totalBetOf.
  destruct (ps !! Z.to_nat i) as [p|] eqn:E; [|lia].
  apply (Forall_lookup_1 _ _ _ _ Hfit) in E. destruct E. lia.
Qed.

Lemma deduct_0 (ps : list Player) :
  Forall (fun p => is_uint (TotalBet p)) ps -> deduct 0 <$> ps = ps.
Proof.
  intros Hfit. induction Hfit as [|p ps Hp Hps IH]; [reflexivity|].
  cbn [fmap list_fmap]. cbn [fmap] in IH. rewrite IH. f_equal.
  unfold deduct. destruct Hp as [Hp _]. rewrite Z.sub_0_r, Z.max_r by lia.
  destruct p; reflexivity.
Qed.

(** One pass of the inner loop at ceiling [L' - L] over players that have
    already given up to level [L]: every player is left with what it has
    above [L'], and the seats entered in the pot are those of
    [eligibleAt]. *)
Lemma carveRange_closed (L L' : Z) (ps : list Player) :
  Forall (fun p => is_uint (TotalBet p)) ps -> 0 <= L <= L' ->
  forall (k : nat) (q : Pot),
    TopShare q = L' - L -> 0 <= Amt q < wB ->
    carveRange (Z.of_nat k) (deduct L <$> ps) q =
    (mkPot (L' - L) ((Amt q + sumContribution L L' ps) mod wB)
       (EligblePlayerNums q ++ eligibleAt k ps L L')
       (WinningPlayerNums q) (WinningHand q) (WinningScore q),
     deduct L' <$> ps).
Proof.
  intros Hfit HL. induction Hfit as [|p ps Hp Hps IH]; intros k q Hq Hamt.
  - simpl. unfold eligibleAt. simpl.
    rewrite app_nil_r, Z.add_0_r, Z.mod_small by exact Hamt.
    rewrite <- Hq. destruct q; reflexivity.
  - cbn [fmap list_fmap carveRange].
    change (list_fmap Player Player (deduct L) ps) with (deduct L <$> ps).
    replace (Z.of_nat k + 1) with (Z.of_nat (S k)) by lia.
    unfold eligibleAt. rewrite indexedFrom_cons. cbn [List.filter snd].
    fold (eligibleAt (S k) ps L L').
    cbn [sumContribution foldr]. fold (sumContribution L L' ps).
    assert (Htb : TotalBet (deduct L p) = Z.max 0 (TotalBet p - L)) by reflexivity.
    assert (Hin : In (deduct L p) = In p) by reflexivity.
    assert (Hu : forall a b, 0 <= uadd a b < wB)
      by (intros a b; unfold uadd; apply Z.mod_pos_bound; reflexivity).
    rewrite Htb, Hin, Hq. destruct Hp as [Hp0 Hp1]. unfold wB in Hp1.
    destruct (Z.geb_spec (Z.max 0 (TotalBet p - L)) (L' - L)) as [Hge|Hlt].
    + rewrite andb_true_r.
      set (q1 := if In p
                 then setEligble q (EligblePlayerNums q ++ [Z.of_nat k]) else q).
      assert (Hq1 : TopShare q1 = L' - L) by (unfold q1; destruct (In p); exact Hq).
      assert (Hc : contribution L L' p = L' - L) by (unfold contribution; lia).
      rewrite Hq1.
      rewrite (IH (S k) (setAmt q1 (uadd (Amt q1) (L' - L))) Hq1 (Hu _ _)).
      rewrite Hc. f_equal.
      * replace (Amt (setAmt q1 (uadd (Amt q1) (L' - L))))
          with (uadd (Amt q) (L' - L))
          by (unfold q1; destruct (In p); reflexivity).
        unfold uadd at 1. rewrite Zplus_mod_idemp_l, Z.add_assoc.
        unfold q1. destruct (In p); cbn [fmap list_fmap fst]; cbn;
          rewrite <- ?app_assoc; reflexivity.
      * cbn [fmap list_fmap]. f_equal. unfold deduct at 2. unfold deduct at 1.
        cbn. f_equal. unfold usub, wB. rewrite Z.mod_small by lia. lia.
    + rewrite andb_false_r.
      assert (Hc : contribution L L' p = Z.max 0 (TotalBet p - L))
        by (unfold contribution; lia).
      rewrite (IH (S k) (setAmt q (uadd (Amt q) (Z.max 0 (TotalBet p - L)))) Hq
                 (Hu _ _)).
      rewrite Hc. f_equal.
      * cbn [Amt setAmt EligblePlayerNums WinningPlayerNums WinningHand
             WinningScore].
        unfold uadd at 1. rewrite Zplus_mod_idemp_l, Z.add_assoc. reflexivity.
      * cbn [fmap list_fmap]. f_equal. unfold deduct at 2. unfold deduct at 1.
        cbn. f_equal. lia.
Qed.

(** The whole carving loop over seats taken in ascending order of
    [TotalBet]: one pot per seat, whose ceiling is the step from the
    previous level and which holds what every player has between the two
    levels; the players are left with what they have above the last
    level. *)
Lemma carve_closed (ps0 : list Player) :
  Forall (fun p => is_uint (TotalBet p)) ps0 ->
  forall (order : list Z) (L : Z) (carved : list Pot)
         (res : list Pot * list Player),
    0 <= L ->
    ascendingFrom L (totalBetOf ps0 <$> order) ->
    foldM carveStep order (carved, deduct L <$> ps0) = Ok res ->
    exists new : list Pot,
      res = (carved ++ new,
             deduct (lastLevel L (totalBetOf ps0 <$> order)) <$> ps0) /\
      TopShare <$> new = increments L (totalBetOf ps0 <$> order) /\
      Amt <$> new = potAmounts ps0 L (totalBetOf ps0 <$> order) /\
      EligblePlayerNums <$> new = eligibleLists ps0 L (totalBetOf ps0 <$> order).
Proof.
  intros Hfit order. induction order as [|ndx order IH];
    intros L carved res HL Hasc Hrun.
  - simpl in Hrun. inversion Hrun; subst res. exists [].
    rewrite app_nil_r. auto.
  - cbn [foldM] in Hrun. apply obind_Ok in Hrun.
    destruct Hrun as [st1 [Hstep Hrest]].
    cbn [fmap list_fmap ascendingFrom] in Hasc. destruct Hasc as [HLL Hasc].
    unfold carveStep in Hstep. apply obind_Ok in Hstep.
    destruct Hstep as [p [Hp Hstep]].
    apply at_Ok in Hp. destruct Hp as [Hndx Hp].
    rewrite list_lookup_fmap in Hp.
    destruct (ps0 !! Z.to_nat ndx) as [p0|] eqn:Ep0; [|discriminate].
    simpl in Hp. inversion Hp; subst p. clear Hp.
    assert (Htb : totalBetOf ps0 ndx = TotalBet p0)
      by (unfold totalBetOf; rewrite Ep0; reflexivity).
    rewrite Htb in HLL.
    assert (Hrem : TotalBet (deduct L p0) = TotalBet p0 - L)
      by (unfold deduct; cbn; lia).
    rewrite Hrem in Hstep.
    pose proof (carveRange_closed L (TotalBet p0) ps0 Hfit (conj HL HLL) 0
                  (setTopShare emptyPot (TotalBet p0 - L)) eq_refl
                  ltac:(cbn; unfold wB; lia)) as Ha.
    change (Z.of_nat 0) with 0 in Ha. rewrite Ha in Hstep.
    inversion Hstep; subst st1. clear Hstep.
    destruct (IH (TotalBet p0) _ res ltac:(lia) ltac:(rewrite <- Htb; exact Hasc) Hrest)
      as [new [Hres [Htop [Hamt Hel]]]].
    eexists (_ :: new). split; [|split; [|split]].
    + rewrite Hres, <- app_assoc. cbn [fmap list_fmap lastLevel].
      rewrite Htb. reflexivity.
    + cbn [fmap list_fmap increments TopShare]. rewrite Htb. f_equal.
      exact Htop.
    + cbn [fmap list_fmap potAmounts Amt emptyPot setTopShare]. rewrite Htb.
      f_equal. exact Hamt.
    + cbn [fmap list_fmap eligibleLists EligblePlayerNums emptyPot setTopShare].
      rewrite Htb. f_equal. exact Hel.
Qed.

Lemma levelBefore_cons (L l : Z) (ls : list Z) (k : nat) :
  (k < length ls)%nat ->
  levelBefore L (l :: ls) (S k) = levelBefore l ls k.
Proof.
  intros Hk. destruct k as [|j]; [reflexivity|].
  destruct (lookup_lt_is_Some_2 ls j ltac:(lia)) as [x Hx].
  unfold levelBefore. change ((l :: ls) !! S j) with (ls !! j).
  rewrite Hx. reflexivity.
Qed.

Lemma carved_at (ps : list Player) (ls : list Z) :
  forall (L : Z) (k : nat) (Lk : Z),
    ascendingFrom L ls -> ls !! k = Some Lk ->
    L <= levelBefore L ls k <= Lk /\
    increments L ls !! k = Some (Lk - levelBefore L ls k) /\
    potAmounts ps L ls !! k =
      Some (sumContribution (levelBefore L ls k) Lk ps mod wB) /\
    eligibleLists ps L ls !! k = Some (eligibleAt 0 ps (levelBefore L ls k) Lk).
Proof.
  induction ls as [|l ls IH]; intros L k Lk Hasc Hk; [discriminate|].
  destruct Hasc as [HL Hasc]. destruct k as [|k].
  - simpl in Hk. inversion Hk; subst l. simpl. repeat split; lia.
  - simpl in Hk. rewrite levelBefore_cons by (apply lookup_lt_Some in Hk; exact Hk).
    destruct (IH l k Lk Hasc Hk) as [Hr [Hinc [Hamt Hel]]].
    simpl. repeat split; auto; lia.
Qed.

Lemma sumContribution_tie (L : Z) (ps : list Player) :
  sumContribution L L ps = 0.
Proof.
  induction ps as [|p ps IH]; [reflexivity|].
  cbn [sumContribution foldr]. fold (sumContribution L L ps). rewrite IH.
  unfold contribution. lia.
Qed.

Lemma eligibleAt_tie (ps : list Player) (L : Z) :
  eligibleAt 0 ps L L = inSeats ps.
Proof.
  unfold eligibleAt, inSeats. rewrite <- indexed_indexedFrom.
  f_equal. apply List.filter_ext. intros [i p]. simpl.
  destruct (Z.geb_spec (Z.max 0 (TotalBet p - L)) (L - L)); [|lia].
  apply andb_true_r.
Qed.

Lemma eligibleAt_positive (ps : list Player) (Lp L : Z) :
  0 <= Lp < L -> eligibleAt 0 ps Lp L = inAtLeast ps L.
Proof.
  intros H. unfold eligibleAt, inAtLeast. rewrite <- indexed_indexedFrom.
  f_equal. apply List.filter_ext. intros [i p]. simpl. f_equal.
  destruct (Z.geb_spec (Z.max 0 (TotalBet p - Lp)) (L - Lp));
    destruct (Z.geb_spec (TotalBet p) L); try reflexivity; lia.
Qed.

Lemma inAtLeast_eligibleAt (ps : list Player) (Lp Lj Lk : Z) :
  Lp <= Lj <= Lk -> inAtLeast ps Lk ⊆ eligibleAt 0 ps Lp Lj.
Proof.
  intros H x. unfold inAtLeast, eligibleAt.
  change (indexedFrom 0 ps) with (indexed ps). rewrite !list_elem_of_fmap. intros [ip [-> Hip]]. exists ip. split; [reflexivity|].
  apply list_elem_of_In in Hip. apply list_elem_of_In.
  apply filter_In in Hip. apply filter_In. destruct Hip as [Hin Hp].
  split; [exact Hin|]. apply andb_true_iff in Hp. destruct Hp as [Hp1 Hp2].
  rewrite Hp1. simpl. apply Z.geb_le in Hp2. apply Z.geb_le. lia.
Qed.

Lemma carveRange_closed_winners (ps : list Player) :
  forall (i : Z) (q : Pot),
    WinningPlayerNums q = [] -> WinningPlayerNums (carveRange i ps q).1 = [].
Proof.
  induction ps as [|p ps IH]; intros i q Hq; [exact Hq|].
  cbn [carveRange]. destruct (TotalBet p >=? TopShare q).
  - set (q1 := setAmt _ _).
    assert (Hq1 : WinningPlayerNums q1 = [])
      by (unfold q1; destruct (In p); exact Hq).
    specialize (IH (i + 1) q1 Hq1).
    destruct (carveRange (i + 1) ps q1) as [q' ps']. exact IH.
  - set (q1 := setAmt _ _).
    specialize (IH (i + 1) q1 Hq).
    destruct (carveRange (i + 1) ps q1) as [q' ps']. exact IH.
Qed.

(** The pots depend on the order of the seats only through the
    [TotalBet] of each seat taken in turn. *)
Lemma carveRange_players (ps : list Player) :
  forall (i : Z) (q : Pot),
    (carveRange i ps q).2 = carveOff (TopShare q) <$> ps.
Proof.
  induction ps as [|p ps IH]; intros i q; [reflexivity|].
  cbn [carveRange fmap list_fmap]. unfold carveOff at 1.
  destruct (TotalBet p >=? TopShare q).
  - set (q1 := setAmt _ _).
    assert (Ht : TopShare q1 = TopShare q)
      by (unfold q1; destruct (In p); reflexivity).
    specialize (IH (i + 1) q1). destruct (carveRange (i + 1) ps q1) as [q' ps'].
    cbn [snd] in *. rewrite IH, Ht. unfold q1. destruct (In p); reflexivity.
  - set (q1 := setAmt _ _).
    specialize (IH (i + 1) q1). destruct (carveRange (i + 1) ps q1) as [q' ps'].
    cbn [snd] in *. rewrite IH. reflexivity.
Qed.

Lemma sameStake_carveOff (t : Z) (ps : list Player) (a b : Z) :
  sameStake ps a b -> sameStake (carveOff t <$> ps) a b.
Proof.
  intros [pa [pb [Ha [Hb Hab]]]]. apply at_Ok in Ha, Hb.
  exists (carveOff t pa), (carveOff t pb). repeat split.
  - apply at_Ok. rewrite list_lookup_fmap. destruct Ha as [? ->]. auto.
  - apply at_Ok. rewrite list_lookup_fmap. destruct Hb as [? ->]. auto.
  - unfold carveOff. rewrite Hab. destruct (TotalBet pb >=? t); cbn; congruence.
Qed.

Lemma carve_key_only (l1 : list Z) :
  forall (l2 : list Z) (carved : list Pot) (ps : list Player),
    Forall2 (sameStake ps) l1 l2 ->
    foldM carveStep l1 (carved, ps) = foldM carveStep l2 (carved, ps).
Proof.
  induction l1 as [|a l1 IH]; intros l2 carved ps H.
  - inversion H. reflexivity.
  - inversion H as [|? b ? l2' Hab Hrest]; subst. cbn [foldM].
    destruct Hab as [pa [pb [Ha [Hb Hab]]]].
    unfold carveStep at 1 3. rewrite Ha, Hb. cbn [obind]. rewrite Hab.
    pose proof (carveRange_players ps 0 (setTopShare emptyPot (TotalBet pb)))
      as Hps.
    destruct (carveRange 0 ps (setTopShare emptyPot (TotalBet pb))) as [q' ps'].
    cbn [snd TopShare setTopShare] in Hps. cbn [obind]. apply IH. subst ps'.
    eapply Forall2_impl; [exact Hrest|]. intros x y Hxy.
    apply sameStake_carveOff, Hxy.
Qed.

Lemma ascendingFrom_Sorted (L : Z) (ls : list Z) :
  ascendingFrom L ls -> Sorted Z.le ls.
Proof.
  revert L. induction ls as [|l ls IH]; intros L H; [constructor|].
  destruct H as [_ H]. constructor; [apply (IH l H)|].
  destruct ls as [|l' ls']; constructor. destruct H as [H _]. exact H.
Qed.

(** X23. Whatever ascending arrangement of the seats the library sort
    returns, carving gives what it gives on the insertion-sorted one. *)
Lemma carve_any_sort (ps : list Player) (seats order : list Z) (L : Z) :
  Forall (fun ndx => exists p, at_ ps ndx = Ok p) seats ->
  order ≡ₚ seats ->
  ascendingFrom L (totalBetOf ps <$> order) ->
  (forall ndx, L <= totalBetOf ps ndx) ->
  carve ps order = carve ps (sortSlice (totalBetOf ps) seats).
Proof.
  intros Hseats Hperm Hasc HL. unfold carve. apply carve_key_only.
  assert (Hkeys : totalBetOf ps <$> order =
                  totalBetOf ps <$> sortSlice (totalBetOf ps) seats).
  { apply (Sorted_unique Z.le).
    - apply (ascendingFrom_Sorted L), Hasc.
    - apply (ascendingFrom_Sorted L), sortSlice_ascending, HL.
    - apply fmap_Permutation. rewrite Hperm, sortSlice_perm. reflexivity. }
  assert (Hin : forall l, l ≡ₚ seats ->
                          Forall (fun ndx => exists p, at_ ps ndx = Ok p) l).
  { intros l Hl. rewrite Hl. exact Hseats. }
  pose proof (Hin order Hperm) as H1.
  pose proof (Hin _ (sortSlice_perm (totalBetOf ps) seats)) as H2.
  revert Hkeys H1 H2. generalize (sortSlice (totalBetOf ps) seats) as l2.
  clear Hperm Hasc Hin. induction order as [|a l1 IH]; intros [|b l2] Hkeys H1 H2;
    try discriminate; constructor.
  - inversion H1 as [|? ? [pa Ha] _]; inversion H2 as [|? ? [pb Hb] _]; subst.
    exists pa, pb. repeat split; auto.
    cbn [fmap list_fmap] in Hkeys. injection Hkeys as Hk _.
    unfold totalBetOf in Hk. apply at_Ok in Ha, Hb.
    destruct Ha as [_ Ha]. destruct Hb as [_ Hb]. rewrite Ha, Hb in Hk. exact Hk.
  - inversion H1; inversion H2; subst. apply IH; auto.
    cbn [fmap list_fmap] in Hkeys. injection Hkeys as _ Hk. exact Hk.
Qed.

(** Carving moves chips from the players' [TotalBet] into the pots and
    loses none, whatever the order of the seats: the chips in the pots
    plus the chips left with the players stay the same, in [uint]
    arithmetic. *)
Lemma carveRange_conserves (ps : list Player) :
  forall (i : Z) (q : Pot),
    (Amt (carveRange i ps q).1 + sumTotalBet (carveRange i ps q).2) mod wB =
    (Amt q + sumTotalBet ps) mod wB.
Proof.
  induction ps as [|p ps IH]; intros i q; [reflexivity|].
  cbn [carveRange]. destruct (TotalBet p >=? TopShare q).
  - set (q0 := if In p then setEligble q (EligblePlayerNums q ++ [i]) else q).
    assert (Htop : TopShare q0 = TopShare q) by (unfold q0; destruct (In p); reflexivity).
    assert (Hamt : Amt q0 = Amt q) by (unfold q0; destruct (In p); reflexivity).
    specialize (IH (i + 1) (setAmt q0 (uadd (Amt q0) (TopShare q0)))).
    destruct (carveRange (i + 1) ps (setAmt q0 (uadd (Amt q0) (TopShare q0))))
      as [q' ps'].
    cbn [fst snd] in *. cbn [sumTotalBet foldr]. fold (sumTotalBet ps').
    fold (sumTotalBet ps). cbn [TotalBet setTotalBet TopShare setAmt Amt] in *.
    rewrite Htop, Hamt in *.
    replace (Amt q' + (usub (TotalBet p) (TopShare q) + sumTotalBet ps'))
      with ((Amt q' + sumTotalBet ps') + usub (TotalBet p) (TopShare q)) by lia.
    rewrite <- Zplus_mod_idemp_l, IH, Zplus_mod_idemp_l.
    unfold uadd, usub. rewrite Zplus_mod_idemp_r.
    replace ((Amt q + TopShare q) mod wB + sumTotalBet ps +
             (TotalBet p - TopShare q))
      with ((Amt q + TopShare q) mod wB +
            (sumTotalBet ps + (TotalBet p - TopShare q))) by lia.
    rewrite Zplus_mod_idemp_l. f_equal. lia.
  - specialize (IH (i + 1) (setAmt q (uadd (Amt q) (TotalBet p)))).
    destruct (carveRange (i + 1) ps (setAmt q (uadd (Amt q) (TotalBet p))))
      as [q' ps'].
    cbn [fst snd] in *. cbn [sumTotalBet foldr]. fold (sumTotalBet ps').
    fold (sumTotalBet ps). cbn [TotalBet setTotalBet setAmt Amt] in *.
    rewrite Z.add_0_l, IH. unfold uadd.
    rewrite Zplus_mod_idemp_l. f_equal. lia.
Qed.

Lemma sumAmt_app (qs rs : list Pot) : sumAmt (qs ++ rs) = sumAmt qs + sumAmt rs.
Proof. induction qs as [|q qs IH]; simpl; [reflexivity|]. rewrite IH. lia. Qed.

(** X22. Carving the side pots loses no chips: the chips in the pots plus
    the chips left in the players' [TotalBet] are, in [uint] arithmetic,
    what they were before the loop over the all-in seats. *)
Lemma carve_conserves (order : list Z) :
  forall (carved : list Pot) (ps : list Player) (res : list Pot * list Player),
    foldM carveStep order (carved, ps) = Ok res ->
    (sumAmt res.1 + sumTotalBet res.2) mod wB =
    (sumAmt carved + sumTotalBet ps) mod wB.
Proof.
  induction order as [|ndx order IH]; intros carved ps res H.
  - simpl in H. inversion H. reflexivity.
  - cbn [foldM] in H. apply obind_Ok in H. destruct H as [[pots1 ps1] [Hstep Hrest]].
    rewrite (IH _ _ _ Hrest). clear IH Hrest.
    unfold carveStep in Hstep. apply obind_Ok in Hstep.
    destruct Hstep as [p [_ Hstep]].
    pose proof (carveRange_conserves ps 0 (setTopShare emptyPot (TotalBet p)))
      as Hcons.
    destruct (carveRange 0 ps (setTopShare emptyPot (TotalBet p))) as [q' ps'].
    inversion Hstep; subst pots1 ps1. cbn [fst snd] in *.
    rewrite sumAmt_app. cbn [sumAmt foldr].
    replace (sumAmt carved + (Amt q' + 0) + sumTotalBet ps')
      with (sumAmt carved + (Amt q' + sumTotalBet ps')) by lia.
    rewrite <- Zplus_mod_idemp_r, Hcons, Zplus_mod_idemp_r. cbn. f_equal.
Qed.

(** ** Showdown and pay-out of the side pots (lines 318-346) *)

Section SettleFacts.

Variable allIn : Player -> bool.
Variable BestFiveOfSeven :
  Card -> Card -> Card -> Card -> Card -> Card -> Card -> list Card * Z.

Lemma considerHand_shape (q : Pot) (num : Z) (hs : list Card * Z) :
  TopShare (considerHand q num hs) = TopShare q /\
  Amt (considerHand q num hs) = Amt q /\
  EligblePlayerNums (considerHand q num hs) = EligblePlayerNums q.
Proof.
  unfold considerHand. destruct hs as [hand score].
  destruct (score <? WinningScore q); [repeat split|].
  destruct (score =? WinningScore q); repeat split.
Qed.

Lemma showdown_fold_shape (g : Game) (ps : list Player) (l : list Z) :
  forall q q' : Pot,
    foldM (showdownStep BestFiveOfSeven g ps) l q = Ok q' ->
    TopShare q' = TopShare q /\ Amt q' = Amt q /\
    EligblePlayerNums q' = EligblePlayerNums q.
Proof.
  induction l as [|num l IH]; intros q q' H.
  - simpl in H. inversion H. auto.
  - cbn [foldM] in H. apply obind_Ok in H. destruct H as [q1 [Hstep Hrest]].
    unfold showdownStep in Hstep.
    apply obind_Ok in Hstep. destruct Hstep as [p [_ Hstep]].
    apply obind_Ok in Hstep. destruct Hstep as [hs [_ Hstep]].
    inversion Hstep; subst q1.
    destruct (IH _ _ Hrest) as [H1 [H2 H3]].
    destruct (considerHand_shape q num hs) as [H4 [H5 H6]].
    rewrite H1, H2, H3. auto.
Qed.

Lemma settlePot_fold_shape (g : Game) (qs : list Pot) :
  forall (settled : list Pot) (ps : list Player) (res : list Pot * list Player),
    foldM (settlePot BestFiveOfSeven g) qs (settled, ps) = Ok res ->
    TopShare <$> res.1 = (TopShare <$> settled) ++ (TopShare <$> qs) /\
    Amt <$> res.1 = (Amt <$> settled) ++ (Amt <$> qs) /\
    EligblePlayerNums <$> res.1 =
      (EligblePlayerNums <$> settled) ++ (EligblePlayerNums <$> qs).
Proof.
  induction qs as [|q qs IH]; intros settled ps res H.
  - simpl in H. inversion H. simpl. rewrite !app_nil_r. auto.
  - cbn [foldM] in H. apply obind_Ok in H. destruct H as [st1 [Hstep Hrest]].
    unfold settlePot in Hstep.
    apply obind_Ok in Hstep. destruct Hstep as [q1 [Hshow Hstep]].
    apply obind_Ok in Hstep. destruct Hstep as [ps1 [_ Hstep]].
    inversion Hstep; subst st1.
    destruct (showdown_fold_shape _ _ _ _ _ Hshow) as [H1 [H2 H3]].
    destruct (IH _ _ _ Hrest) as [H4 [H5 H6]].
    rewrite H4, H5, H6, !fmap_app. cbn [fmap list_fmap].
    rewrite H1, H2, H3, <- !app_assoc. cbn. auto.
Qed.

Lemma filter_none {A : Type} (f : A -> bool) (l : list A) :
  (forall x, x ∈ l -> f x = false) -> List.filter f l = [].
Proof.
  induction l as [|x l IH]; intros H; [reflexivity|]. simpl.
  rewrite (H x ltac:(left)). apply IH. intros y Hy. apply H. right. exact Hy.
Qed.

(** The show-down of one pot: the winners are the seats considered
    whose score equals the winning score, which no seat considered
    beats. *)
Lemma showdown_fold_winners (g : Game) (ps : list Player) (E : list Z) :
  forall (seen : list Z) (q q' : Pot),
    foldM (showdownStep BestFiveOfSeven g ps) E q = Ok q' ->
    (forall n, n ∈ seen -> WinningScore q <= handScore BestFiveOfSeven g ps n) ->
    WinningPlayerNums q =
      List.filter (fun n => handScore BestFiveOfSeven g ps n =? WinningScore q)
        seen ->
    (forall n, n ∈ seen ++ E ->
               WinningScore q' <= handScore BestFiveOfSeven g ps n) /\
    WinningPlayerNums q' =
      List.filter (fun n => handScore BestFiveOfSeven g ps n =? WinningScore q')
        (seen ++ E) /\
    (WinningScore q' = WinningScore q \/
     exists n, n ∈ E /\ WinningScore q' = handScore BestFiveOfSeven g ps n).
Proof.
  induction E as [|num E IH]; intros seen q q' H Hle Hwin.
  - simpl in H. inversion H; subst q'. rewrite app_nil_r. auto.
  - cbn [foldM] in H. apply obind_Ok in H. destruct H as [q1 [Hstep Hrest]].
    unfold showdownStep in Hstep.
    apply obind_Ok in Hstep. destruct Hstep as [p [Hp Hstep]].
    apply obind_Ok in Hstep. destruct Hstep as [hs [Hhs Hstep]].
    assert (Hsc : handScore BestFiveOfSeven g ps num = hs.2)
      by (unfold handScore; rewrite Hp, Hhs; reflexivity).
    inversion Hstep; subst q1. clear Hstep. destruct hs as [hand score].
    cbn [snd] in Hsc. unfold considerHand in Hrest.
    replace (seen ++ num :: E) with ((seen ++ [num]) ++ E)
      by (rewrite <- app_assoc; reflexivity).
    destruct (Z.ltb_spec score (WinningScore q)) as [Hlt|Hge].
    + destruct (IH (seen ++ [num]) _ q' Hrest) as [H1 [H2 H3]].
      * cbn. intros n Hn. apply elem_of_app in Hn. destruct Hn as [Hn|Hn].
        -- specialize (Hle n Hn). lia.
        -- apply list_elem_of_singleton in Hn. subst n. lia.
      * cbn. rewrite List.filter_app. cbn [List.filter]. rewrite Hsc, Z.eqb_refl.
        rewrite filter_none; [reflexivity|].
        intros n Hn. specialize (Hle n Hn). apply Z.eqb_neq. lia.
      * split; [exact H1|]. split; [exact H2|]. right.
        destruct H3 as [H3|[n [Hn H3]]].
        -- exists num. split; [left|]. cbn in H3. lia.
        -- exists n. split; [right; exact Hn | exact H3].
    + destruct (Z.eqb_spec score (WinningScore q)) as [Heq|Hne].
      * destruct (IH (seen ++ [num]) _ q' Hrest) as [H1 [H2 H3]].
        -- cbn. intros n Hn. apply elem_of_app in Hn. destruct Hn as [Hn|Hn].
           ++ apply Hle, Hn.
           ++ apply list_elem_of_singleton in Hn. subst n. lia.
        -- cbn. rewrite List.filter_app. cbn [List.filter].
           rewrite Hsc, Heq, Z.eqb_refl, Hwin. reflexivity.
        -- split; [exact H1|]. split; [exact H2|].
           destruct H3 as [H3|[n [Hn H3]]]; [left; exact H3|].
           right. exists n. split; [right; exact Hn | exact H3].
      * destruct (IH (seen ++ [num]) _ q' Hrest) as [H1 [H2 H3]].
        -- intros n Hn. apply elem_of_app in Hn. destruct Hn as [Hn|Hn].
           ++ apply Hle, Hn.
           ++ apply list_elem_of_singleton in Hn. subst n. lia.
        -- rewrite List.filter_app. cbn [List.filter]. rewrite Hsc.
           destruct (Z.eqb_spec score (WinningScore q)); [contradiction|].
           rewrite app_nil_r. exact Hwin.
        -- split; [exact H1|]. split; [exact H2|].
           destruct H3 as [H3|[n [Hn H3]]]; [left; exact H3|].
           right. exists n. split; [right; exact Hn | exact H3].
Qed.

(** Paying a pot: every winner's stack grows by the integer quotient of
    the amount by the number of winners, in [uint] arithmetic; nobody
    else's changes, and the remainder of the division goes nowhere. *)
Lemma payPot_fold (q : Pot) (l : list Z) :
  NoDup l ->
  forall ps ps' : list Player,
    foldM (payStep q) l ps = Ok ps' ->
    forall (n : nat) (p : Player),
      ps !! n = Some p ->
      ps' !! n =
      Some (if decide (Z.of_nat n ∈ l)
            then setStack p
                   (uadd (Stack p) (Amt q / len (WinningPlayerNums q)))
            else p).
Proof.
  intros Hnd. induction Hnd as [|i l Hi Hnd IH]; intros ps ps' H n p Hn.
  - simpl in H. inversion H; subst ps'. rewrite Hn.
    destruct (decide (Z.of_nat n ∈ [])) as [He|_]; [|reflexivity].
    apply elem_of_nil in He. destruct He.
  - cbn [foldM] in H. apply obind_Ok in H. destruct H as [ps1 [Hstep Hrest]].
    unfold payStep in Hstep.
    apply obind_Ok in Hstep. destruct Hstep as [pi [Hpi Hstep]].
    apply obind_Ok in Hstep. destruct Hstep as [share [Hshare Hstep]].
    inversion Hstep; subst ps1. clear Hstep.
    assert (Hs : share = Amt q / len (WinningPlayerNums q)).
    { unfold udiv in Hshare.
      destruct (len (WinningPlayerNums q) =? 0); [discriminate|].
      inversion Hshare. reflexivity. }
    subst share. apply at_Ok in Hpi. destruct Hpi as [Hi0 Hpi].
    destruct (decide (Z.of_nat n = i)) as [Heq|Hne].
    + subst i. rewrite Nat2Z.id in *. rewrite Hn in Hpi. inversion Hpi; subst pi.
      rewrite (IH _ _ Hrest n _
                 ltac:(apply list_lookup_insert_eq; apply lookup_lt_Some in Hn;
                       exact Hn)).
      destruct (decide (Z.of_nat n ∈ l)); [contradiction|].
      destruct (decide (Z.of_nat n ∈ Z.of_nat n :: l)) as [_|Hno];
        [reflexivity|]. exfalso. apply Hno. left.
    + rewrite (IH _ _ Hrest n p
                 ltac:(rewrite list_lookup_insert_ne by lia; exact Hn)).
      destruct (decide (Z.of_nat n ∈ l)) as [Hin|Hnin];
        destruct (decide (Z.of_nat n ∈ i :: l)) as [Hin'|Hnin'];
        try reflexivity.
      * exfalso. apply Hnin'. right. exact Hin.
      * exfalso. apply elem_of_cons in Hin'. destruct Hin'; contradiction.
Qed.

(** X24. Settling one side pot: its ceiling, amount and eligible seats are
    kept; its winning score is 8000 or the score of an eligible seat, and
    no eligible seat scores below it; its winners are the eligible seats
    with that score; and each winner is paid the quotient of the amount
    by the number of winners. *)
Lemma settlePot_winners (g : Game) (settled : list Pot) (ps : list Player)
    (q : Pot) (res : list Pot * list Player) :
  settlePot BestFiveOfSeven g (settled, ps) q = Ok res ->
  WinningPlayerNums q = [] ->
  exists q' : Pot,
    res.1 = settled ++ [q'] /\
    (TopShare q' = TopShare q /\ Amt q' = Amt q /\
     EligblePlayerNums q' = EligblePlayerNums q) /\
    (forall n, n ∈ EligblePlayerNums q ->
               WinningScore q' <= handScore BestFiveOfSeven g ps n) /\
    (WinningScore q' = 8000 \/
     exists n, n ∈ EligblePlayerNums q /\
               WinningScore q' = handScore BestFiveOfSeven g ps n) /\
    WinningPlayerNums q' =
      List.filter (fun n => handScore BestFiveOfSeven g ps n =? WinningScore q')
        (EligblePlayerNums q) /\
    (NoDup (EligblePlayerNums q) ->
     forall (n : nat) (p : Player),
       ps !! n = Some p ->
       res.2 !! n =
       Some (if decide (Z.of_nat n ∈ WinningPlayerNums q')
             then setStack p
                    (uadd (Stack p) (Amt q / len (WinningPlayerNums q')))
             else p)).
Proof.
  intros H Hw. unfold settlePot in H.
  apply obind_Ok in H. destruct H as [q' [Hshow H]].
  apply obind_Ok in H. destruct H as [ps' [Hpay H]].
  inversion H; subst res. clear H. cbn [fst snd].
  cbn [EligblePlayerNums setWinningScore] in Hshow.
  destruct (showdown_fold_shape _ _ _ _ _ Hshow) as [Ht [Ha He]].
  cbn [TopShare Amt EligblePlayerNums setWinningScore] in Ht, Ha, He.
  destruct (showdown_fold_winners g ps _ [] _ q' Hshow) as [H1 [H2 H3]].
  - intros n Hn. apply elem_of_nil in Hn. destruct Hn.
  - cbn. exact Hw.
  - rewrite app_nil_l in H1, H2. cbn [WinningScore setWinningScore] in H3.
    exists q'. split; [reflexivity|]. split; [auto|]. split; [exact H1|].
    split; [exact H3|]. split; [exact H2|].
    intros Hnd n p Hn. rewrite <- Ha. unfold payPot in Hpay.
    assert (Hndw : NoDup (WinningPlayerNums q'))
      by (rewrite H2; apply NoDup_ListNoDup, List.NoDup_filter,
            NoDup_ListNoDup, Hnd).
    apply (payPot_fold q' (WinningPlayerNums q') Hndw ps ps' Hpay n p Hn).
Qed.

(** The final pot never lists an eligible seat, whoever wins it: the
    loop that builds it fills in the amount and the winners only. *)
Lemma final_fold_eligible (g : Game) (l : list (Z * Player)) :
  forall q q' : Pot,
    foldM (finalStep allIn BestFiveOfSeven g) l q = Ok q' ->
    EligblePlayerNums q' = EligblePlayerNums q.
Proof.
  induction l as [|[i p] l IH]; intros q q' H.
  - simpl in H. inversion H. reflexivity.
  - cbn [foldM] in H. apply obind_Ok in H. destruct H as [q1 [Hstep Hrest]].
    rewrite (IH _ _ Hrest). unfold finalStep in Hstep.
    destruct (In p && negb (allIn p)).
    + apply obind_Ok in Hstep. destruct Hstep as [hs [_ Hstep]].
      inversion Hstep; subst q1.
      destruct (considerHand_shape (setAmt q (uadd (Amt q) (TotalBet p))) i hs)
        as [_ [_ He]].
      rewrite He. reflexivity.
    + inversion Hstep. reflexivity.
Qed.

(** X26. Whenever river settlement returns, the final pot lists no
    eligible seat, whoever wins it: only the side pots have their
    [EligblePlayerNums] filled in. *)
Lemma final_pot_no_eligible (g : Game) (seats : list Z) (st : Settlement) :
  settle allIn BestFiveOfSeven g seats = Ok st ->
  EligblePlayerNums (finalPot st) = [].
Proof.
  intros H. unfold settle in H.
  apply obind_Ok in H. destruct H as [carved [_ H]].
  apply obind_Ok in H. destruct H as [paid [_ H]].
  apply obind_Ok in H. destruct H as [fp [Hfp H]].
  apply obind_Ok in H. destruct H as [ps' [_ H]].
  inversion H; subst st. cbn [finalPot].
  rewrite (final_fold_eligible _ _ _ _ Hfp). reflexivity.
Qed.

(** *** Settlement returns *)

Lemma carveRange_eligible_range (bound : Z) (ps : list Player) :
  forall (i : Z) (q : Pot),
    0 <= i -> i + len ps <= bound ->
    Forall (fun n => 0 <= n < bound) (EligblePlayerNums q) ->
    Forall (fun n => 0 <= n < bound) (EligblePlayerNums (carveRange i ps q).1).
Proof.
  induction ps as [|p ps IH]; intros i q Hi Hb Hq; [exact Hq|].
  assert (Hlen : len (p :: ps) = 1 + len ps) by (unfold len; cbn [length]; lia).
  assert (Hpos : 0 <= len ps) by (unfold len; lia).
  cbn [carveRange]. destruct (TotalBet p >=? TopShare q).
  - set (q1 := setAmt _ _).
    assert (Hq1 : Forall (fun n => 0 <= n < bound) (EligblePlayerNums q1)).
    { unfold q1. destruct (In p); cbn; [|exact Hq].
      apply Forall_app. split; [exact Hq|]. constructor; [lia | constructor]. }
    specialize (IH (i + 1) q1 ltac:(lia) ltac:(lia) Hq1).
    destruct (carveRange (i + 1) ps q1) as [q' ps']. exact IH.
  - set (q1 := setAmt _ _).
    specialize (IH (i + 1) q1 ltac:(lia) ltac:(lia) Hq).
    destruct (carveRange (i + 1) ps q1) as [q' ps']. exact IH.
Qed.

Lemma carve_returns (order : list Z) :
  forall (carved : list Pot) (ps : list Player),
    Forall (fun ndx => 0 <= ndx < len ps) order ->
    Forall (fun q => Forall (fun n => 0 <= n < len ps) (EligblePlayerNums q) /\
                     WinningPlayerNums q = []) carved ->
    exists res,
      foldM carveStep order (carved, ps) = Ok res /\
      length res.2 = length ps /\
      Forall (fun q => Forall (fun n => 0 <= n < len ps) (EligblePlayerNums q) /\
                       WinningPlayerNums q = []) res.1.
Proof.
  induction order as [|ndx order IH]; intros carved ps Hord Hcarved.
  - eexists. split; [reflexivity|]. split; [reflexivity | exact Hcarved].
  - inversion Hord as [|? ? Hndx Hord']; subst. cbn [foldM].
    unfold carveStep at 1. destruct (at_in_range ps ndx Hndx) as [p Hp].
    rewrite Hp. cbn [obind].
    pose proof (carveRange_players ps 0 (setTopShare emptyPot (TotalBet p)))
      as Hps.
    pose proof (carveRange_eligible_range (len ps) ps 0
                  (setTopShare emptyPot (TotalBet p)) ltac:(lia) ltac:(lia)
                  ltac:(constructor)) as Hel.
    pose proof (carveRange_closed_winners ps 0
                  (setTopShare emptyPot (TotalBet p)) eq_refl) as Hwin.
    destruct (carveRange 0 ps (setTopShare emptyPot (TotalBet p))) as [q' ps'].
    cbn [fst snd] in *. cbn [obind].
    assert (Hlen : length ps' = length ps) by (rewrite Hps, length_fmap; reflexivity).
    destruct (IH (carved ++ [q']) ps') as [res [Hres [Hlen' Hall]]].
    + unfold len in *. rewrite Hlen. exact Hord'.
    + unfold len in *. rewrite Hlen. apply Forall_app. split; [exact Hcarved|].
      constructor; [split; [exact Hel | exact Hwin] | constructor].
    + exists res. split; [exact Hres|]. split; [congruence|].
      unfold len in *. rewrite Hlen in Hall. exact Hall.
Qed.

Section Returns.

Variable g : Game.
Hypothesis board_dealt : (5 <= length (communityCards g))%nat.

Lemma rank_returns (c : Card * Card) :
  exists hs, rank BestFiveOfSeven g c = Ok hs.
Proof.
  unfold rank. destruct (communityCards g) as [|c0 [|c1 [|c2 [|c3 [|c4 cc]]]]];
    cbn [length] in board_dealt; try lia.
  eexists. reflexivity.
Qed.

Lemma considerHand_winners (P : Z -> Prop) (q : Pot) (num : Z)
    (hs : list Card * Z) :
  Forall P (WinningPlayerNums q) -> P num ->
  Forall P (WinningPlayerNums (considerHand q num hs)).
Proof.
  intros Hq Hnum. unfold considerHand. destruct hs as [hand score].
  destruct (score <? WinningScore q); [constructor; [exact Hnum | constructor]|].
  destruct (score =? WinningScore q); [|exact Hq].
  cbn. apply Forall_app. split; [exact Hq|].
  constructor; [exact Hnum | constructor].
Qed.

Lemma showdown_returns (ps : list Player) (E : list Z) :
  forall q : Pot,
    Forall (fun n => 0 <= n < len ps) E ->
    Forall (fun n => 0 <= n < len ps) (WinningPlayerNums q) ->
    exists q',
      foldM (showdownStep BestFiveOfSeven g ps) E q = Ok q' /\
      Forall (fun n => 0 <= n < len ps) (WinningPlayerNums q').
Proof.
  induction E as [|num E IH]; intros q HE Hq.
  - eexists. split; [reflexivity | exact Hq].
  - inversion HE as [|? ? Hnum HE']; subst. cbn [foldM].
    unfold showdownStep at 1. destruct (at_in_range ps num Hnum) as [p Hp].
    rewrite Hp. cbn [obind]. destruct (rank_returns (Cards p)) as [hs Hhs].
    rewrite Hhs. cbn [obind]. apply IH; [exact HE'|].
    apply considerHand_winners; assumption.
Qed.

Lemma payPot_returns (q : Pot) (l : list Z) :
  forall ps : list Player,
    Forall (fun n => 0 <= n < len ps) l ->
    l = [] \/ WinningPlayerNums q <> [] ->
    exists ps', foldM (payStep q) l ps = Ok ps' /\ length ps' = length ps.
Proof.
  induction l as [|num l IH]; intros ps Hl Hq.
  - eexists. split; reflexivity.
  - inversion Hl as [|? ? Hnum Hl']; subst. cbn [foldM].
    destruct Hq as [Hq|Hq]; [discriminate|].
    unfold payStep at 1. destruct (at_in_range ps num Hnum) as [p Hp].
    rewrite Hp. cbn [obind]. unfold udiv.
    destruct (Z.eqb_spec (len (WinningPlayerNums q)) 0) as [E|_].
    { destruct (WinningPlayerNums q); [contradiction|].
      unfold len in E. cbn [length] in E. lia. }
    cbn [obind].
    destruct (IH (<[Z.to_nat num := setStack p
                      (uadd (Stack p) (Amt q / len (WinningPlayerNums q)))]> ps))
      as [ps' [Hps' Hlen]].
    + unfold len in *. rewrite length_insert. exact Hl'.
    + right. exact Hq.
    + exists ps'. split; [exact Hps'|]. rewrite Hlen. apply length_insert.
Qed.

Lemma settlePot_returns (qs : list Pot) :
  forall (settled : list Pot) (ps : list Player),
    Forall (fun q => Forall (fun n => 0 <= n < len ps) (EligblePlayerNums q) /\
                     WinningPlayerNums q = []) qs ->
    exists res,
      foldM (settlePot BestFiveOfSeven g) qs (settled, ps) = Ok res /\
      length res.2 = length ps.
Proof.
  induction qs as [|q qs IH]; intros settled ps Hqs.
  - eexists. split; reflexivity.
  - inversion Hqs as [|? ? [Hel Hw] Hqs']; subst. cbn [foldM].
    unfold settlePot at 1.
    destruct (showdown_returns ps (EligblePlayerNums (setWinningScore q 8000))
                (setWinningScore q 8000) Hel
                ltac:(cbn; rewrite Hw; constructor)) as [q' [Hq' Hwin]].
    rewrite Hq'. cbn [obind]. unfold payPot.
    destruct (payPot_returns q' (WinningPlayerNums q') ps Hwin) as [ps' [Hps' Hlen]].
    { destruct (WinningPlayerNums q'); [left; reflexivity | right; discriminate]. }
    rewrite Hps'. cbn [obind].
    destruct (IH (settled ++ [q']) ps') as [res [Hres Hlen']].
    + unfold len in *. rewrite Hlen. exact Hqs'.
    + exists res. split; [exact Hres | congruence].
Qed.

Lemma final_returns (l : list (Z * Player)) (bound : Z) :
  forall q : Pot,
    Forall (fun ip : Z * Player => 0 <= ip.1 < bound) l ->
    Forall (fun n => 0 <= n < bound) (WinningPlayerNums q) ->
    exists q',
      foldM (finalStep allIn BestFiveOfSeven g) l q = Ok q' /\
      Forall (fun n => 0 <= n < bound) (WinningPlayerNums q').
Proof.
  induction l as [|[i p] l IH]; intros q Hl Hq.
  - eexists. split; [reflexivity | exact Hq].
  - inversion Hl as [|? ? Hi Hl']; subst. cbn [fst] in Hi. cbn [foldM].
    unfold finalStep at 1. destruct (In p && negb (allIn p)).
    + destruct (rank_returns (Cards p)) as [hs Hhs]. rewrite Hhs. cbn [obind].
      apply IH; [exact Hl'|]. apply considerHand_winners; [exact Hq | exact Hi].
    + cbn [obind]. apply IH; assumption.
Qed.

(** X25. With the board dealt and the all-in seats being seats of the table,
    river settlement runs to its end. *)
Lemma settle_returns (seats : list Z) :
  Forall (fun ndx => 0 <= ndx < len (players g)) seats ->
  exists st, settle allIn BestFiveOfSeven g seats = Ok st.
Proof.
  intros Hseats. unfold settle.
  destruct (carve_returns (sortSlice (totalBetOf (players g)) seats) []
              (players g)) as [carved [Hcarve [Hlen Hall]]].
  - rewrite sortSlice_perm. exact Hseats.
  - constructor.
  - unfold carve. rewrite Hcarve. cbn [obind].
    destruct (settlePot_returns carved.1 [] carved.2) as [paid [Hpaid Hlen']].
    { unfold len in *. rewrite Hlen. exact Hall. }
    rewrite Hpaid. cbn [obind].
    destruct (final_returns (indexed paid.2) (len paid.2)
                (setWinningScore emptyPot 8000) (indexed_in_range _)
                ltac:(constructor)) as [fp [Hfp Hwin]].
    rewrite Hfp. cbn [obind]. unfold payPot.
    destruct (payPot_returns fp (WinningPlayerNums fp) paid.2 Hwin)
      as [ps' [Hps' _]].
    { destruct (WinningPlayerNums fp); [left; reflexivity | right; discriminate]. }
    rewrite Hps'. cbn [obind]. eexists. reflexivity.
Qed.

End Returns.

(** *** The final pot (lines 350-381) *)

(** Paying a pot changes stacks only. *)
Lemma payPot_only_stacks (q : Pot) (ps0 ps ps' : list Player) :
  Forall2 (fun p p' => p' = setStack p (Stack p')) ps0 ps ->
  payPot q ps = Ok ps' ->
  Forall2 (fun p p' => p' = setStack p (Stack p')) ps0 ps'.
Proof.
  intros H0. unfold payPot.
  refine (foldM_invariant
            (fun s => Forall2 (fun p p' => p' = setStack p (Stack p')) ps0 s)
            (payStep q) _ (WinningPlayerNums q) ps ps' H0).
  intros s x s' Hs H. unfold payStep in H.
  apply obind_Ok in H. destruct H as [p [Hp H]].
  apply obind_Ok in H. destruct H as [share [_ H]].
  inversion H; subst s'. apply at_Ok in Hp. destruct Hp as [_ Hp].
  destruct (Forall2_lookup_r _ _ _ _ _ Hs Hp) as [p0 [Hp0 Hrel]].
  rewrite <- (list_insert_id ps0 (Z.to_nat x) p0 Hp0).
  apply Forall2_insert; [exact Hs|]. rewrite Hrel. reflexivity.
Qed.

Lemma settlePot_fold_only_stacks (g : Game) (qs settled : list Pot)
    (ps : list Player) (res : list Pot * list Player) :
  foldM (settlePot BestFiveOfSeven g) qs (settled, ps) = Ok res ->
  Forall2 (fun p p' => p' = setStack p (Stack p')) ps res.2.
Proof.
  refine (foldM_invariant
            (fun st : list Pot * list Player =>
               Forall2 (fun p p' => p' = setStack p (Stack p')) ps st.2)
            (settlePot BestFiveOfSeven g) _ qs (settled, ps) res _).
  - intros [s1 ps1] q s' Hs H. unfold settlePot in H.
    apply obind_Ok in H. destruct H as [q' [_ H]].
    apply obind_Ok in H. destruct H as [ps2 [Hpay H]].
    inversion H; subst s'. cbn [snd] in *.
    apply (payPot_only_stacks _ _ _ _ Hs Hpay).
  - cbn [snd]. apply Forall_Forall2_diag, Forall_forall. intros p _.
    symmetry. apply setStack_same.
Qed.

(** The final pot holds the [TotalBet] of the seats that are in the hand
    and not all-in when its loop runs, in [uint] arithmetic. *)
Lemma final_fold_amount (g : Game) (l : list (Z * Player)) :
  forall q q' : Pot,
    foldM (finalStep allIn BestFiveOfSeven g) l q = Ok q' ->
    0 <= Amt q < wB ->
    Amt q' = (Amt q + leftOver allIn l.*2) mod wB.
Proof.
  induction l as [|[i p] l IH]; intros q q' H Hamt.
  - simpl in H. inversion H; subst q'. simpl.
    rewrite Z.add_0_r, Z.mod_small by exact Hamt. reflexivity.
  - cbn [foldM] in H. apply obind_Ok in H. destruct H as [q1 [Hstep Hrest]].
    unfold finalStep in Hstep.
    cbn [fmap list_fmap snd leftOver foldr]. fold (leftOver allIn l.*2).
    destruct (In p && negb (allIn p)).
    + apply obind_Ok in Hstep. destruct Hstep as [hs [_ Hstep]].
      inversion Hstep; subst q1.
      destruct (considerHand_shape (setAmt q (uadd (Amt q) (TotalBet p))) i hs)
        as [_ [Ha _]].
      rewrite (IH _ _ Hrest)
        by (rewrite Ha; cbn; unfold uadd; apply Z.mod_pos_bound; reflexivity).
      rewrite Ha. cbn [Amt setAmt]. unfold uadd.
      rewrite Zplus_mod_idemp_l, Z.add_assoc. reflexivity.
    + inversion Hstep; subst q1. apply (IH _ _ Hrest Hamt).
Qed.

(** Its winners are among those seats. *)
Lemma final_fold_winners (g : Game) (P : Z -> Prop) (l : list (Z * Player)) :
  forall q q' : Pot,
    foldM (finalStep allIn BestFiveOfSeven g) l q = Ok q' ->
    Forall P (WinningPlayerNums q) ->
    Forall (fun ip : Z * Player =>
              In ip.2 && negb (allIn ip.2) = true -> P ip.1) l ->
    Forall P (WinningPlayerNums q').
Proof.
  induction l as [|[i p] l IH]; intros q q' H Hq Hl.
  - simpl in H. inversion H; subst q'. exact Hq.
  - cbn [foldM] in H. apply obind_Ok in H. destruct H as [q1 [Hstep Hrest]].
    inversion Hl as [|? ? Hip Hl']; subst. cbn [fst snd] in Hip.
    unfold finalStep in Hstep. destruct (In p && negb (allIn p)).
    + apply obind_Ok in Hstep. destruct Hstep as [hs [_ Hstep]].
      inversion Hstep; subst q1.
      apply (IH _ _ Hrest); [|exact Hl'].
      apply considerHand_winners; [exact Hq | exact (Hip eq_refl)].
    + inversion Hstep; subst q1. apply (IH _ _ Hrest Hq Hl').
Qed.

(** What river settlement computes, with every [TotalBet] a [uint]: the
    all-in seats are taken in ascending order of [TotalBet]; the loop
    builds one pot per seat, whose [TopShare] is the step from the level
    before, which holds what every player has between the two levels and
    lists the seats in the hand that have that much left; the final pot
    holds what the seats that are in the hand and not all-in, once the
    side pots are paid, have above the last level; and the table records
    the pots only when the final pot is not empty. *)
Lemma settle_shape (g : Game) (seats : list Z) (st : Settlement) :
  Forall (fun p => is_uint (TotalBet p)) (players g) ->
  settle allIn BestFiveOfSeven g seats = Ok st ->
  sortSlice (totalBetOf (players g)) seats ≡ₚ seats /\
  ascendingFrom 0
    (totalBetOf (players g) <$> sortSlice (totalBetOf (players g)) seats) /\
  length (sidePots st) = length seats /\
  (forall (k : nat) (q : Pot) (Lk : Z),
      sidePots st !! k = Some q ->
      (totalBetOf (players g) <$> sortSlice (totalBetOf (players g)) seats)
        !! k = Some Lk ->
      exists Lp,
        Lp = levelBefore 0
               (totalBetOf (players g) <$>
                sortSlice (totalBetOf (players g)) seats) k /\
        0 <= Lp <= Lk /\ TopShare q = Lk - Lp /\
        Amt q = sumContribution Lp Lk (players g) mod wB /\
        EligblePlayerNums q = eligibleAt 0 (players g) Lp Lk) /\
  (exists ps1 : list Player,
      Forall2 (fun p p1 =>
                 p1 = setStack
                        (deduct
                           (lastLevel 0
                              (totalBetOf (players g) <$>
                               sortSlice (totalBetOf (players g)) seats)) p)
                        (Stack p1))
              (players g) ps1 /\
      Amt (finalPot st) = leftOver allIn ps1 mod wB /\
      Forall (fun n => exists p1, at_ ps1 n = Ok p1 /\
                                  In p1 = true /\ allIn p1 = false)
             (WinningPlayerNums (finalPot st))) /\
  pots (recordPots g st) =
    (if Amt (finalPot st) =? 0 then pots g
     else sidePots st ++ [finalPot st]).
Proof.
  intros Hfit Hrun.
  set (order := sortSlice (totalBetOf (players g)) seats).
  assert (Hasc : ascendingFrom 0 (totalBetOf (players g) <$> order))
    by (apply sortSlice_ascending; intros x; apply totalBetOf_nonneg, Hfit).
  unfold settle in Hrun. fold order in Hrun.
  apply obind_Ok in Hrun. destruct Hrun as [carved [Hcarve Hrun]].
  apply obind_Ok in Hrun. destruct Hrun as [paid [Hpaid Hrun]].
  apply obind_Ok in Hrun. destruct Hrun as [fp [Hfp Hrun]].
  apply obind_Ok in Hrun. destruct Hrun as [ps' [_ Hrun]].
  inversion Hrun; subst st. clear Hrun. cbn [sidePots finalPot].
  unfold carve in Hcarve. rewrite <- (deduct_0 _ Hfit) in Hcarve.
  destruct (carve_closed _ Hfit order 0 [] carved ltac:(lia) Hasc Hcarve)
    as [new [Hres [Htop [Hamt Hel]]]].
  rewrite app_nil_l in Hres. subst carved. cbn [fst snd] in Hpaid, Hfp.
  destruct (settlePot_fold_shape _ _ _ _ _ Hpaid) as [Hsh1 [Hsh2 Hsh3]].
  cbn [fmap list_fmap] in Hsh1, Hsh2, Hsh3.
  rewrite app_nil_l in Hsh1, Hsh2, Hsh3.
  rewrite Htop in Hsh1. rewrite Hamt in Hsh2. rewrite Hel in Hsh3.
  assert (Hlen : length paid.1 = length seats).
  { rewrite <- (length_fmap TopShare), Hsh1.
    assert (Hinc : forall ls L, length (increments L ls) = length ls)
      by (induction ls; intros; simpl; auto).
    rewrite Hinc, length_fmap. apply Permutation_length, sortSlice_perm. }
  split; [apply sortSlice_perm|]. split; [exact Hasc|]. split; [exact Hlen|].
  split; [|split].
  - intros k q Lk Hq HLk.
    destruct (carved_at (players g) _ 0 k Lk Hasc HLk)
      as [Hr [Hinc [Ha He]]].
    eexists. split; [reflexivity|]. split; [exact Hr|].
    rewrite <- Hsh1 in Hinc. rewrite <- Hsh2 in Ha. rewrite <- Hsh3 in He.
    rewrite list_lookup_fmap, Hq in Hinc. rewrite list_lookup_fmap, Hq in Ha.
    rewrite list_lookup_fmap, Hq in He.
    simpl in Hinc, Ha, He. inversion Hinc. inversion Ha. inversion He. auto.
  - exists paid.2. split; [|split].
    + pose proof (settlePot_fold_only_stacks _ _ _ _ _ Hpaid) as Hst.
      apply Forall2_fmap_l in Hst. exact Hst.
    + rewrite (final_fold_amount _ _ _ _ Hfp) by (cbn; unfold wB; lia).
      cbn [Amt setWinningScore emptyPot]. rewrite Z.add_0_l. f_equal. f_equal.
      unfold indexed. apply snd_zip. unfold seatNums.
      rewrite length_fmap, length_seq. lia.
    + apply (final_fold_winners g _ _ _ _ Hfp); [constructor|].
      eapply Forall_impl; [apply indexed_seated|].
      intros [i p] Hip Hin. cbn [fst snd] in *. exists p.
      split; [exact Hip|]. apply andb_true_iff in Hin. destruct Hin as [H1 H2].
      split; [exact H1|]. destruct (allIn p); [discriminate | reflexivity].
  - unfold recordPots. cbn [finalPot sidePots paidPlayers].
    destruct (Amt fp =? 0); reflexivity.
Qed.

(** The pot built for a seat tied with the one before it in the order is
    empty and open to every seat in the hand. *)
Lemma tied_seat_gives_empty_pot (g : Game) (seats : list Z) (st : Settlement)
    (k : nat) (q : Pot) (Lk : Z) :
  Forall (fun p => is_uint (TotalBet p)) (players g) ->
  settle allIn BestFiveOfSeven g seats = Ok st ->
  sidePots st !! k = Some q ->
  (totalBetOf (players g) <$> sortSlice (totalBetOf (players g)) seats) !! k =
    Some Lk ->
  levelBefore 0
    (totalBetOf (players g) <$> sortSlice (totalBetOf (players g)) seats) k =
    Lk ->
  TopShare q = 0 /\ Amt q = 0 /\ EligblePlayerNums q = inSeats (players g).
Proof.
  intros Hfit Hrun Hq HLk Htie.
  destruct (settle_shape g seats st Hfit Hrun) as [_ [_ [_ [Hat _]]]].
  destruct (Hat k q Lk Hq HLk) as [Lp [HLp [_ [Ht [Ha He]]]]].
  rewrite Htie in HLp. subst Lp.
  rewrite Ht, Ha, He, sumContribution_tie, eligibleAt_tie. repeat split. lia.
Qed.

Lemma eligibleAt_from_0 (ps : list Player) (L : Z) :
  Forall (fun p => is_uint (TotalBet p)) ps ->
  eligibleAt 0 ps 0 L = inAtLeast ps L.
Proof.
  intros Hfit. unfold eligibleAt, inAtLeast. rewrite <- indexed_indexedFrom.
  f_equal. apply List.filter_ext_in. intros [i p] Hip. simpl. f_equal.
  assert (Hp : is_uint (TotalBet p)).
  { pose proof (indexed_seated ps) as Hs. rewrite Forall_forall in Hs.
    apply list_elem_of_In in Hip. specialize (Hs _ Hip). cbn [fst snd] in Hs.
    apply at_Ok in Hs. destruct Hs as [_ Hs].
    apply (Forall_lookup_1 _ _ _ _ Hfit Hs). }
  destruct Hp as [Hp _]. rewrite Z.sub_0_r, Z.sub_0_r, Z.max_r by lia.
  reflexivity.
Qed.

Lemma inAtLeast_mono (ps : list Player) (Lj Lk : Z) :
  Lj <= Lk -> inAtLeast ps Lk ⊆ inAtLeast ps Lj.
Proof.
  intros H x. unfold inAtLeast. rewrite !list_elem_of_fmap.
  intros [ip [-> Hip]]. exists ip. split; [reflexivity|].
  apply list_elem_of_In in Hip. apply list_elem_of_In.
  apply filter_In in Hip. apply filter_In. destruct Hip as [Hin Hp].
  split; [exact Hin|]. apply andb_true_iff in Hp. destruct Hp as [Hp1 Hp2].
  rewrite Hp1. simpl. apply Z.geb_le in Hp2. apply Z.geb_le. lia.
Qed.

(** In levels that go up, the first place of a level is the first of
    all, or one where the level before is lower. *)
Lemma firstOfLevel_rises (L : Z) (ls : list Z) (k : nat) (Lk : Z) :
  ascendingFrom L ls -> ls !! k = Some Lk -> firstOfLevel ls k ->
  k = 0%nat \/ levelBefore L ls k < Lk.
Proof.
  intros Hasc Hk [v [Hv Hfirst]]. rewrite Hk in Hv. inversion Hv; subst v.
  destruct k as [|j]; [left; reflexivity | right]. cbn [levelBefore].
  destruct (lookup_lt_is_Some_2 ls j) as [Lj HLj];
    [apply lookup_lt_Some in Hk; lia|].
  rewrite HLj. change (default L (Some Lj)) with Lj.
  destruct (ascendingFrom_lookup ls L j (S j) Lj Lk Hasc ltac:(lia) HLj Hk)
    as [_ Hle].
  assert (Lj <> Lk) by (intros ->; exact (Hfirst j ltac:(lia) HLj)). lia.
Qed.

Lemma firstOfLevel_exists (ls : list Z) (v : Z) :
  v ∈ ls -> exists k, ls !! k = Some v /\ firstOfLevel ls k.
Proof.
  intros Hv. apply list_elem_of_lookup in Hv. destruct Hv as [i Hi].
  destruct (least_true (fun k => bool_decide (ls !! k = Some v)) i
              ltac:(apply bool_decide_eq_true; exact Hi))
    as [k [_ [Hk Hmin]]].
  apply bool_decide_eq_true in Hk. exists k. split; [exact Hk|].
  exists v. split; [exact Hk|]. intros j Hj.
  specialize (Hmin j Hj). apply bool_decide_eq_false in Hmin. exact Hmin.
Qed.

(** C3, as amended. At river settlement, with every [TotalBet] a [uint],
    whenever settlement returns, the all-in seats are taken in ascending
    order of [TotalBet], and:
    - for every seat that is the first of its level in that order the
      loop builds a side pot; its [TopShare] is the step from the level
      before (the next lower all-in [TotalBet], or 0 for the lowest
      level) and its eligible seats are exactly the seats in the hand
      whose [TotalBet] reaches the level;
    - every all-in level has such a first seat, hence such a pot;
    - among these pots the eligible seats shrink as the level rises;
    - when the final pot is not empty, the table records the side pots
      followed by the final pot. *)
Theorem side_pots_shape (g : Game) (seats : list Z) (st : Settlement) :
  Forall (fun p => is_uint (TotalBet p)) (players g) ->
  settle allIn BestFiveOfSeven g seats = Ok st ->
  sortSlice (totalBetOf (players g)) seats ≡ₚ seats /\
  ascendingFrom 0
    (totalBetOf (players g) <$> sortSlice (totalBetOf (players g)) seats) /\
  (forall (k : nat) (ndx : Z),
      sortSlice (totalBetOf (players g)) seats !! k = Some ndx ->
      firstOfLevel
        (totalBetOf (players g) <$> sortSlice (totalBetOf (players g)) seats)
        k ->
      exists q : Pot,
        sidePots st !! k = Some q /\
        TopShare q =
          totalBetOf (players g) ndx -
          levelBefore 0
            (totalBetOf (players g) <$>
             sortSlice (totalBetOf (players g)) seats) k /\
        (k = 0%nat \/ 0 < TopShare q) /\
        EligblePlayerNums q =
          inAtLeast (players g) (totalBetOf (players g) ndx)) /\
  (forall ndx : Z,
      ndx ∈ seats ->
      exists (k : nat) (first : Z),
        sortSlice (totalBetOf (players g)) seats !! k = Some first /\
        totalBetOf (players g) first = totalBetOf (players g) ndx /\
        firstOfLevel
          (totalBetOf (players g) <$>
           sortSlice (totalBetOf (players g)) seats) k) /\
  (forall (j k : nat) (qj qk : Pot),
      (j <= k)%nat ->
      firstOfLevel
        (totalBetOf (players g) <$> sortSlice (totalBetOf (players g)) seats)
        j ->
      firstOfLevel
        (totalBetOf (players g) <$> sortSlice (totalBetOf (players g)) seats)
        k ->
      sidePots st !! j = Some qj -> sidePots st !! k = Some qk ->
      EligblePlayerNums qk ⊆ EligblePlayerNums qj) /\
  (Amt (finalPot st) <> 0 ->
   pots (recordPots g st) = sidePots st ++ [finalPot st]).
Proof.
  intros Hfit Hrun.
  destruct (settle_shape g seats st Hfit Hrun)
    as [Hperm [Hasc [Hlen [Hat [_ Hrec]]]]].
  set (order := sortSlice (totalBetOf (players g)) seats) in *.
  set (levels := totalBetOf (players g) <$> order) in *.
  assert (Hpot : forall (k : nat) (q : Pot) (Lk : Z),
             sidePots st !! k = Some q -> levels !! k = Some Lk ->
             firstOfLevel levels k ->
             TopShare q = Lk - levelBefore 0 levels k /\
             (k = 0%nat \/ 0 < TopShare q) /\
             EligblePlayerNums q = inAtLeast (players g) Lk).
  { intros k q Lk Hq HLk Hfirst.
    destruct (Hat k q Lk Hq HLk) as [Lp [HLp [Hr [Ht [_ He]]]]].
    subst Lp. split; [exact Ht|].
    destruct (firstOfLevel_rises 0 levels k Lk Hasc HLk Hfirst) as [->|Hlt].
    - split; [left; reflexivity|]. rewrite He. cbn [levelBefore].
      apply eligibleAt_from_0, Hfit.
    - split; [right; lia|]. rewrite He. apply eligibleAt_positive. lia. }
  split; [exact Hperm|]. split; [exact Hasc|].
  split; [|split; [|split]].
  - intros k ndx Hndx Hfirst.
    assert (HLk : levels !! k = Some (totalBetOf (players g) ndx))
      by (unfold levels; rewrite list_lookup_fmap, Hndx; reflexivity).
    destruct (lookup_lt_is_Some_2 (sidePots st) k) as [q Hq].
    { rewrite Hlen, <- (Permutation_length Hperm).
      apply lookup_lt_Some in Hndx. exact Hndx. }
    exists q. split; [exact Hq|]. apply (Hpot k q _ Hq HLk Hfirst).
  - intros ndx Hndx.
    assert (Hin : totalBetOf (players g) ndx ∈ levels).
    { unfold levels. apply list_elem_of_fmap. exists ndx.
      split; [reflexivity|]. rewrite Hperm. exact Hndx. }
    destruct (firstOfLevel_exists levels _ Hin) as [k [Hk Hfirst]].
    unfold levels in Hk. rewrite list_lookup_fmap in Hk.
    destruct (order !! k) as [first|] eqn:E; [|discriminate].
    exists k, first. split; [exact E|]. split; [|exact Hfirst].
    simpl in Hk. inversion Hk. reflexivity.
  - intros j k qj qk Hjk Hfj Hfk Hqj Hqk.
    destruct Hfj as [Lj [HLj Hfj]]. destruct Hfk as [Lk [HLk Hfk]].
    destruct (Hpot j qj Lj Hqj HLj ltac:(exists Lj; auto)) as [_ [_ Hej]].
    destruct (Hpot k qk Lk Hqk HLk ltac:(exists Lk; auto)) as [_ [_ Hek]].
    destruct (ascendingFrom_lookup _ 0 j k Lj Lk Hasc Hjk HLj HLk) as [_ Hle].
    rewrite Hek, Hej. apply inAtLeast_mono, Hle.
  - intros Hne. rewrite Hrec.
    destruct (Z.eqb_spec (Amt (finalPot st)) 0); [contradiction | reflexivity].
Qed.

End SettleFacts.

(** ** Per-player views ([views.go], lines 115-199) *)

(** *** Counting seats *)

Lemma countIf_cons (f : Player -> bool) (p : Player) (ps : list Player) :
  countIf f (p :: ps) = (if f p then 1 else 0) + countIf f ps.
Proof. unfold countIf. simpl. destruct (f p); simpl length; lia. Qed.

Lemma countIf_nonneg (f : Player -> bool) (ps : list Player) : 0 <= countIf f ps.
Proof. unfold countIf. lia. Qed.

Lemma countIf_zero (f : Player -> bool) (ps : list Player) :
  (countIf f ps =? 0) = forallb (fun p => negb (f p)) ps.
Proof.
  induction ps as [|p ps IH]; [reflexivity|].
  rewrite countIf_cons. cbn [forallb]. rewrite <- IH.
  pose proof (countIf_nonneg f ps).
  destruct (f p); cbn [negb andb].
  - destruct (Z.eqb_spec (1 + countIf f ps) 0); [lia | reflexivity].
  - reflexivity.
Qed.

Lemma countIf_split (f h : Player -> bool) (ps : list Player) :
  Forall (fun p => f p = true -> h p = true) ps ->
  countIf h ps = countIf f ps + countIf (fun p => h p && negb (f p)) ps.
Proof.
  induction 1 as [|p ps Hp _ IH]; [reflexivity|].
  rewrite !countIf_cons, IH. destruct (f p) eqn:Ef.
  - rewrite (Hp eq_refl). cbn [negb andb]. lia.
  - destruct (h p); cbn [negb andb]; lia.
Qed.

Lemma forallb_ext_Forall (f h : Player -> bool) (ps : list Player) :
  Forall (fun p => f p = h p) ps -> forallb f ps = forallb h ps.
Proof.
  induction 1 as [|p ps Hp _ IH]; [reflexivity|].
  cbn [forallb]. rewrite Hp, IH. reflexivity.
Qed.

Section ViewFacts.

Variable p_allIn : Player -> Z -> bool.
Variable p_in : Player -> Z -> bool.
Variable p_bet : Player -> Z -> Z.
Variable BestFiveOfSeven :
  Card -> Card -> Card -> Card -> Card -> Card -> Card -> list Card * Z.

Lemma hideCards_hidden (vp vp' : list Player) (i : Z) (q : nat) :
  hideCards vp i = Ok vp' ->
  hidden q vp \/ Z.of_nat q = i -> hidden q vp'.
Proof.
  unfold hideCards. intros H Hq. apply obind_Ok in H. destruct H as [p [Hp H]].
  inversion H; subst vp'. clear H. apply at_Ok in Hp. destruct Hp as [Hi Hp].
  intros p' Hp'. apply list_lookup_insert_Some in Hp'.
  destruct Hp' as [[_ [<- _]]|[Hne Hp']]; [reflexivity|].
  destruct Hq as [Hq|Hq]; [apply Hq, Hp' | lia].
Qed.

Lemma showCards_hidden (g : Game) (vp vp' : list Player) (i : Z) (q : nat) :
  showCards g vp i = Ok vp' ->
  Z.of_nat q <> i -> hidden q vp -> hidden q vp'.
Proof.
  unfold showCards. intros H Hne Hq. apply obind_Ok in H.
  destruct H as [p [Hp H]]. apply obind_Ok in H. destruct H as [src [_ H]].
  inversion H; subst vp'. clear H. apply at_Ok in Hp. destruct Hp as [Hi Hp].
  intros p' Hp'. rewrite list_lookup_insert_ne in Hp' by lia. apply Hq, Hp'.
Qed.

(** The first loop: every seat but [pn] is hidden, and the three
    counters count what their names say. *)
Lemma census_fold (pn stage : Z) (l : list (Z * Player)) :
  forall (st st' : list Player * Census),
    foldM (censusStep p_allIn p_in p_bet pn stage) l st = Ok st' ->
    (forall q : nat, Z.of_nat q <> pn ->
                     hidden q st.1 \/ Z.of_nat q ∈ l.*1 -> hidden q st'.1) /\
    allInCount st'.2 =
      allInCount st.2 + countIf (fun p => p_allIn p stage) l.*2 /\
    inCount st'.2 = inCount st.2 + countIf (fun p => p_in p stage) l.*2 /\
    betCount st'.2 =
      betCount st.2 +
      countIf (fun p => p_in p stage && (p_bet p stage >? 0)) l.*2.
Proof.
  unfold countIf. induction l as [|[i p] l IH]; intros st st' H.
  - simpl in H. inversion H; subst st'. simpl.
    repeat split; try lia. intros q _ [Hq|Hq]; [exact Hq|].
    apply elem_of_nil in Hq. destruct Hq.
  - cbn [foldM] in H. apply obind_Ok in H. destruct H as [st1 [Hstep Hrest]].
    destruct (IH _ _ Hrest) as [Hhid [Ha [Hi Hb]]]. clear IH Hrest.
    unfold censusStep in Hstep. apply obind_Ok in Hstep.
    destruct Hstep as [vp [Hvp Hstep]]. inversion Hstep; subst st1. clear Hstep.
    cbn [fst snd] in *. split; [|split; [|split]].
    + intros q Hq Hcase. apply Hhid; [exact Hq|].
      destruct (Z.eqb_spec i pn) as [->|Hne]; simpl in Hvp.
      * inversion Hvp; subst vp. destruct Hcase as [Hh|Hel]; [left; exact Hh|].
        cbn [fmap list_fmap fst] in Hel. apply elem_of_cons in Hel.
        destruct Hel as [Hel|Hel]; [contradiction | right; exact Hel].
      * destruct Hcase as [Hh|Hel].
        -- left. apply (hideCards_hidden _ _ _ _ Hvp). left. exact Hh.
        -- cbn [fmap list_fmap fst] in Hel. apply elem_of_cons in Hel.
           destruct Hel as [Hel|Hel]; [|right; exact Hel].
           left. apply (hideCards_hidden _ _ _ _ Hvp). right. exact Hel.
    + rewrite Ha. cbn [fmap list_fmap snd List.filter].
      destruct (p_allIn p stage), (p_in p stage), (p_bet p stage >? 0);
        cbn [allInCount length]; lia.
    + rewrite Hi. cbn [fmap list_fmap snd List.filter].
      destruct (p_allIn p stage), (p_in p stage), (p_bet p stage >? 0);
        cbn [inCount length]; lia.
    + rewrite Hb. cbn [fmap list_fmap snd List.filter].
      destruct (p_allIn p stage), (p_in p stage), (p_bet p stage >? 0);
        cbn [betCount length andb]; lia.
Qed.

(** The loop of the all-in show-down shows active seats only. *)
Lemma showIn_fold (g : Game) (stage : Z) (q : nat) (l : list (Z * Player)) :
  (forall ip, ip ∈ l -> ip.1 = Z.of_nat q -> p_in ip.2 stage = false) ->
  forall vp vp' : list Player,
    foldM (showInStep p_in g stage) l vp = Ok vp' -> hidden q vp -> hidden q vp'.
Proof.
  induction l as [|ip l IH]; intros Hl vp vp' H Hq.
  - simpl in H. inversion H; subst vp'. exact Hq.
  - cbn [foldM] in H. apply obind_Ok in H. destruct H as [vp1 [Hstep Hrest]].
    apply (IH ltac:(intros ip' Hip'; apply Hl; right; exact Hip') _ _ Hrest).
    unfold showInStep in Hstep. destruct (p_in ip.2 stage) eqn:E.
    + apply (showCards_hidden _ _ _ _ _ Hstep); [|exact Hq].
      intros Heq. rewrite (Hl ip ltac:(left) (eq_sym Heq)) in E. discriminate.
    + inversion Hstep; subst vp1. exact Hq.
Qed.

(** Showing the seats of a list leaves the others as they were. *)
Lemma showCards_fold (g : Game) (q : nat) (l : list Z) :
  Z.of_nat q ∉ l ->
  forall vp vp' : list Player,
    foldM (showCards g) l vp = Ok vp' -> hidden q vp -> hidden q vp'.
Proof.
  induction l as [|i l IH]; intros Hl vp vp' H Hq.
  - simpl in H. inversion H; subst vp'. exact Hq.
  - cbn [foldM] in H. apply obind_Ok in H. destruct H as [vp1 [Hstep Hrest]].
    apply not_elem_of_cons in Hl. destruct Hl as [Hne Hl].
    apply (IH Hl _ _ Hrest). apply (showCards_hidden _ _ _ _ _ Hstep Hne Hq).
Qed.

Lemma showWinners_fold (g : Game) (q : nat) (qs : list Pot) :
  (forall pot, pot ∈ qs -> Z.of_nat q ∉ WinningPlayerNums pot) ->
  forall vp vp' : list Player,
    foldM (showWinners g) qs vp = Ok vp' -> hidden q vp -> hidden q vp'.
Proof.
  induction qs as [|pot qs IH]; intros Hl vp vp' H Hq.
  - simpl in H. inversion H; subst vp'. exact Hq.
  - cbn [foldM] in H. apply obind_Ok in H. destruct H as [vp1 [Hstep Hrest]].
    apply (IH ltac:(intros pot' Hpot'; apply Hl; right; exact Hpot') _ _ Hrest).
    unfold showWinners in Hstep.
    apply (showCards_fold g q _ (Hl pot ltac:(left)) _ _ Hstep Hq).
Qed.

Lemma bestSeen_S (g : Game) (k : nat) :
  bestSeen BestFiveOfSeven g (S k) =
  if inHand g (walkSeat g k)
  then Z.min (bestSeen BestFiveOfSeven g k) (scoreOf BestFiveOfSeven g (walkSeat g k))
  else bestSeen BestFiveOfSeven g k.
Proof.
  unfold bestSeen. rewrite seq_S, fmap_app, List.filter_app, fmap_app, fold_left_app.
  cbn [fmap list_fmap List.filter Nat.add].
  destruct (inHand g (walkSeat g k)); reflexivity.
Qed.

(** The walk from [calledNum]: the running score to beat is
    [bestSeen], and a seat is shown only when it is in the hand and
    scores at or below it. *)
Lemma walk_fold (g : Game) (q : nat) (m : nat) :
  forall (k : nat) (vp : list Player) (res : list Player * Z),
    foldM (walkStep BestFiveOfSeven g) (Z.of_nat <$> seq k m)
      (vp, bestSeen BestFiveOfSeven g k) = Ok res ->
    hidden q vp ->
    (forall i : nat,
        (k <= i < k + m)%nat -> walkSeat g i = Z.of_nat q ->
        inHand g (Z.of_nat q) = true ->
        ~ scoreOf BestFiveOfSeven g (Z.of_nat q) <= bestSeen BestFiveOfSeven g i) ->
    hidden q res.1.
Proof.
  induction m as [|m IH]; intros k vp res H Hq Hnot.
  - simpl in H. inversion H; subst res. exact Hq.
  - cbn [seq fmap list_fmap foldM] in H. apply obind_Ok in H.
    destruct H as [st1 [Hstep Hrest]].
    change (list_fmap nat Z Z.of_nat (seq (S k) m))
      with (Z.of_nat <$> seq (S k) m) in Hrest.
    unfold walkStep in Hstep. cbn [fst snd] in Hstep.
    apply obind_Ok in Hstep. destruct Hstep as [pni [Hpni Hstep]].
    apply obind_Ok in Hstep. destruct Hstep as [p [Hp Hstep]].
    apply obind_Ok in Hstep. destruct Hstep as [hs [Hhs Hstep]].
    assert (Hseat : pni = walkSeat g k).
    { unfold umod in Hpni. destruct (len (players g) =? 0); [discriminate|].
      inversion Hpni. reflexivity. }
    assert (Hin : inHand g (walkSeat g k) = In p)
      by (unfold inHand; rewrite <- Hseat, Hp; reflexivity).
    assert (Hsc : scoreOf BestFiveOfSeven g (walkSeat g k) = hs.2)
      by (unfold scoreOf; rewrite <- Hseat, Hp, Hhs; reflexivity).
    assert (Hst1 : st1.2 = bestSeen BestFiveOfSeven g (S k) /\ hidden q st1.1).
    { rewrite bestSeen_S, Hin, Hsc.
      destruct (Z.leb_spec hs.2 (bestSeen BestFiveOfSeven g k)) as [Hle|Hgt];
        destruct (In p) eqn:Ein; cbn [andb] in Hstep.
      - apply obind_Ok in Hstep. destruct Hstep as [vp1 [Hshow Hstep]].
        inversion Hstep; subst st1. cbn [fst snd]. split; [lia|].
        apply (showCards_hidden _ _ _ _ _ Hshow); [|exact Hq].
        intros Heq. apply (Hnot k ltac:(lia)).
        + rewrite <- Hseat. auto.
        + rewrite Heq, Hseat, Hin. reflexivity.
        + rewrite Heq, Hseat, Hsc. exact Hle.
      - inversion Hstep; subst st1. auto.
      - inversion Hstep; subst st1. cbn [fst snd]. split; [lia | exact Hq].
      - inversion Hstep; subst st1. auto. }
    destruct Hst1 as [Hbest Hhid]. destruct st1 as [vp1 stb1].
    cbn [fst snd] in Hbest, Hhid. subst stb1.
    apply (IH (S k) vp1 res Hrest Hhid).
    intros i Hi. apply Hnot. lia.
Qed.

Lemma census_returns (pn stage : Z) (l : list (Z * Player)) :
  forall (vp : list Player) (c : Census),
    Forall (fun ip : Z * Player => 0 <= ip.1 < len vp) l ->
    exists st',
      foldM (censusStep p_allIn p_in p_bet pn stage) l (vp, c) = Ok st' /\
      length st'.1 = length vp.
Proof.
  induction l as [|[i p] l IH]; intros vp c Hl.
  - eexists. split; reflexivity.
  - inversion Hl as [|? ? Hi Hl']; subst. cbn [fst] in Hi.
    cbn [foldM]. unfold censusStep at 1. cbn [fst snd].
    destruct (at_in_range vp i Hi) as [x Hx].
    assert (Hhide : exists vp1,
               (if negb (i =? pn) then hideCards vp i else Ok vp) = Ok vp1 /\
               length vp1 = length vp).
    { destruct (negb (i =? pn)).
      - unfold hideCards. rewrite Hx. eexists. split; [reflexivity|].
        apply length_insert.
      - eexists. split; reflexivity. }
    destruct Hhide as [vp1 [Hvp1 Hlen1]]. rewrite Hvp1. cbn [obind].
    assert (Hl1 : Forall (fun ip : Z * Player => 0 <= ip.1 < len vp1) l)
      by (unfold len in *; rewrite Hlen1; exact Hl').
    match goal with
    | |- exists st', foldM _ _ (_, ?c1) = _ /\ _ =>
        destruct (IH vp1 c1 Hl1) as [st' [Hst' Hlen']]
    end.
    exists st'. split; [exact Hst' | congruence].
Qed.

Lemma showIn_returns (g : Game) (stage : Z) (l : list (Z * Player)) :
  forall vp : list Player,
    length vp = length (players g) ->
    Forall (fun ip : Z * Player => 0 <= ip.1 < len vp) l ->
    exists vp', foldM (showInStep p_in g stage) l vp = Ok vp'.
Proof.
  induction l as [|[i p] l IH]; intros vp Hlen Hl.
  - eexists. reflexivity.
  - inversion Hl as [|? ? Hi Hl']; subst. cbn [fst] in Hi.
    cbn [foldM]. unfold showInStep at 1. cbn [fst snd].
    destruct (p_in p stage).
    + unfold showCards. destruct (at_in_range vp i Hi) as [x Hx].
      destruct (at_in_range (players g) i
                  ltac:(unfold len in *; rewrite <- Hlen; exact Hi)) as [y Hy].
      rewrite Hx, Hy. cbn [obind]. apply IH.
      * rewrite length_insert. exact Hlen.
      * unfold len in *. rewrite length_insert. exact Hl'.
    + cbn [obind]. apply IH; assumption.
Qed.

(** X27. Away from the end-of-hand reveal the projection always returns. *)
Lemma GeneratePlayerView_returns (g : Game) (pn : Z) :
  (getStage g =? PreDeal) &&
  (countIf (fun p => p_in p (getStage g)) (players g) >? 1) = false ->
  exists gv, GeneratePlayerView p_allIn p_in p_bet BestFiveOfSeven g pn = Ok gv.
Proof.
  intros Hcond. unfold GeneratePlayerView.
  cbn [Stage Players copyToView]. rewrite app_nil_l.
  destruct (census_returns pn (getStage g) (indexed (players g)) (players g)
              (mkCensus 0 0 0) (indexed_in_range _)) as [st [Hst Hlen]].
  rewrite Hst. cbn [obind].
  destruct (census_fold _ _ _ _ _ Hst) as [_ [_ [Hi _]]].
  cbn [fst snd inCount] in Hi.
  assert (Hsnd : (indexed (players g)).*2 = players g).
  { unfold indexed. apply snd_zip. unfold seatNums.
    rewrite length_fmap, length_seq. lia. }
  rewrite Hsnd, Z.add_0_l in Hi. rewrite Hi, Hcond.
  destruct (showAllOf st.2).
  - destruct (showIn_returns g (getStage g) (indexed (players g)) st.1 Hlen)
      as [vp' Hvp'].
    + unfold len. rewrite Hlen. apply indexed_in_range.
    + rewrite Hvp'. cbn [obind]. eexists. reflexivity.
  - cbn [obind]. eexists. reflexivity.
Qed.

Lemma allInShowdown_as_worded (g : Game) :
  Forall (fun p => p_allIn p (getStage g) = true -> p_in p (getStage g) = true)
         (players g) ->
  Forall (fun p => p_in p (getStage g) = false -> p_bet p (getStage g) <= 0)
         (players g) ->
  allInShowdown p_allIn p_in p_bet g = allInShowdownAsWorded p_allIn p_in p_bet g.
Proof.
  intros Hactive Hbets.
  unfold allInShowdown, allInShowdownAsWorded, everyActiveAllIn,
    allButOneActiveAllIn, noPositiveBet. cbv zeta.
  rewrite (countIf_split _ _ _ Hactive).
  set (A := countIf (fun p => p_allIn p (getStage g)) (players g)).
  set (M := countIf (fun p => p_in p (getStage g) &&
                              negb (p_allIn p (getStage g))) (players g)).
  assert (H0 : (A =? A + M) = (M =? 0))
    by (destruct (Z.eqb_spec A (A + M)), (Z.eqb_spec M 0); try reflexivity; lia).
  assert (H1 : (A =? A + M - 1) = (M =? 1))
    by (destruct (Z.eqb_spec A (A + M - 1)), (Z.eqb_spec M 1);
        try reflexivity; lia).
  rewrite H0, H1. unfold M at 1. rewrite countIf_zero, countIf_zero.
  rewrite andb_comm. f_equal; [|f_equal].
  - apply forallb_ext_Forall, Forall_forall. intros p _.
    destruct (p_in p (getStage g)), (p_allIn p (getStage g)); reflexivity.
  - apply forallb_ext_Forall. eapply Forall_impl; [exact Hbets|].
    intros p Hp. simpl in Hp. destruct (p_in p (getStage g)); [reflexivity|].
    cbn [andb negb]. specialize (Hp eq_refl).
    destruct (Z.gtb_spec (p_bet p (getStage g)) 0); [lia | reflexivity].
Qed.

(** C2, as amended. Whenever [GeneratePlayerView] returns a view for seat
    [pn], the view has an empty deck and a zero seed in its configuration,
    and every other seat that is not in the reveal set shows the zero
    cards. The reveal set is the one of section 4.5 (all active seats at
    an all-in show-down; after the hand, the seat [calledNum], the seats
    shown by the walk from it, and the recorded pot winners) with the
    all-in show-down condition evaluated by counting, as the code does:
    as many all-in seats on the table as active ones, or one fewer while
    no active seat has a positive current-round bet. With the condition
    as worded in section 4.5 the same holds whenever every all-in seat is
    active and no inactive seat has a positive current-round bet. *)
Theorem player_view_hides (g : Game) (pn : Z) (gv : GameView) :
  GeneratePlayerView p_allIn p_in p_bet BestFiveOfSeven g pn = Ok gv ->
  Deck gv = [] /\
  Seed (Config gv) = 0 /\
  (forall (q : nat) (p : Player),
      Z.of_nat q <> pn ->
      ~ revealed p_allIn p_in p_bet BestFiveOfSeven g q ->
      Players gv !! q = Some p -> Cards p = (0, 0)) /\
  (Forall (fun p => p_allIn p (getStage g) = true ->
                    p_in p (getStage g) = true) (players g) ->
   Forall (fun p => p_in p (getStage g) = false ->
                    p_bet p (getStage g) <= 0) (players g) ->
   forall (q : nat) (p : Player),
     Z.of_nat q <> pn ->
     ~ revealedAsWorded p_allIn p_in p_bet BestFiveOfSeven g q ->
     Players gv !! q = Some p -> Cards p = (0, 0)).
Proof.
  unfold GeneratePlayerView. intros H.
  apply obind_Ok in H. destruct H as [st [Hcensus H]].
  apply obind_Ok in H. destruct H as [vp1 [Hall H]].
  apply obind_Ok in H. destruct H as [vp2 [Hend H]].
  inversion H; subst gv. clear H. cbn [Deck Config Seed Players].
  split; [reflexivity|]. split; [reflexivity|].
  assert (Hcore : forall (q : nat) (p : Player),
             Z.of_nat q <> pn ->
             ~ revealed p_allIn p_in p_bet BestFiveOfSeven g q ->
             vp2 !! q = Some p -> Cards p = (0, 0)); [|split; [exact Hcore|]].
  2:{ intros Hactive Hbets q p Hq Hnot. apply (Hcore q p Hq).
      intros [[Hshow Hex]|Hended]; apply Hnot.
      - left. split; [|exact Hex].
        rewrite <- (allInShowdown_as_worded g Hactive Hbets). exact Hshow.
      - right. exact Hended. }
  intros q p Hq Hnot. revert p. fold (hidden q vp2).
  destruct (census_fold _ _ _ _ _ Hcensus) as [Hhid [Ha [Hi Hb]]].
  cbn [fst snd allInCount inCount betCount Stage Players copyToView] in *.
  rewrite app_nil_l in Hhid.
  assert (Hsnd : (indexed (players g)).*2 = players g).
  { unfold indexed. apply snd_zip. unfold seatNums.
    rewrite length_fmap, length_seq. lia. }
  rewrite Hsnd, Z.add_0_l in Ha, Hi, Hb.
  (* after the first loop *)
  assert (H0 : hidden q st.1).
  { apply Hhid; [exact Hq|].
    destruct (players g !! q) as [p0|] eqn:E; [right | left].
    - unfold indexed. rewrite fst_zip.
      + unfold seatNums. apply list_elem_of_fmap. exists q. split; [reflexivity|].
        apply elem_of_seq. apply lookup_lt_Some in E. lia.
      + unfold seatNums. rewrite length_fmap, length_seq. lia.
    - intros p0 Hp0. rewrite E in Hp0. discriminate. }
  (* after the all-in show-down *)
  assert (H1 : hidden q vp1).
  { destruct (showAllOf st.2) eqn:Eshow.
    - refine (showIn_fold g (getStage g) q (indexed (players g)) _ st.1 vp1 Hall H0).
      intros [i p0] Hip Hi0. cbn [fst snd] in *. subst i.
      destruct (p_in p0 (getStage g)) eqn:Ein; [|reflexivity].
      exfalso. apply Hnot. left. split.
      + unfold allInShowdown. cbv zeta. rewrite <- Ha, <- Hi, <- Hb.
        unfold showAllOf in Eshow.
        destruct (allInCount st.2 =? inCount st.2); [reflexivity|].
        cbn [negb andb orb] in *. destruct (betCount st.2 =? 0); auto.
      + exists p0. split; [|exact Ein].
        pose proof (indexed_seated (players g)) as Hseated.
        rewrite Forall_forall in Hseated. specialize (Hseated _ Hip).
        cbn [fst snd] in Hseated. apply at_Ok in Hseated.
        rewrite Nat2Z.id in Hseated. tauto.
    - inversion Hall; subst vp1. exact H0. }
  (* after the end-of-hand reveal *)
  destruct ((getStage g =? PreDeal) && (inCount st.2 >? 1)) eqn:Eend.
  - apply andb_true_iff in Eend. destruct Eend as [Estage Ecount].
    apply Z.eqb_eq in Estage. apply Z.gtb_lt in Ecount.
    assert (Hended : handEnded p_in g) by (split; [exact Estage | lia]).
    apply obind_Ok in Hend. destruct Hend as [vp3 [Hcalled Hend]].
    apply obind_Ok in Hend. destruct Hend as [pc [Hpc Hend]].
    apply obind_Ok in Hend. destruct Hend as [hs [Hhs Hend]].
    apply obind_Ok in Hend. destruct Hend as [w [Hwalk Hend]].
    assert (H3 : hidden q vp3).
    { apply (showCards_hidden _ _ _ _ _ Hcalled); [|exact H1].
      intros Heq. apply Hnot. right. split; [exact Hended|]. left. exact Heq. }
    assert (Hs0 : hs.2 = bestSeen BestFiveOfSeven g 0).
    { unfold bestSeen, scoreOf. cbn [seq fmap list_fmap List.filter fold_left].
      rewrite Hpc, Hhs. reflexivity. }
    rewrite Hs0 in Hwalk. unfold seatNums in Hwalk.
    assert (H4 : hidden q w.1).
    { apply (walk_fold g q _ 0 vp3 w Hwalk H3).
      intros i Hi0 Hseat Hin Hle. apply Hnot. right. split; [exact Hended|].
      right. left. exists i. repeat split; auto. lia. }
    refine (showWinners_fold g q (pots g) _ w.1 vp2 Hend H4).
    intros pot Hpot Hwin. apply Hnot. right. split; [exact Hended|].
    right. right. exists pot. auto.
  - inversion Hend; subst vp2. exact H1.
Qed.

End ViewFacts.

(** C2 on a table where the hand just ended: the view of seat 0 shows
    seat 1, which closed the betting, and hides seat 2, whose hand did
    not match the best seen on the walk and which won no pot; every seat
    being active, the condition as worded applies as well. *)
Lemma player_view_hides_witness :
  exists gv,
    GeneratePlayerView viewAllIn viewIn viewBet sampleRanking showdownOver 0 =
    Ok gv /\
    Deck gv = [] /\ Seed (Config gv) = 0 /\
    (forall p, Players gv !! 2%nat = Some p -> Cards p = (0, 0)) /\
    (Forall (fun p => viewAllIn p (getStage showdownOver) = true ->
                      viewIn p (getStage showdownOver) = true)
            (players showdownOver) /\
     Forall (fun p => viewIn p (getStage showdownOver) = false ->
                      viewBet p (getStage showdownOver) <= 0)
            (players showdownOver) /\
     ~ revealedAsWorded viewAllIn viewIn viewBet sampleRanking showdownOver 2).
Proof.
  destruct (GeneratePlayerView viewAllIn viewIn viewBet sampleRanking
              showdownOver 0) as [gv| |] eqn:E;
    [|vm_compute in E; discriminate|vm_compute in E; discriminate].
  exists gv. split; [reflexivity|].
  destruct (player_view_hides viewAllIn viewIn viewBet sampleRanking
              showdownOver 0 gv E) as [Hd [Hs [Hh Hw]]].
  split; [exact Hd|]. split; [exact Hs|].
  assert (Hend : ~ (handEnded viewIn showdownOver /\
                    (Z.of_nat 2 = calledNum showdownOver \/
                     revealedByWalk sampleRanking showdownOver 2 \/
                     revealedWinner showdownOver 2))).
  { intros [_ [Hc|[Hwalk|Hwin]]].
    - vm_compute in Hc. discriminate.
    - destruct Hwalk as [i [Hi [Hseat [_ Hle]]]].
      destruct i as [|[|[|i]]].
      + vm_compute in Hseat. discriminate.
      + vm_compute in Hle. apply Hle. reflexivity.
      + vm_compute in Hseat. discriminate.
      + simpl in Hi. lia.
    - destruct Hwin as [pot [Hpot Hq]]. simpl in Hpot.
      apply list_elem_of_singleton in Hpot. subst pot. simpl in Hq.
      apply list_elem_of_singleton in Hq. discriminate. }
  split.
  - intros p Hp. apply (Hh 2%nat p); [discriminate| |exact Hp].
    intros [[Hall _]|Hended]; [vm_compute in Hall; discriminate|].
    exact (Hend Hended).
  - split; [repeat constructor; discriminate|].
    split; [repeat constructor; discriminate|].
    intros [[Hall _]|Hended]; [vm_compute in Hall; discriminate|].
    exact (Hend Hended).
Defined.

(** C2, the claim as stated fails: a folded seat's bet does not stop the
    reveal. Seat 0 has bet 10 and folded, seat 1 is all-in, seat 2 has
    chips and no bet out; some seat has a positive current-round bet, so
    section 4.5 gives no all-in show-down and seat 2 is not in its reveal
    set, yet the view of seat 1 shows the hole cards of seat 2: the code
    counts the bets of active seats only. *)
Lemma folded_bet_does_not_stop_reveal :
  (allInShowdownAsWorded viewAllIn viewIn viewBet foldedBetTable = false /\
   ~ revealedAsWorded viewAllIn viewIn viewBet sampleRanking foldedBetTable 2) /\
  allInShowdown viewAllIn viewIn viewBet foldedBetTable = true /\
  Z.of_nat 2 <> 1 /\
  (fun gv => Cards <$> Players gv) <$>
    (match GeneratePlayerView viewAllIn viewIn viewBet sampleRanking
             foldedBetTable 1 with
     | Ok gv => Some gv
     | _ => None
     end) =
  Some [(0, 0); (10, 1); (9, 9)].
Proof.
  split; [split; [reflexivity|]|].
  - intros [[Hall _]|[[Hstage _] _]].
    + vm_compute in Hall. discriminate.
    + vm_compute in Hstage. discriminate.
  - split; [reflexivity|]. split; [discriminate|]. vm_compute. reflexivity.
Qed.

Example player_view_showdownOver :
  (fun gv => (Cards <$> Players gv, Deck gv, Seed (Config gv))) <$>
    (match GeneratePlayerView viewAllIn viewIn viewBet sampleRanking
             showdownOver 0 with
     | Ok gv => Some gv
     | _ => None
     end) =
  Some ([(7, 7); (10, 1); (0, 0)], [], 0).
Proof. vm_compute. reflexivity. Qed.

(** C3 on a table with all-in seats at 30 and 50, a third seat in for 80
    and a folded seat: the pot of the second level has the step 20 as
    ceiling and is open to the seats that put in at least 50; the final
    pot, if not empty, is recorded after the side pots. *)
Lemma side_pots_shape_witness :
  Forall (fun p => is_uint (TotalBet p)) (players twoLevelsTable) /\
  exists st,
    settle allIn sampleRanking twoLevelsTable [0; 1] = Ok st /\
    (exists q : Pot,
        sidePots st !! 1%nat = Some q /\ TopShare q = 20 /\
        EligblePlayerNums q = inAtLeast (players twoLevelsTable) 50) /\
    (Amt (finalPot st) <> 0 ->
     pots (recordPots twoLevelsTable st) = sidePots st ++ [finalPot st]).
Proof.
  assert (Hfit : Forall (fun p => is_uint (TotalBet p)) (players twoLevelsTable))
    by (repeat constructor; simpl; unfold wB; lia).
  split; [exact Hfit|].
  destruct (settle allIn sampleRanking twoLevelsTable [0; 1]) as [st| |] eqn:E;
    [|vm_compute in E; discriminate|vm_compute in E; discriminate].
  exists st. split; [reflexivity|].
  destruct (side_pots_shape allIn sampleRanking twoLevelsTable [0; 1] st Hfit E)
    as [_ [_ [Hpots [_ [_ Hrec]]]]].
  split; [|exact Hrec].
  destruct (Hpots 1%nat 1 eq_refl) as [q [Hq [Ht [_ He]]]].
  { exists 50. split; [reflexivity|]. intros j Hj.
    destruct j as [|j]; [discriminate | lia]. }
  exists q. split; [exact Hq|]. split; [exact Ht | exact He].
Defined.

(** C3, the claim as stated fails.
    - Two seats all-in for the same 50 and nobody else in the hand (the
      scenario of the specification): the loop builds two side pots, the
      second with a zero ceiling and no chips, although there is one
      level; the final pot is empty, and [updateRoundInfo] records no pot
      at all.
    - With two more seats calling above them the table records these two
      side pots and the final pot.
    - With all-in seats at 30, 50 and 50 the ceilings are 30, 20 and 0:
      no pot has the common 50 of the tied seats as its ceiling, and the
      third pot is open to seat 0 again, which the second was not.
    - With seat 0 all-in for 50 and two seats in for 100, the final pot
      is won by seat 0, the all-in seat. *)
Lemma tied_all_in_seats_give_two_pots :
  (totalBetOf (players tiedAllInTable) <$>
     allInSeats allIn (players tiedAllInTable) = [50; 50] /\
   (fun st => (fun q => (TopShare q, Amt q)) <$> sidePots st) <$>
     (match settle allIn sampleRanking tiedAllInTable [0; 1] with
      | Ok st => Some st
      | _ => None
      end) = Some [(50, 100); (0, 0)] /\
   pots <$>
     (match updateRoundInfo allIn returnChips sampleRanking tiedAllInTable with
      | Ok g' => Some g'
      | _ => None
      end) = Some []) /\
  (totalBetOf (players tiedAllInWithCallers) <$>
     allInSeats allIn (players tiedAllInWithCallers) = [50; 50] /\
   (fun g' => (fun q => (TopShare q, Amt q)) <$> pots g') <$>
     (match updateRoundInfo allIn returnChips sampleRanking
              tiedAllInWithCallers with
      | Ok g' => Some g'
      | _ => None
      end) = Some [(50, 200); (0, 0); (0, 60)]) /\
  (totalBetOf (players threeAllInTable) <$>
     allInSeats allIn (players threeAllInTable) = [30; 50; 50] /\
   (fun st => (fun q => (TopShare q, EligblePlayerNums q)) <$> sidePots st) <$>
     (match settle allIn sampleRanking threeAllInTable [0; 1; 2] with
      | Ok st => Some st
      | _ => None
      end) = Some [(30, [0; 1; 2]); (20, [1; 2]); (0, [0; 1; 2])]) /\
  (allInSeats allIn (players allInWinnerTable) = [0] /\
   (fun st => (Amt (finalPot st), WinningPlayerNums (finalPot st))) <$>
     (match settle allIn sampleRanking allInWinnerTable [0] with
      | Ok st => Some st
      | _ => None
      end) = Some (100, [0])).
Proof. repeat split; vm_compute; reflexivity. Qed.

(** * Further properties of [game.go] *)

(** ** The status word (lines 81-108) *)

Lemma land_240_small (s : Z) : 0 <= s < 8 -> Z.land s 240 = 0.
Proof.
  intros H.
  assert (s = 0 \/ s = 1 \/ s = 2 \/ s = 3 \/ s = 4 \/ s = 5 \/ s = 6 \/ s = 7)
    as Hs by lia.
  repeat (destruct Hs as [->|Hs]; [reflexivity|]). subst. reflexivity.
Qed.

(** X1. Writing a stage that fits three bits and a betting flag into the
    status word and reading them back gives the values written, and the
    four high bits of the word, which carry nothing, are left as they
    were. *)
Theorem status_word_round_trip (g : Game) (s : Z) (b : bool) :
  0 <= s < 8 ->
  getStage (setStageAndBetting g s b) = s /\
  getBetting (setStageAndBetting g s b) = b /\
  Z.land (flags (setStageAndBetting g s b)) 240 = Z.land (flags g) 240.
Proof.
  intros Hs. split; [apply getStage_setStageAndBetting, Hs|].
  split; [apply getBetting_setStageAndBetting, Hs|].
  pose proof (land_240_small s Hs) as H240.
  unfold setStageAndBetting, setBetting, setStage. destruct b; simpl.
  - rewrite !Z.land_lor_distr_l, <- Z.land_assoc.
    change (Z.land 248 240) with 240. change (Z.land 8 240) with 0.
    rewrite H240, !Z.lor_0_r. reflexivity.
  - rewrite <- Z.land_assoc. change (Z.land 247 240) with 240.
    rewrite Z.land_lor_distr_l, <- Z.land_assoc.
    change (Z.land 248 240) with 240. rewrite H240, Z.lor_0_r. reflexivity.
Qed.

Lemma status_word_round_trip_witness :
  0 <= River < 8 /\
  getStage (setStageAndBetting NewGame River true) = River /\
  getBetting (setStageAndBetting NewGame River true) = true /\
  Z.land (flags (setStageAndBetting NewGame River true)) 240 =
  Z.land (flags NewGame) 240.
Proof.
  split; [unfold River; lia|].
  apply (status_word_round_trip NewGame River true). unfold River. lia.
Defined.

(** X2. The two halves of the status word do not disturb each other:
    setting the betting flag leaves the stage alone, and setting a stage
    that fits three bits leaves the betting flag alone. *)
Theorem status_setters_independent (g : Game) (s : Z) (b : bool) :
  0 <= s < 8 ->
  getStage (setBetting g b) = getStage g /\
  getBetting (setStage g s) = getBetting g.
Proof.
  intros Hs. destruct (land_small s Hs) as [_ H8]. split.
  - unfold getStage, setBetting. destruct b; simpl.
    + rewrite Z.land_lor_distr_l. change (Z.land 8 7) with 0.
      rewrite Z.lor_0_r. reflexivity.
    + rewrite <- Z.land_assoc. reflexivity.
  - unfold getBetting, setStage. simpl.
    rewrite Z.land_lor_distr_l, <- Z.land_assoc, H8, Z.lor_0_r. reflexivity.
Qed.

Lemma status_setters_independent_witness :
  0 <= Turn < 8 /\
  getStage (setBetting openBetTable false) = getStage openBetTable /\
  getBetting (setStage openBetTable Turn) = getBetting openBetTable.
Proof.
  split; [unfold Turn; lia|].
  apply (status_setters_independent openBetTable Turn false). unfold Turn. lia.
Defined.

(** ** Seat lookup and the bet to call (lines 110-115 and 184-194) *)

(** X3. [getPlayer] answers [ErrBadPlayerNum] exactly for the seat
    numbers at or past the seat count and the player on the seat for the
    others: it never reads the slice out of range. *)
Theorem getPlayer_checks_seat (g : Game) (pn : Z) :
  0 <= pn ->
  (len (players g) <= pn -> getPlayer g pn = inr ErrBadPlayerNum) /\
  (pn < len (players g) ->
   exists p, players g !! Z.to_nat pn = Some p /\ getPlayer g pn = inl p /\
             at_ (players g) pn = Ok p).
Proof.
  intros Hpn. unfold getPlayer. split; intros H.
  - destruct (Z.leb_spec (len (players g)) pn); [reflexivity | lia].
  - destruct (Z.leb_spec (len (players g)) pn); [lia|].
    destruct (at_in_range (players g) pn ltac:(lia)) as [p Hp].
    exists p. pose proof Hp as Hp'. apply at_Ok in Hp'.
    destruct Hp' as [_ Hl]. rewrite Hl. auto.
Qed.

Lemma getPlayer_checks_seat_witness :
  0 <= 2 /\
  (len (players openBetTable) <= 2 ->
   getPlayer openBetTable 2 = inr ErrBadPlayerNum) /\
  (2 < len (players openBetTable) ->
   exists p, players openBetTable !! Z.to_nat 2 = Some p /\
             getPlayer openBetTable 2 = inl p /\
             at_ (players openBetTable) 2 = Ok p).
Proof.
  split; [lia|]. apply (getPlayer_checks_seat openBetTable 2). lia.
Defined.

Lemma toCall_fold (ps : list Player) (v : Z) :
  v <= fold_left (fun val q => if Bet q >? val then Bet q else val) ps v /\
  Forall (fun p =>
            Bet p <=
            fold_left (fun val q => if Bet q >? val then Bet q else val) ps v)
         ps /\
  (fold_left (fun val q => if Bet q >? val then Bet q else val) ps v = v \/
   exists p, p ∈ ps /\
             Bet p =
             fold_left (fun val q => if Bet q >? val then Bet q else val) ps v).
Proof.
  revert v. induction ps as [|p ps IH]; intros v.
  - simpl. split; [lia|]. split; [constructor | left; reflexivity].
  - cbn [fold_left].
    destruct (IH (if Bet p >? v then Bet p else v)) as [Hge [Hall Hhit]].
    destruct (Z.gtb_spec (Bet p) v) as [Hgt|Hle].
    + split; [lia|]. split.
      * constructor; [exact Hge | exact Hall].
      * right. destruct Hhit as [Heq|[q [Hq Hb]]].
        -- exists p. split; [left | symmetry; exact Heq].
        -- exists q. split; [right; exact Hq | exact Hb].
    + split; [lia|]. split.
      * constructor; [lia | exact Hall].
      * destruct Hhit as [Heq|[q [Hq Hb]]]; [left; exact Heq|].
        right. exists q. split; [right; exact Hq | exact Hb].
Qed.

(** X4. [toCall] is the highest current-round bet at the table: no
    player's [Bet] exceeds it, and it is the [Bet] of some player unless
    it is zero. *)
Theorem toCall_is_highest_bet (g : Game) :
  0 <= toCall g /\
  Forall (fun p => Bet p <= toCall g) (players g) /\
  (toCall g = 0 \/ exists p, p ∈ players g /\ Bet p = toCall g).
Proof. apply (toCall_fold (players g) 0). Qed.

(** ** Looking for the next seat (lines 133-136 and 260-262) *)

Section SeekSeatFacts.

Variable want : Player -> bool.
Variable ps : list Player.
Hypothesis seats_fit : len ps <= wB.

Lemma seekSeat_finds (k : nat) :
  forall (fuel : nat) (n : Z),
    0 <= n < len ps -> (k < fuel)%nat ->
    (forall j : nat, (j < k)%nat ->
                     wantAt want ps ((n + Z.of_nat j) mod len ps) = false) ->
    wantAt want ps ((n + Z.of_nat k) mod len ps) = true ->
    seekSeat want fuel ps n = Ok ((n + Z.of_nat k) mod len ps).
Proof.
  induction k as [|k IH]; intros fuel n Hn Hfuel Hbefore Hk.
  - destruct fuel as [|fuel]; [lia|]. simpl.
    rewrite Z.add_0_r, Z.mod_small in * by lia.
    unfold wantAt in Hk. destruct (at_ ps n) as [p| |]; try discriminate.
    simpl. rewrite Hk. reflexivity.
  - destruct fuel as [|fuel]; [lia|]. simpl.
    pose proof (Hbefore O ltac:(lia)) as H0.
    rewrite Z.add_0_r, Z.mod_small in H0 by lia.
    destruct (at_in_range ps n Hn) as [p Hp].
    unfold wantAt in H0. rewrite Hp in H0. rewrite Hp. simpl. rewrite H0.
    rewrite (nextSeat_in_range ps seats_fit n Hn). simpl.
    assert (Hshift : forall j : nat,
               ((n + 1) mod len ps + Z.of_nat j) mod len ps =
               (n + Z.of_nat (S j)) mod len ps).
    { intros j. rewrite Zplus_mod_idemp_l. f_equal. lia. }
    rewrite <- Hshift. apply IH.
    + apply Z.mod_pos_bound. lia.
    + lia.
    + intros j Hj. rewrite Hshift. apply Hbefore. lia.
    + rewrite Hshift. exact Hk.
Qed.

Lemma seekSeat_spec (n : Z) :
  0 <= n < len ps ->
  (exists (r : nat) (p : Player), ps !! r = Some p /\ want p = true) ->
  exists s : Z,
    seekSeat want (S (length ps)) ps n = Ok s /\ firstSeatFrom want ps n s.
Proof.
  intros Hn [r [p [Hr Hp]]].
  assert (Hlen : (r < length ps)%nat) by (apply lookup_lt_Some in Hr; exact Hr).
  assert (HL : 0 < len ps) by lia.
  set (k0 := Z.to_nat ((Z.of_nat r - n) mod len ps)).
  assert (Hk0 : wantAt want ps ((n + Z.of_nat k0) mod len ps) = true).
  { unfold k0. rewrite Z2Nat.id by (apply Z.mod_pos_bound; lia).
    rewrite Zplus_mod_idemp_r.
    replace (n + (Z.of_nat r - n)) with (Z.of_nat r) by lia.
    rewrite Z.mod_small by (unfold len; lia).
    unfold wantAt. rewrite (at_of_nat _ _ _ Hr). exact Hp. }
  destruct (least_true
              (fun k => wantAt want ps ((n + Z.of_nat k) mod len ps)) k0 Hk0)
    as [k [Hle [Hk Hmin]]].
  assert (Hk0lt : (k0 < length ps)%nat).
  { unfold k0. pose proof (Z.mod_pos_bound (Z.of_nat r - n) (len ps) HL).
    unfold len in *. lia. }
  exists ((n + Z.of_nat k) mod len ps). split.
  - apply seekSeat_finds; [exact Hn | lia | exact Hmin | exact Hk].
  - exists k. split; [lia|]. split; [reflexivity|]. split; [exact Hk | exact Hmin].
Qed.

Lemma seekSeat_none (fuel : nat) :
  Forall (fun p => want p = false) ps ->
  forall n : Z, 0 <= n < len ps -> seekSeat want fuel ps n = Diverge.
Proof.
  intros Hnone. induction fuel as [|fuel IH]; intros n Hn; [reflexivity|].
  simpl. destruct (at_in_range ps n Hn) as [p Hp]. rewrite Hp. simpl.
  apply at_Ok in Hp. destruct Hp as [_ Hp].
  rewrite (Forall_lookup_1 _ _ _ _ Hnone Hp).
  rewrite (nextSeat_in_range ps seats_fit n Hn). simpl.
  apply IH. apply Z.mod_pos_bound. lia.
Qed.

Lemma firstSeatFrom_mod (n s : Z) :
  firstSeatFrom want ps (n mod len ps) s -> firstSeatFrom want ps n s.
Proof.
  intros [k [Hk [Hs [Hw Hmin]]]]. exists k.
  rewrite Zplus_mod_idemp_l in Hs. split; [exact Hk|]. split; [exact Hs|].
  split; [exact Hw|]. intros j Hj. specialize (Hmin j Hj).
  rewrite Zplus_mod_idemp_l in Hmin. exact Hmin.
Qed.

End SeekSeatFacts.

Lemma seekSeat_Ok (want : Player -> bool) (ps : list Player) (fuel : nat) :
  forall n a : Z, seekSeat want fuel ps n = Ok a -> wantAt want ps a = true.
Proof.
  induction fuel as [|fuel IH]; intros n a H; [discriminate|].
  simpl in H. destruct (at_ ps n) as [p| |] eqn:E; try discriminate.
  simpl in H. destruct (want p) eqn:W.
  - inversion H; subst. unfold wantAt. rewrite E. exact W.
  - destruct (nextSeat ps n) as [n'| |]; try discriminate.
    simpl in H. apply (IH n' a H).
Qed.

(** ** Opening a betting round (lines 132-145) *)

Lemma toCall_no_bets (ps : list Player) :
  fold_left (fun val q => if Bet q >? val then Bet q else val)
    ((fun p => setBet p 0) <$> ps) 0 = 0.
Proof. induction ps as [|p ps IH]; [reflexivity | exact IH]. Qed.

(** X5. On a table whose seat count fits a [uint] and where some seat is
    in the hand, [initStage] returns: the action is on the first seat in
    the hand met when walking round the table from the seat after the
    dealer, every [Bet] is zero, the minimum raise is the big blind, and
    nothing else has changed. *)
Theorem initStage_returns (g : Game) :
  len (players g) <= wB ->
  (exists (r : nat) (p : Player), players g !! r = Some p /\ In p = true) ->
  exists a : Z,
    initStage g =
    Ok (set_minRaise
          (set_players (set_actionNum g a) ((fun p => setBet p 0) <$> players g))
          (BigBlind (config g))) /\
    firstSeatFrom In (players g) (uadd (dealerNum g) 1) a.
Proof.
  intros Hfit Hex.
  assert (HL : 0 < len (players g)).
  { destruct Hex as [r [p [Hr _]]]. apply lookup_lt_Some in Hr.
    unfold len. lia. }
  destruct (seekSeat_spec In (players g) Hfit
              (uadd (dealerNum g) 1 mod len (players g))
              ltac:(apply Z.mod_pos_bound; lia) Hex) as [a [Ha Hspec]].
  exists a. split.
  - unfold initStage, nextSeat, umod.
    destruct (Z.eqb_spec (len (players g)) 0) as [E|_]; [lia|].
    cbn [obind]. rewrite Ha. reflexivity.
  - apply firstSeatFrom_mod, Hspec.
Qed.

Lemma initStage_returns_witness :
  len (players openBetTable) <= wB /\
  (exists (r : nat) (p : Player),
      players openBetTable !! r = Some p /\ In p = true) /\
  exists a : Z,
    initStage openBetTable =
    Ok (set_minRaise
          (set_players (set_actionNum openBetTable a)
             ((fun p => setBet p 0) <$> players openBetTable))
          (BigBlind (config openBetTable))) /\
    firstSeatFrom In (players openBetTable) (uadd (dealerNum openBetTable) 1) a.
Proof.
  assert (Hfit : len (players openBetTable) <= wB) by (vm_compute; discriminate).
  assert (Hex : exists (r : nat) (p : Player),
             players openBetTable !! r = Some p /\ In p = true).
  { exists 1%nat. eexists. split; reflexivity. }
  split; [exact Hfit|]. split; [exact Hex|].
  exact (initStage_returns openBetTable Hfit Hex).
Defined.

(** X6. Whenever [initStage] returns, the round it opens has nothing to
    call: the players are those of before with their [Bet] zeroed, the
    bet to call is zero, every seat counts as called whatever the
    all-in test answers, the action is on a seat that is in the hand, and
    the minimum raise is the big blind. *)
Theorem initStage_opens_round (allIn : Player -> bool) (g g' : Game) :
  initStage g = Ok g' ->
  players g' = (fun p => setBet p 0) <$> players g /\
  toCall g' = 0 /\
  everyoneCalled allIn g' = true /\
  wantAt In (players g') (actionNum g') = true /\
  minRaise g' = BigBlind (config g') /\
  dealerNum g' = dealerNum g.
Proof.
  unfold initStage. intros H.
  apply obind_Ok in H. destruct H as [start [_ H]].
  apply obind_Ok in H. destruct H as [a [Ha H]].
  inversion H; subst g'; clear H.
  cbn [players set_minRaise set_players set_actionNum actionNum minRaise
       config dealerNum].
  assert (Hcall : toCall
             (set_minRaise
                (set_players (set_actionNum g a)
                   ((fun p => setBet p 0) <$> players g))
                (BigBlind (config g))) = 0)
    by (unfold toCall; apply toCall_no_bets).
  split; [reflexivity|]. split; [exact Hcall|]. split.
  - unfold everyoneCalled. rewrite Hcall.
    cbn [players set_minRaise set_players].
    apply forallb_forall. intros p Hp. apply in_map_iff in Hp.
    destruct Hp as [q [<- _]]. simpl. rewrite !orb_true_r. reflexivity.
  - split; [|split; reflexivity].
    apply seekSeat_Ok in Ha. unfold wantAt, at_ in *.
    destruct (a <? 0); [discriminate|]. rewrite list_lookup_fmap.
    destruct (players g !! Z.to_nat a) as [p|]; [exact Ha | discriminate].
Qed.

Lemma initStage_opens_round_witness :
  exists g',
    initStage openBetTable = Ok g' /\
    players g' = (fun p => setBet p 0) <$> players openBetTable /\
    toCall g' = 0 /\
    everyoneCalled allIn g' = true /\
    wantAt In (players g') (actionNum g') = true /\
    minRaise g' = BigBlind (config g') /\
    dealerNum g' = dealerNum openBetTable.
Proof.
  destruct (initStage openBetTable) as [g'| |] eqn:E;
    [|vm_compute in E; discriminate|vm_compute in E; discriminate].
  exists g'. split; [reflexivity|].
  exact (initStage_opens_round allIn openBetTable g' E).
Defined.

(** X7. [initStage] does not check that the hand has a player: with no
    seat in the hand it panics on a table without seats (the remainder by
    a zero seat count) and otherwise walks round the table for ever. *)
Theorem initStage_without_player (g : Game) :
  len (players g) <= wB ->
  noneIn (players g) ->
  initStage g = match players g with [] => Panic | _ => Diverge end.
Proof.
  intros Hfit Hnone. unfold initStage, nextSeat, umod.
  destruct (players g) as [|p ps] eqn:E; [reflexivity|].
  destruct (Z.eqb_spec (len (p :: ps)) 0) as [E0|_]; [discriminate|].
  cbn [obind].
  rewrite (seekSeat_none In (p :: ps) Hfit _ Hnone); [reflexivity|].
  apply Z.mod_pos_bound. unfold len. simpl length. lia.
Qed.

Lemma initStage_without_player_witness :
  len (players loneFoldedSeat) <= wB /\
  noneIn (players loneFoldedSeat) /\
  initStage loneFoldedSeat =
  match players loneFoldedSeat with [] => Panic | _ => Diverge end.
Proof.
  assert (Hfit : len (players loneFoldedSeat) <= wB) by (vm_compute; discriminate).
  assert (Hnone : noneIn (players loneFoldedSeat)) by (repeat constructor).
  split; [exact Hfit|]. split; [exact Hnone|].
  exact (initStage_without_player loneFoldedSeat Hfit Hnone).
Defined.

(** ** Moving the action (lines 257-265) *)

Lemma forallb_false {A : Type} (f : A -> bool) (l : list A) :
  forallb f l = false -> exists (i : nat) (x : A), l !! i = Some x /\ f x = false.
Proof.
  induction l as [|x l IH]; [discriminate|]. simpl. intros H.
  destruct (f x) eqn:E.
  - destruct (IH H) as [i [y [Hi Hy]]]. exists (S i), y. auto.
  - exists O, x. auto.
Qed.

Section ActionFacts.

Variable allIn : Player -> bool.
Variable returnChips : Player -> Z -> Player.
Variable BestFiveOfSeven :
  Card -> Card -> Card -> Card -> Card -> Card -> Card -> list Card * Z.

Let run := updateRoundInfo allIn returnChips BestFiveOfSeven.

Lemma set_actionNum_same (g : Game) : set_actionNum g (actionNum g) = g.
Proof. destruct g; reflexivity. Qed.

Lemma advanceAction_seek (fuel : nat) :
  forall g : Game,
    advanceAction allIn fuel g =
    (a <~ seekSeat (owesCall allIn g) fuel (players g) (actionNum g) ;;
     Ok (set_actionNum g a)).
Proof.
  induction fuel as [|fuel IH]; intros g; [reflexivity|].
  cbn [advanceAction seekSeat]. unfold isCalled.
  destruct (at_ (players g) (actionNum g)) as [p| |] eqn:E; cbn [obind];
    try reflexivity.
  unfold owesCall at 1.
  destruct (allIn p || (Bet p =? toCall g) || allIn p || negb (In p)) eqn:C;
    cbn [negb].
  - destruct (nextSeat (players g) (actionNum g)) as [n| |]; cbn [obind];
      try reflexivity.
    rewrite IH. reflexivity.
  - cbn [obind]. rewrite set_actionNum_same. reflexivity.
Qed.

(** X8. With two or more seats in the hand, one of which has neither
    called nor gone all-in, and the action on a seat of the table,
    [updateRoundInfo] returns having changed the seat to act only: the
    action is on the first seat that is in the hand, not all-in and short
    of the bet to call, met when walking round the table from the
    current seat to act, that seat included. *)
Theorem updateRoundInfo_moves_action (g : Game) :
  len (players g) <= wB ->
  2 <= len (inSeats (players g)) ->
  everyoneCalled allIn g = false ->
  0 <= actionNum g < len (players g) ->
  exists a : Z,
    run g = Ok (set_actionNum g a) /\
    firstSeatFrom (owesCall allIn g) (players g) (actionNum g) a.
Proof.
  intros Hfit Hin Hcalled Hact.
  assert (Hex : exists (r : nat) (p : Player),
             players g !! r = Some p /\ owesCall allIn g p = true).
  { unfold everyoneCalled in Hcalled. apply forallb_false in Hcalled.
    destruct Hcalled as [r [p [Hr Hp]]]. exists r, p. split; [exact Hr|].
    unfold owesCall. destruct (In p), (allIn p), (Bet p =? toCall g);
      simpl in *; congruence. }
  destruct (seekSeat_spec (owesCall allIn g) (players g) Hfit (actionNum g)
              Hact Hex) as [a [Ha Hspec]].
  exists a. split; [|exact Hspec].
  unfold run, updateRoundInfo. rewrite scanPlayers_Ok.
  cbn [obind inPlayerNums allInPlayerNums allCalled].
  destruct (Z.ltb_spec (len (inSeats (players g))) 2) as [Hlt|_]; [lia|].
  rewrite Hcalled. cbn [negb]. rewrite advanceAction_seek, Ha. reflexivity.
Qed.

(** X9. In the same situation with the action on a seat number at or
    past the seat count, [updateRoundInfo] panics on its first test of
    the seat to act. *)
Theorem updateRoundInfo_action_off_table (g : Game) :
  2 <= len (inSeats (players g)) ->
  everyoneCalled allIn g = false ->
  len (players g) <= actionNum g ->
  run g = Panic.
Proof.
  intros Hin Hcalled Hact.
  unfold run, updateRoundInfo. rewrite scanPlayers_Ok.
  cbn [obind inPlayerNums allInPlayerNums allCalled].
  destruct (Z.ltb_spec (len (inSeats (players g))) 2) as [Hlt|_]; [lia|].
  rewrite Hcalled. cbn [negb advanceAction]. unfold isCalled, at_.
  destruct (actionNum g <? 0); [reflexivity|].
  rewrite lookup_ge_None_2; [reflexivity|]. unfold len in Hact. lia.
Qed.

(** X10. With two or more seats in the hand that are not all-in,
    everyone called, and a stage other than the river,
    [updateRoundInfo] closes the betting and changes nothing else. *)
Theorem updateRoundInfo_closes_round (g : Game) :
  2 <= len (inSeats (players g)) - len (allInSeats allIn (players g)) ->
  everyoneCalled allIn g = true ->
  getStage g <> River ->
  run g = Ok (setBetting g false) /\
  getStage (setBetting g false) = getStage g /\
  getBetting (setBetting g false) = false.
Proof.
  intros Hin Hcalled Hstage.
  assert (0 <= len (allInSeats allIn (players g))) by (unfold len; lia).
  split.
  - unfold run. rewrite updateRoundInfo_all_called by (auto; lia).
    destruct (Z.ltb_spec
                (len (inSeats (players g)) -
                 len (allInSeats allIn (players g))) 2) as [Hlt|_]; [lia|].
    cbn [obind]. destruct (Z.eqb_spec (getStage g) River); [contradiction|].
    reflexivity.
  - unfold getStage, getBetting, setBetting. simpl. split.
    + rewrite <- Z.land_assoc. reflexivity.
    + rewrite <- Z.land_assoc. change (Z.land 247 8) with 0.
      rewrite Z.land_0_r. reflexivity.
Qed.

End ActionFacts.

Lemma updateRoundInfo_moves_action_witness :
  len (players openBetTable) <= wB /\
  2 <= len (inSeats (players openBetTable)) /\
  everyoneCalled allIn openBetTable = false /\
  0 <= actionNum openBetTable < len (players openBetTable) /\
  exists a : Z,
    updateRoundInfo allIn returnChips sampleRanking openBetTable =
    Ok (set_actionNum openBetTable a) /\
    firstSeatFrom (owesCall allIn openBetTable) (players openBetTable)
      (actionNum openBetTable) a.
Proof.
  assert (Hfit : len (players openBetTable) <= wB) by (vm_compute; discriminate).
  assert (Hin : 2 <= len (inSeats (players openBetTable)))
    by (vm_compute; discriminate).
  assert (Hcalled : everyoneCalled allIn openBetTable = false) by reflexivity.
  assert (Hact : 0 <= actionNum openBetTable < len (players openBetTable))
    by (split; vm_compute; [discriminate | reflexivity]).
  split; [exact Hfit|]. split; [exact Hin|]. split; [exact Hcalled|].
  split; [exact Hact|].
  exact (updateRoundInfo_moves_action allIn returnChips sampleRanking
           openBetTable Hfit Hin Hcalled Hact).
Defined.

Lemma updateRoundInfo_action_off_table_witness :
  2 <= len (inSeats (players (set_actionNum openBetTable 4))) /\
  everyoneCalled allIn (set_actionNum openBetTable 4) = false /\
  len (players (set_actionNum openBetTable 4)) <=
  actionNum (set_actionNum openBetTable 4) /\
  updateRoundInfo allIn returnChips sampleRanking
    (set_actionNum openBetTable 4) = Panic.
Proof.
  assert (Hin : 2 <= len (inSeats (players (set_actionNum openBetTable 4))))
    by (vm_compute; discriminate).
  assert (Hcalled : everyoneCalled allIn (set_actionNum openBetTable 4) = false)
    by reflexivity.
  assert (Hact : len (players (set_actionNum openBetTable 4)) <=
                 actionNum (set_actionNum openBetTable 4))
    by (vm_compute; discriminate).
  split; [exact Hin|]. split; [exact Hcalled|]. split; [exact Hact|].
  exact (updateRoundInfo_action_off_table allIn returnChips sampleRanking
           (set_actionNum openBetTable 4) Hin Hcalled Hact).
Defined.

Lemma updateRoundInfo_closes_round_witness :
  2 <= len (inSeats (players calledTable)) -
       len (allInSeats allIn (players calledTable)) /\
  everyoneCalled allIn calledTable = true /\
  getStage calledTable <> River /\
  updateRoundInfo allIn returnChips sampleRanking calledTable =
  Ok (setBetting calledTable false) /\
  getStage (setBetting calledTable false) = getStage calledTable /\
  getBetting (setBetting calledTable false) = false.
Proof.
  assert (Hin : 2 <= len (inSeats (players calledTable)) -
                     len (allInSeats allIn (players calledTable)))
    by (vm_compute; discriminate).
  assert (Hcalled : everyoneCalled allIn calledTable = true) by reflexivity.
  assert (Hstage : getStage calledTable <> River) by (vm_compute; discriminate).
  split; [exact Hin|]. split; [exact Hcalled|]. split; [exact Hstage|].
  exact (updateRoundInfo_closes_round allIn returnChips sampleRanking
           calledTable Hin Hcalled Hstage).
Defined.

(** ** The reset for the next hand (lines 206-225) *)

Lemma seekReady_Ok (ps : list Player) (fuel : nat) :
  forall n a : Z, seekReady fuel ps n = Ok a -> readyAt ps a = true.
Proof.
  induction fuel as [|fuel IH]; intros n a H; [discriminate|].
  simpl in H. destruct (at_ ps n) as [p| |] eqn:E; try discriminate.
  simpl in H. destruct (Ready p) eqn:W.
  - inversion H; subst. unfold readyAt. rewrite E. exact W.
  - destruct (nextSeat ps n) as [n'| |]; try discriminate.
    simpl in H. apply (IH n' a H).
Qed.

Lemma resetForNextHand_Ok (g g' : Game) :
  resetForNextHand g = Ok g' ->
  players g' = resetPlayer <$> players g /\
  readyAt (players g') (dealerNum g') = true /\
  getStage g' = PreDeal /\ getBetting g' = false /\ pots g' = pots g.
Proof.
  unfold resetForNextHand. intros H.
  apply obind_Ok in H. destruct H as [d [Hd H]].
  apply seekReady_Ok in Hd. cbn [players set_players set_dealerNum] in Hd.
  assert (Hg : g' = setStageAndBetting
                      (set_dealerNum (set_players g (resetPlayer <$> players g)) d)
                      PreDeal false) by (inversion H; reflexivity).
  subst g'. clear H.
  split; [reflexivity|]. split; [exact Hd|].
  split; [apply getStage_setStageAndBetting; unfold PreDeal; lia|].
  split; [apply getBetting_setStageAndBetting; unfold PreDeal; lia|].
  reflexivity.
Qed.

Lemma resetPlayer_facts (p : Player) :
  In (resetPlayer p) = false /\ Bet (resetPlayer p) = 0 /\
  TotalBet (resetPlayer p) = 0 /\ Stack (resetPlayer p) = Stack p /\
  Cards (resetPlayer p) = Cards p /\
  Ready (resetPlayer p) = Ready p && negb (Stack p =? 0).
Proof.
  unfold resetPlayer. cbn [Stack setTotalBet setBet setIn].
  destruct (Stack p =? 0); cbn; rewrite ?andb_true_r, ?andb_false_r; auto 10.
Qed.

(** X11. Whenever [resetForNextHand] returns, seat by seat: the player
    is out of the hand with no bet left, keeps their stack and cards,
    and is ready only if they were and still have chips; the dealer
    button is on a seat that is ready, hence funded; the status is
    (PreDeal, not betting); the pots on record are untouched. *)
Theorem resetForNextHand_post (g g' : Game) :
  resetForNextHand g = Ok g' ->
  Forall2 (fun p p' =>
             In p' = false /\ Bet p' = 0 /\ TotalBet p' = 0 /\
             Stack p' = Stack p /\ Cards p' = Cards p /\
             Ready p' = Ready p && negb (Stack p =? 0))
          (players g) (players g') /\
  (exists d, at_ (players g') (dealerNum g') = Ok d /\
             Ready d = true /\ Stack d <> 0) /\
  getStage g' = PreDeal /\ getBetting g' = false /\ pots g' = pots g.
Proof.
  intros H. destruct (resetForNextHand_Ok g g' H) as [Hps [Hd Hrest]].
  split; [|split; [|exact Hrest]].
  - rewrite Hps. apply Forall2_fmap_r, Forall_Forall2_diag, Forall_forall.
    intros p _. apply resetPlayer_facts.
  - unfold readyAt in Hd.
    destruct (at_ (players g') (dealerNum g')) as [d| |] eqn:E; try discriminate.
    exists d. split; [reflexivity|]. split; [exact Hd|].
    apply at_Ok in E. destruct E as [_ E]. rewrite Hps, list_lookup_fmap in E.
    destruct (players g !! Z.to_nat (dealerNum g')) as [p|]; [|discriminate].
    inversion E; subst d.
    destruct (resetPlayer_facts p) as [_ [_ [_ [Hs [_ Hr]]]]].
    rewrite Hr in Hd. apply andb_true_iff in Hd. destruct Hd as [_ Hd].
    rewrite Hs. destruct (Z.eqb_spec (Stack p) 0); [discriminate | assumption].
Qed.

Lemma resetForNextHand_post_witness :
  exists g',
    resetForNextHand threeReady = Ok g' /\
    Forall2 (fun p p' =>
               In p' = false /\ Bet p' = 0 /\ TotalBet p' = 0 /\
               Stack p' = Stack p /\ Cards p' = Cards p /\
               Ready p' = Ready p && negb (Stack p =? 0))
            (players threeReady) (players g') /\
    (exists d, at_ (players g') (dealerNum g') = Ok d /\
               Ready d = true /\ Stack d <> 0) /\
    getStage g' = PreDeal /\ getBetting g' = false /\
    pots g' = pots threeReady.
Proof.
  destruct (resetForNextHand threeReady) as [g'| |] eqn:E;
    [|vm_compute in E; discriminate|vm_compute in E; discriminate].
  exists g'. split; [reflexivity|].
  exact (resetForNextHand_post threeReady g' E).
Defined.

(** X12. With the seat after the dealer on the table and every ready
    seat out of chips, [resetForNextHand] marks them all not ready and
    then looks for a ready seat for ever. *)
Theorem resetForNextHand_all_busted (g : Game) :
  len (players g) <= wB ->
  uadd (dealerNum g) 1 < len (players g) ->
  Forall (fun p => Ready p = true -> Stack p = 0) (players g) ->
  resetForNextHand g = Diverge.
Proof.
  intros Hfit Hnext Hbust. unfold resetForNextHand.
  cbn [players set_players set_dealerNum dealerNum].
  assert (Hlen : len (resetPlayer <$> players g) = len (players g))
    by (unfold len; rewrite length_fmap; reflexivity).
  rewrite (seekReady_never_ready (resetPlayer <$> players g)); [reflexivity| | |].
  - rewrite Hlen. exact Hfit.
  - apply Forall_fmap. eapply Forall_impl; [exact Hbust|].
    intros p Hp. simpl. destruct (resetPlayer_facts p) as [_ [_ [_ [_ [_ Hr]]]]].
    rewrite Hr. destruct (Ready p) eqn:Er; [|reflexivity].
    rewrite (Hp Er). reflexivity.
  - rewrite Hlen. split; [|exact Hnext].
    unfold uadd. apply Z.mod_pos_bound. reflexivity.
Qed.

Lemma resetForNextHand_all_busted_witness :
  len (players bustedTable) <= wB /\
  uadd (dealerNum bustedTable) 1 < len (players bustedTable) /\
  Forall (fun p => Ready p = true -> Stack p = 0) (players bustedTable) /\
  resetForNextHand bustedTable = Diverge.
Proof.
  assert (Hfit : len (players bustedTable) <= wB) by (vm_compute; discriminate).
  assert (Hnext : uadd (dealerNum bustedTable) 1 < len (players bustedTable))
    by (vm_compute; reflexivity).
  assert (Hbust : Forall (fun p => Ready p = true -> Stack p = 0)
                    (players bustedTable)).
  { constructor; [reflexivity|]. constructor; [discriminate | constructor]. }
  split; [exact Hfit|]. split; [exact Hnext|]. split; [exact Hbust|].
  exact (resetForNextHand_all_busted bustedTable Hfit Hnext Hbust).
Defined.

(** ** The overbet refund (lines 272-286) *)

Lemma totalBetOf_at (ps : list Player) (i : Z) (p : Player) :
  at_ ps i = Ok p -> totalBetOf ps i = TotalBet p.
Proof.
  intros H. apply at_Ok in H. destruct H as [_ H].
  unfold totalBetOf. rewrite H. reflexivity.
Qed.

Lemma topBettors_fold (g : Game) (l : list Z) :
  forall t t' : Z * Z,
    foldM (topBettorStep g) l t = Ok t' ->
    totalBetOf (players g) t.2 <= totalBetOf (players g) t.1 ->
    totalBetOf (players g) t'.2 <= totalBetOf (players g) t'.1 /\
    totalBetOf (players g) t.1 <= totalBetOf (players g) t'.1 /\
    Forall (fun ndx => totalBetOf (players g) ndx <=
                       totalBetOf (players g) t'.1) l /\
    (t'.1 = t.1 \/ t'.1 ∈ l) /\
    (t'.2 = t.2 \/ t'.2 = t.1 \/ t'.2 ∈ l).
Proof.
  induction l as [|ndx l IH]; intros [a b] t' H Hord.
  - simpl in H. inversion H; subst t'. cbn [fst snd] in *.
    split; [exact Hord|]. split; [lia|]. split; [constructor|]. auto.
  - cbn [foldM] in H. apply obind_Ok in H. destruct H as [t1 [Hstep Hrest]].
    cbn [fst snd] in Hord.
    assert (Hstep' :
              totalBetOf (players g) t1.2 <= totalBetOf (players g) t1.1 /\
              totalBetOf (players g) a <= totalBetOf (players g) t1.1 /\
              totalBetOf (players g) ndx <= totalBetOf (players g) t1.1 /\
              (t1.1 = a \/ t1.1 = ndx) /\
              (t1.2 = b \/ t1.2 = a \/ t1.2 = ndx)).
    { unfold topBettorStep in Hstep.
      apply obind_Ok in Hstep. destruct Hstep as [pn [Hpn Hstep]].
      apply obind_Ok in Hstep. destruct Hstep as [p1 [Hp1 Hstep]].
      apply totalBetOf_at in Hpn, Hp1.
      destruct (Z.gtb_spec (TotalBet pn) (TotalBet p1)) as [Hgt|Hle].
      - inversion Hstep; subst t1. cbn [fst snd]. repeat split; auto; lia.
      - apply obind_Ok in Hstep. destruct Hstep as [p2 [Hp2 Hstep]].
        apply totalBetOf_at in Hp2.
        destruct (Z.gtb_spec (TotalBet pn) (TotalBet p2)) as [Hgt|Hle2];
          inversion Hstep; subst t1; cbn [fst snd]; repeat split; auto; lia. }
    destruct Hstep' as [H21 [Ha [Hn [Hm1 Hm2]]]].
    destruct (IH t1 t' Hrest H21) as [Hord' [Hup [Hall [Hmem1 Hmem2]]]].
    cbn [fst snd]. split; [exact Hord'|]. split; [lia|]. split.
    + constructor; [lia | exact Hall].
    + split.
      * destruct Hmem1 as [->|Hmem1]; [|right; right; exact Hmem1].
        destruct Hm1 as [->| ->]; [left; reflexivity | right; left].
      * destruct Hmem2 as [->|[->|Hmem2]].
        -- destruct Hm2 as [->|[->| ->]]; auto. right. right. left.
        -- destruct Hm1 as [->| ->]; auto. right. right. left.
        -- right. right. right. exact Hmem2.
Qed.

(** X13. Whenever the two top bettors are found, the first one has put
    in at least as much as seat 0 and as every seat of the list, the
    second one never more than the first, and both are seat 0 or seats
    of the list; with every [TotalBet] a [uint], the amount returned at
    line 285 is therefore the plain difference of the two and does not
    wrap. *)
Theorem topBettors_order (g : Game) (inPlayerNums : list Z) (t1 t2 : Z) :
  topBettors g inPlayerNums = Ok (t1, t2) ->
  totalBetOf (players g) t2 <= totalBetOf (players g) t1 /\
  totalBetOf (players g) 0 <= totalBetOf (players g) t1 /\
  Forall (fun ndx => totalBetOf (players g) ndx <= totalBetOf (players g) t1)
         inPlayerNums /\
  (t1 = 0 \/ t1 ∈ inPlayerNums) /\
  (t2 = 0 \/ t2 ∈ inPlayerNums) /\
  (Forall (fun p => is_uint (TotalBet p)) (players g) ->
   usub (totalBetOf (players g) t1) (totalBetOf (players g) t2) =
   totalBetOf (players g) t1 - totalBetOf (players g) t2).
Proof.
  intros H. unfold topBettors in H.
  destruct (topBettors_fold g inPlayerNums (0, 0) (t1, t2) H ltac:(simpl; lia))
    as [Hord [H0 [Hall [Hm1 Hm2]]]].
  cbn [fst snd] in *. split; [exact Hord|]. split; [exact H0|].
  split; [exact Hall|]. split; [exact Hm1|]. split; [tauto|].
  intros Hfit. unfold usub. apply Z.mod_small.
  pose proof (totalBetOf_nonneg (players g) t2 Hfit).
  assert (totalBetOf (players g) t1 < wB).
  { unfold totalBetOf. destruct (players g !! Z.to_nat t1) as [p|] eqn:E.
    - apply (Forall_lookup_1 _ _ _ _ Hfit) in E. destruct E. lia.
    - reflexivity. }
  lia.
Qed.

Lemma topBettors_order_witness :
  topBettors overbetTableMirrored [0; 1] = Ok (1, 0) /\
  totalBetOf (players overbetTableMirrored) 0 <=
  totalBetOf (players overbetTableMirrored) 1 /\
  totalBetOf (players overbetTableMirrored) 0 <=
  totalBetOf (players overbetTableMirrored) 1 /\
  Forall (fun ndx => totalBetOf (players overbetTableMirrored) ndx <=
                     totalBetOf (players overbetTableMirrored) 1) [0; 1] /\
  (1 = 0 \/ 1 ∈ [0; 1]) /\
  (0 = 0 \/ 0 ∈ [0; 1]) /\
  (Forall (fun p => is_uint (TotalBet p)) (players overbetTableMirrored) ->
   usub (totalBetOf (players overbetTableMirrored) 1)
        (totalBetOf (players overbetTableMirrored) 0) =
   totalBetOf (players overbetTableMirrored) 1 -
   totalBetOf (players overbetTableMirrored) 0).
Proof.
  assert (H : topBettors overbetTableMirrored [0; 1] = Ok (1, 0))
    by (vm_compute; reflexivity).
  split; [exact H|].
  exact (topBettors_order overbetTableMirrored [0; 1] 1 0 H).
Defined.

(** ** What a call of [updateRoundInfo] leaves in place *)

Lemma payPot_keeps_seats (q : Pot) (ps ps' : list Player) :
  payPot q ps = Ok ps' -> length ps' = length ps.
Proof.
  unfold payPot.
  apply (foldM_invariant (fun s => length s = length ps) (payStep q));
    [|reflexivity].
  intros s x s' Hs H. unfold payStep in H.
  apply obind_Ok in H. destruct H as [p [_ H]].
  apply obind_Ok in H. destruct H as [share [_ H]].
  inversion H. rewrite length_insert. exact Hs.
Qed.

Section KeepsFacts.

Variable allIn : Player -> bool.
Variable returnChips : Player -> Z -> Player.
Variable BestFiveOfSeven :
  Card -> Card -> Card -> Card -> Card -> Card -> Card -> list Card * Z.

Let run := updateRoundInfo allIn returnChips BestFiveOfSeven.

Lemma concede_keeps (g g' : Game) (l : list Z) :
  concede g l = Ok g' ->
  length (players g') = length (players g) /\ pots g' = pots g.
Proof.
  unfold concede. intros H. apply obind_Ok in H. destruct H as [ps [Hps H]].
  inversion H; subst g'. clear H. cbn [players set_players pots]. split.
  - revert Hps.
    apply (foldM_invariant
             (fun s => length s = length (players g)) (concedeStep l));
      [|reflexivity].
    intros s x s' Hs H. unfold concedeStep in H.
    apply obind_Ok in H. destruct H as [p [_ H]].
    apply obind_Ok in H. destruct H as [w [_ H]].
    apply obind_Ok in H. destruct H as [pw [_ H]].
    inversion H. rewrite length_insert. exact Hs.
  - reflexivity.
Qed.

Lemma refund_keeps (c : bool) (g g1 : Game) (l : list Z) :
  (if c then refundOverbet returnChips g l else Ok g) = Ok g1 ->
  exists ps', g1 = set_players g ps' /\ length ps' = length (players g).
Proof.
  destruct c; intros H.
  - unfold refundOverbet in H.
    apply obind_Ok in H. destruct H as [t [_ H]].
    apply obind_Ok in H. destruct H as [p1 [_ H]].
    apply obind_Ok in H. destruct H as [p2 [_ H]].
    inversion H. eexists. split; [reflexivity|]. apply length_insert.
  - inversion H; subst g1. exists (players g).
    split; [symmetry; apply set_players_same | reflexivity].
Qed.

Lemma settle_keeps_seats (g : Game) (seats : list Z) (st : Settlement) :
  settle allIn BestFiveOfSeven g seats = Ok st ->
  length (paidPlayers st) = length (players g).
Proof.
  unfold settle. intros H.
  apply obind_Ok in H. destruct H as [carved [Hcarve H]].
  apply obind_Ok in H. destruct H as [paid [Hpaid H]].
  apply obind_Ok in H. destruct H as [fp [_ H]].
  apply obind_Ok in H. destruct H as [ps [Hps H]].
  inversion H; subst st. clear H. cbn [paidPlayers].
  rewrite (payPot_keeps_seats _ _ _ Hps).
  assert (Hc : length carved.2 = length (players g)).
  { revert Hcarve. unfold carve.
    apply (foldM_invariant
             (fun s : list Pot * list Player =>
                length s.2 = length (players g)) carveStep); [|reflexivity].
    intros [qs s] x s' Hs H. unfold carveStep in H.
    apply obind_Ok in H. destruct H as [p [_ H]].
    pose proof (carveRange_players s 0 (setTopShare emptyPot (TotalBet p))) as Hr.
    destruct (carveRange 0 s (setTopShare emptyPot (TotalBet p))) as [q' s1].
    inversion H; subst s'. cbn [fst snd] in *. rewrite Hr, length_fmap.
    exact Hs. }
  rewrite <- Hc. revert Hpaid.
  apply (foldM_invariant
           (fun s : list Pot * list Player => length s.2 = length carved.2)
           (settlePot BestFiveOfSeven g)); [|reflexivity].
  intros [qs s] q s' Hs H. unfold settlePot in H.
  apply obind_Ok in H. destruct H as [q' [_ H]].
  apply obind_Ok in H. destruct H as [s1 [Hs1 H]].
  inversion H; subst s'. cbn [fst snd] in *.
  rewrite (payPot_keeps_seats _ _ _ Hs1). exact Hs.
Qed.

Lemma recordPots_players (g : Game) (st : Settlement) :
  players (recordPots g st) = paidPlayers st /\
  flags (recordPots g st) = flags g /\
  dealerNum (recordPots g st) = dealerNum g.
Proof.
  unfold recordPots. destruct (negb (Amt (finalPot st) =? 0)); auto.
Qed.

(** X14. With two or more seats in the hand, everyone called or all-in,
    and the river being played, whenever [updateRoundInfo] returns the
    hand is over: nobody is in the hand or has a bet left, the status is
    (PreDeal, not betting), the dealer button is on a ready seat, and
    the table has the seats it had. *)
Theorem updateRoundInfo_river_ends_hand (g g' : Game) :
  2 <= len (inSeats (players g)) ->
  everyoneCalled allIn g = true ->
  getStage g = River ->
  run g = Ok g' ->
  Forall (fun p => In p = false /\ Bet p = 0 /\ TotalBet p = 0) (players g') /\
  getStage g' = PreDeal /\ getBetting g' = false /\
  readyAt (players g') (dealerNum g') = true /\
  length (players g') = length (players g).
Proof.
  intros Hin Hcalled Hstage H. unfold run in H.
  rewrite updateRoundInfo_all_called in H by assumption.
  apply obind_Ok in H. destruct H as [g1 [Hg1 H]].
  destruct (refund_keeps _ _ _ _ Hg1) as [ps1 [-> Hlen1]].
  change (getStage (set_players g ps1)) with (getStage g) in H.
  rewrite Hstage in H. cbn [Z.eqb River Pos.eqb] in H.
  apply obind_Ok in H. destruct H as [st [Hst H]].
  destruct (resetForNextHand_Ok _ _ H) as [Hps [Hd [Hs [Hb _]]]].
  destruct (recordPots_players (set_players g ps1) st) as [Hrec _].
  rewrite Hrec in Hps.
  split; [|split; [exact Hs|split; [exact Hb|split; [exact Hd|]]]].
  - rewrite Hps. apply Forall_fmap, Forall_forall. intros p _. simpl.
    destruct (resetPlayer_facts p) as [? [? [? _]]]. auto.
  - rewrite Hps, length_fmap, (settle_keeps_seats _ _ _ Hst). exact Hlen1.
Qed.

(** X15. [updateRoundInfo] never adds or removes a seat: whenever it
    returns, on whichever path, the table has as many players as
    before. *)
Theorem updateRoundInfo_keeps_seats (g g' : Game) :
  run g = Ok g' -> length (players g') = length (players g).
Proof.
  unfold run, updateRoundInfo. rewrite scanPlayers_Ok.
  cbn [obind inPlayerNums allInPlayerNums allCalled]. intros H.
  destruct (len (inSeats (players g)) <? 2).
  { apply concede_keeps in H. tauto. }
  destruct (everyoneCalled allIn g); cbn [negb] in H.
  - apply obind_Ok in H. destruct H as [g1 [Hg1 H]].
    destruct (refund_keeps _ _ _ _ Hg1) as [ps1 [-> Hlen1]].
    destruct (getStage (set_players g ps1) =? River).
    + apply obind_Ok in H. destruct H as [st [Hst H]].
      destruct (resetForNextHand_Ok _ _ H) as [Hps _].
      destruct (recordPots_players (set_players g ps1) st) as [Hrec _].
      rewrite Hps, Hrec, length_fmap, (settle_keeps_seats _ _ _ Hst).
      exact Hlen1.
    + inversion H. exact Hlen1.
  - rewrite advanceAction_seek in H.
    apply obind_Ok in H. destruct H as [a [_ H]]. inversion H. reflexivity.
Qed.

End KeepsFacts.

Lemma updateRoundInfo_river_ends_hand_witness :
  exists g',
    updateRoundInfo allIn returnChips sampleRanking foldedChipsTable = Ok g' /\
    Forall (fun p => In p = false /\ Bet p = 0 /\ TotalBet p = 0) (players g') /\
    getStage g' = PreDeal /\ getBetting g' = false /\
    readyAt (players g') (dealerNum g') = true /\
    length (players g') = length (players foldedChipsTable).
Proof.
  destruct (updateRoundInfo allIn returnChips sampleRanking foldedChipsTable)
    as [g'| |] eqn:E;
    [|vm_compute in E; discriminate|vm_compute in E; discriminate].
  exists g'. split; [reflexivity|].
  apply (updateRoundInfo_river_ends_hand allIn returnChips sampleRanking
           foldedChipsTable g'); [vm_compute; discriminate | reflexivity
                                 | reflexivity | exact E].
Defined.

Lemma updateRoundInfo_keeps_seats_witness :
  exists g',
    updateRoundInfo allIn returnChips sampleRanking twoLevelsTable = Ok g' /\
    length (players g') = length (players twoLevelsTable).
Proof.
  destruct (updateRoundInfo allIn returnChips sampleRanking twoLevelsTable)
    as [g'| |] eqn:E;
    [|vm_compute in E; discriminate|vm_compute in E; discriminate].
  exists g'. split; [reflexivity|].
  exact (updateRoundInfo_keeps_seats allIn returnChips sampleRanking
           twoLevelsTable g' E).
Defined.

(** * Further properties of [views.go] *)

(** ** What a player view shows (lines 115-199) *)

Lemma censored_refl (ps : list Player) : Forall2 censored ps ps.
Proof. apply Forall_Forall2_diag, Forall_forall. intros p _. left. reflexivity. Qed.

Lemma setCards_censored (src p : Player) :
  censored src p -> setCards p (Cards src) = src.
Proof. intros [->| ->]; destruct src; reflexivity. Qed.

Lemma showCards_step (g : Game) (vp vp' : list Player) (i : Z) :
  Forall2 censored (players g) vp ->
  showCards g vp i = Ok vp' ->
  Forall2 censored (players g) vp' /\
  (forall q, shown g q vp -> shown g q vp') /\
  shown g (Z.to_nat i) vp'.
Proof.
  intros Hinv H. unfold showCards in H.
  apply obind_Ok in H. destruct H as [p [Hp H]].
  apply obind_Ok in H. destruct H as [src [Hsrc H]].
  inversion H; subst vp'. clear H.
  apply at_Ok in Hp, Hsrc. destruct Hp as [_ Hp]. destruct Hsrc as [_ Hsrc].
  rewrite (setCards_censored src p (Forall2_lookup_lr _ _ _ _ _ _ Hinv Hsrc Hp)).
  assert (Hhere : <[Z.to_nat i := src]> vp !! Z.to_nat i = Some src).
  { apply list_lookup_insert_Some. left. split; [reflexivity|].
    split; [reflexivity|]. apply lookup_lt_Some in Hp. exact Hp. }
  split; [|split].
  - rewrite <- (list_insert_id (players g) (Z.to_nat i) src Hsrc).
    apply Forall2_insert; [exact Hinv | left; reflexivity].
  - intros q Hq. unfold shown in *.
    destruct (Nat.eq_dec q (Z.to_nat i)) as [->|Hne].
    + rewrite Hhere, Hsrc. reflexivity.
    + rewrite list_lookup_insert_ne by auto. exact Hq.
  - unfold shown. rewrite Hhere, Hsrc. reflexivity.
Qed.

Lemma hideCards_step (g : Game) (vp vp' : list Player) (i : Z) :
  Forall2 censored (players g) vp ->
  hideCards vp i = Ok vp' ->
  Forall2 censored (players g) vp' /\
  (forall q, Z.of_nat q <> i -> shown g q vp -> shown g q vp').
Proof.
  intros Hinv H. unfold hideCards in H.
  apply obind_Ok in H. destruct H as [p [Hp H]].
  inversion H; subst vp'. clear H.
  apply at_Ok in Hp. destruct Hp as [Hi Hp].
  destruct (Forall2_lookup_r _ _ _ _ _ Hinv Hp) as [src [Hsrc Hc]].
  split.
  - rewrite <- (list_insert_id (players g) (Z.to_nat i) src Hsrc).
    apply Forall2_insert; [exact Hinv|]. right.
    destruct Hc as [->| ->]; reflexivity.
  - intros q Hq Hs. unfold shown in *.
    rewrite list_lookup_insert_ne by lia. exact Hs.
Qed.

Lemma showCards_fold_shows (g : Game) (l : list Z) :
  forall vp vp' : list Player,
    Forall2 censored (players g) vp ->
    foldM (showCards g) l vp = Ok vp' ->
    Forall2 censored (players g) vp' /\
    (forall q, shown g q vp -> shown g q vp') /\
    (forall i, i ∈ l -> shown g (Z.to_nat i) vp').
Proof.
  induction l as [|i l IH]; intros vp vp' Hinv H.
  - simpl in H. inversion H; subst vp'. split; [exact Hinv|]. split; [auto|].
    intros i Hi. apply elem_of_nil in Hi. destruct Hi.
  - cbn [foldM] in H. apply obind_Ok in H. destruct H as [vp1 [Hstep Hrest]].
    destruct (showCards_step g vp vp1 i Hinv Hstep) as [Hinv1 [Hmono1 Hi1]].
    destruct (IH vp1 vp' Hinv1 Hrest) as [Hinv' [Hmono' Hall]].
    split; [exact Hinv'|]. split; [auto|].
    intros j Hj. apply elem_of_cons in Hj. destruct Hj as [->|Hj]; auto.
Qed.

Lemma showWinners_fold_shows (g : Game) (qs : list Pot) :
  forall vp vp' : list Player,
    Forall2 censored (players g) vp ->
    foldM (showWinners g) qs vp = Ok vp' ->
    Forall2 censored (players g) vp' /\
    (forall q, shown g q vp -> shown g q vp') /\
    (forall pot i, pot ∈ qs -> i ∈ WinningPlayerNums pot ->
                   shown g (Z.to_nat i) vp').
Proof.
  induction qs as [|pot qs IH]; intros vp vp' Hinv H.
  - simpl in H. inversion H; subst vp'. split; [exact Hinv|]. split; [auto|].
    intros pot i Hpot. apply elem_of_nil in Hpot. destruct Hpot.
  - cbn [foldM] in H. apply obind_Ok in H. destruct H as [vp1 [Hstep Hrest]].
    unfold showWinners in Hstep.
    destruct (showCards_fold_shows g _ vp vp1 Hinv Hstep)
      as [Hinv1 [Hmono1 Hall1]].
    destruct (IH vp1 vp' Hinv1 Hrest) as [Hinv' [Hmono' Hall]].
    split; [exact Hinv'|]. split; [auto|].
    intros pot' i Hpot Hi. apply elem_of_cons in Hpot.
    destruct Hpot as [->|Hpot]; [auto | eapply Hall; eauto].
Qed.

Section ViewShows.

Variable p_allIn : Player -> Z -> bool.
Variable p_in : Player -> Z -> bool.
Variable p_bet : Player -> Z -> Z.
Variable BestFiveOfSeven :
  Card -> Card -> Card -> Card -> Card -> Card -> Card -> list Card * Z.

Lemma census_keeps (g : Game) (pn stage : Z) (l : list (Z * Player)) :
  forall st st' : list Player * Census,
    Forall2 censored (players g) st.1 ->
    foldM (censusStep p_allIn p_in p_bet pn stage) l st = Ok st' ->
    Forall2 censored (players g) st'.1 /\
    (forall q, Z.of_nat q = pn -> shown g q st.1 -> shown g q st'.1).
Proof.
  induction l as [|[i p] l IH]; intros st st' Hinv H.
  - simpl in H. inversion H; subst st'. auto.
  - cbn [foldM] in H. apply obind_Ok in H. destruct H as [st1 [Hstep Hrest]].
    unfold censusStep in Hstep. apply obind_Ok in Hstep.
    destruct Hstep as [vp [Hvp Hstep]]. inversion Hstep; subst st1. clear Hstep.
    assert (Hvp' : Forall2 censored (players g) vp /\
                   (forall q, Z.of_nat q = pn -> shown g q st.1 -> shown g q vp)).
    { destruct (Z.eqb_spec i pn) as [->|Hne]; simpl in Hvp.
      - inversion Hvp; subst vp. auto.
      - destruct (hideCards_step g _ _ _ Hinv Hvp) as [Hinv1 Hmono1].
        split; [exact Hinv1|]. intros q Hq. apply Hmono1. lia. }
    destruct Hvp' as [Hinv1 Hmono1].
    destruct (IH (vp, _) st' Hinv1 Hrest) as [Hinv' Hmono']. cbn [fst] in *.
    split; [exact Hinv'|]. auto.
Qed.

Lemma showIn_fold_shows (g : Game) (stage : Z) (l : list (Z * Player)) :
  forall vp vp' : list Player,
    Forall2 censored (players g) vp ->
    foldM (showInStep p_in g stage) l vp = Ok vp' ->
    Forall2 censored (players g) vp' /\
    (forall q, shown g q vp -> shown g q vp') /\
    (forall ip, ip ∈ l -> p_in ip.2 stage = true ->
                shown g (Z.to_nat ip.1) vp').
Proof.
  induction l as [|ip l IH]; intros vp vp' Hinv H.
  - simpl in H. inversion H; subst vp'. split; [exact Hinv|]. split; [auto|].
    intros ip Hip. apply elem_of_nil in Hip. destruct Hip.
  - cbn [foldM] in H. apply obind_Ok in H. destruct H as [vp1 [Hstep Hrest]].
    unfold showInStep in Hstep.
    assert (Hstep' : Forall2 censored (players g) vp1 /\
                     (forall q, shown g q vp -> shown g q vp1) /\
                     (p_in ip.2 stage = true -> shown g (Z.to_nat ip.1) vp1)).
    { destruct (p_in ip.2 stage).
      - destruct (showCards_step g _ _ _ Hinv Hstep) as [? [? ?]]. auto.
      - inversion Hstep; subst vp1. split; [exact Hinv|]. split; [auto|].
        discriminate. }
    destruct Hstep' as [Hinv1 [Hmono1 Hhere]].
    destruct (IH vp1 vp' Hinv1 Hrest) as [Hinv' [Hmono' Hall]].
    split; [exact Hinv'|]. split; [auto|].
    intros ip' Hip' Hin. apply elem_of_cons in Hip'.
    destruct Hip' as [->|Hip']; auto.
Qed.

Lemma walk_fold_shows (g : Game) (m : nat) :
  forall (k : nat) (vp : list Player) (res : list Player * Z),
    Forall2 censored (players g) vp ->
    foldM (walkStep BestFiveOfSeven g) (Z.of_nat <$> seq k m)
      (vp, bestSeen BestFiveOfSeven g k) = Ok res ->
    Forall2 censored (players g) res.1 /\
    (forall q, shown g q vp -> shown g q res.1) /\
    (forall i : nat,
        (k <= i < k + m)%nat ->
        inHand g (walkSeat g i) = true ->
        scoreOf BestFiveOfSeven g (walkSeat g i) <= bestSeen BestFiveOfSeven g i ->
        shown g (Z.to_nat (walkSeat g i)) res.1).
Proof.
  induction m as [|m IH]; intros k vp res Hinv H.
  - simpl in H. inversion H; subst res. split; [exact Hinv|]. split; [auto|].
    intros i Hi. lia.
  - cbn [seq fmap list_fmap foldM] in H. apply obind_Ok in H.
    destruct H as [st1 [Hstep Hrest]].
    change (list_fmap nat Z Z.of_nat (seq (S k) m))
      with (Z.of_nat <$> seq (S k) m) in Hrest.
    unfold walkStep in Hstep. cbn [fst snd] in Hstep.
    apply obind_Ok in Hstep. destruct Hstep as [pni [Hpni Hstep]].
    apply obind_Ok in Hstep. destruct Hstep as [p [Hp Hstep]].
    apply obind_Ok in Hstep. destruct Hstep as [hs [Hhs Hstep]].
    assert (Hseat : pni = walkSeat g k).
    { unfold umod in Hpni. destruct (len (players g) =? 0); [discriminate|].
      inversion Hpni. reflexivity. }
    assert (Hin : inHand g (walkSeat g k) = In p)
      by (unfold inHand; rewrite <- Hseat, Hp; reflexivity).
    assert (Hsc : scoreOf BestFiveOfSeven g (walkSeat g k) = hs.2)
      by (unfold scoreOf; rewrite <- Hseat, Hp, Hhs; reflexivity).
    assert (Hst1 : st1.2 = bestSeen BestFiveOfSeven g (S k) /\
                   Forall2 censored (players g) st1.1 /\
                   (forall q, shown g q vp -> shown g q st1.1) /\
                   (inHand g (walkSeat g k) = true ->
                    scoreOf BestFiveOfSeven g (walkSeat g k) <=
                    bestSeen BestFiveOfSeven g k ->
                    shown g (Z.to_nat (walkSeat g k)) st1.1)).
    { rewrite bestSeen_S, Hin, Hsc.
      destruct (Z.leb_spec hs.2 (bestSeen BestFiveOfSeven g k)) as [Hle|Hgt];
        destruct (In p) eqn:Ein; cbn [andb] in Hstep.
      - apply obind_Ok in Hstep. destruct Hstep as [vp1 [Hshow Hstep]].
        inversion Hstep; subst st1. cbn [fst snd].
        destruct (showCards_step g _ _ _ Hinv Hshow) as [Hinv1 [Hmono1 Hhere]].
        rewrite Hseat in Hhere. split; [lia|]. auto.
      - inversion Hstep; subst st1. cbn [fst snd].
        split; [reflexivity|]. split; [exact Hinv|]. split; [auto|].
        discriminate.
      - inversion Hstep; subst st1. cbn [fst snd].
        split; [lia|]. split; [exact Hinv|]. split; [auto|]. intros _ Hc. lia.
      - inversion Hstep; subst st1. cbn [fst snd].
        split; [reflexivity|]. split; [exact Hinv|]. split; [auto|].
        discriminate. }
    destruct Hst1 as [Hbest [Hinv1 [Hmono1 Hhere]]]. destruct st1 as [vp1 stb1].
    cbn [fst snd] in Hbest, Hinv1, Hmono1, Hhere. subst stb1.
    destruct (IH (S k) vp1 res Hinv1 Hrest) as [Hinv' [Hmono' Hall]].
    split; [exact Hinv'|]. split; [auto|].
    intros i Hi Hini Hle. destruct (Nat.eq_dec i k) as [->|Hne].
    + apply Hmono'. apply Hhere; assumption.
    + apply Hall; [lia | exact Hini | exact Hle].
Qed.

Lemma player_view_seats (g : Game) (pn : Z) (gv : GameView) :
  GeneratePlayerView p_allIn p_in p_bet BestFiveOfSeven g pn = Ok gv ->
  Forall2 censored (players g) (Players gv) /\
  forall q : nat,
    Z.of_nat q = pn \/ revealed p_allIn p_in p_bet BestFiveOfSeven g q ->
    shown g q (Players gv).
Proof.
  unfold GeneratePlayerView. intros H.
  apply obind_Ok in H. destruct H as [st [Hcensus H]].
  apply obind_Ok in H. destruct H as [vp1 [Hall H]].
  apply obind_Ok in H. destruct H as [vp2 [Hend H]].
  inversion H; subst gv. clear H. cbn [Players].
  destruct (census_fold _ _ _ _ _ _ _ _ Hcensus) as [_ [Ha [Hi Hb]]].
  destruct (census_keeps g pn (getStage g) (indexed (players g))
              (players g, mkCensus 0 0 0) st (censored_refl _) Hcensus)
    as [Hinv0 Hown0].
  cbn [fst snd allInCount inCount betCount Stage Players copyToView] in *.
  assert (Hsnd : (indexed (players g)).*2 = players g).
  { unfold indexed. apply snd_zip. unfold seatNums.
    rewrite length_fmap, length_seq. lia. }
  rewrite Hsnd, Z.add_0_l in Ha, Hi, Hb.
  (* the all-in show-down *)
  assert (H1 : Forall2 censored (players g) vp1 /\
               (forall q, shown g q st.1 -> shown g q vp1) /\
               (forall q, revealedAllIn p_allIn p_in p_bet g q -> shown g q vp1)).
  { destruct (showAllOf st.2) eqn:Eshow.
    - destruct (showIn_fold_shows g _ _ _ _ Hinv0 Hall) as [Hinv1 [Hmono1 Hin1]].
      split; [exact Hinv1|]. split; [exact Hmono1|].
      intros q [_ [p [Hp Hpin]]].
      assert (Hel : (Z.of_nat q, p) ∈ indexed (players g)).
      { unfold indexed, seatNums. apply list_elem_of_lookup. exists q.
        apply lookup_zip_with_Some. exists (Z.of_nat q), p.
        split; [reflexivity|]. split; [|exact Hp].
        rewrite list_lookup_fmap, lookup_seq_lt
          by (apply lookup_lt_Some in Hp; exact Hp). reflexivity. }
      specialize (Hin1 _ Hel Hpin). cbn [fst] in Hin1.
      rewrite Nat2Z.id in Hin1. exact Hin1.
    - inversion Hall; subst vp1. split; [exact Hinv0|]. split; [auto|].
      intros q [Hshow _]. exfalso.
      unfold allInShowdown in Hshow. cbv zeta in Hshow.
      rewrite <- Ha, <- Hi, <- Hb in Hshow. unfold showAllOf in Eshow.
      destruct (allInCount st.2 =? inCount st.2); [discriminate|].
      cbn [negb andb orb] in *. destruct (betCount st.2 =? 0);
        cbn [andb] in *; congruence. }
  destruct H1 as [Hinv1 [Hmono1 Hallin]].
  destruct ((getStage g =? PreDeal) && (inCount st.2 >? 1)) eqn:Eend.
  - apply obind_Ok in Hend. destruct Hend as [vp3 [Hcalled Hend]].
    apply obind_Ok in Hend. destruct Hend as [pc [Hpc Hend]].
    apply obind_Ok in Hend. destruct Hend as [hs [Hhs Hend]].
    apply obind_Ok in Hend. destruct Hend as [w [Hwalk Hend]].
    destruct (showCards_step g _ _ _ Hinv1 Hcalled) as [Hinv3 [Hmono3 Hc3]].
    assert (Hs0 : hs.2 = bestSeen BestFiveOfSeven g 0).
    { unfold bestSeen, scoreOf. cbn [seq fmap list_fmap List.filter fold_left].
      rewrite Hpc, Hhs. reflexivity. }
    rewrite Hs0 in Hwalk. unfold seatNums in Hwalk.
    destruct (walk_fold_shows g _ 0 vp3 w Hinv3 Hwalk) as [Hinv4 [Hmono4 Hw4]].
    destruct (showWinners_fold_shows g _ _ _ Hinv4 Hend)
      as [Hinv5 [Hmono5 Hwin5]].
    split; [exact Hinv5|].
    intros q [Hq|[Hq|[_ [Hq|[Hq|Hq]]]]].
    + apply Hmono5, Hmono4, Hmono3, Hmono1, Hown0; [exact Hq | reflexivity].
    + apply Hmono5, Hmono4, Hmono3, Hallin, Hq.
    + apply Hmono5, Hmono4. rewrite <- Hq, Nat2Z.id in Hc3. exact Hc3.
    + destruct Hq as [i [Hi0 [Hseat [Hin Hle]]]].
      apply Hmono5. rewrite <- Hseat in Hin, Hle.
      specialize (Hw4 i ltac:(lia) Hin Hle).
      rewrite Hseat, Nat2Z.id in Hw4. exact Hw4.
    + destruct Hq as [pot [Hpot Hq]].
      specialize (Hwin5 pot _ Hpot Hq). rewrite Nat2Z.id in Hwin5. exact Hwin5.
  - inversion Hend; subst vp2. split; [exact Hinv1|].
    intros q [Hq|[Hq|[[Hstage Hcount] _]]].
    + apply Hmono1, Hown0; [exact Hq | reflexivity].
    + apply Hallin, Hq.
    + exfalso. rewrite Hi in Eend. rewrite Hstage in Eend.
      rewrite Hstage in Hcount.
      destruct (Z.gtb_spec
                  (countIf (fun p => p_in p PreDeal) (players g)) 1);
        [discriminate | lia].
Qed.

(** X16. Whenever [GeneratePlayerView] returns a view for seat [pn],
    the viewer's own seat and every seat of the reveal set (all active
    seats at an all-in show-down; after the hand, the seat [calledNum],
    the seats shown by the walk from it, and the recorded pot winners)
    show the table's player unchanged, hole cards included. *)
Theorem player_view_shows (g : Game) (pn : Z) (gv : GameView) (q : nat) :
  GeneratePlayerView p_allIn p_in p_bet BestFiveOfSeven g pn = Ok gv ->
  Z.of_nat q = pn \/ revealed p_allIn p_in p_bet BestFiveOfSeven g q ->
  Players gv !! q = players g !! q.
Proof. intros H Hq. exact (proj2 (player_view_seats g pn gv H) q Hq). Qed.

(** X17. Whenever [GeneratePlayerView] returns, the view differs from
    the omniscient one in nothing but secrets: seat by seat the player
    is the table's player, with the hole cards as they are or zeroed;
    the deck is empty and the seed zero; every other field is the one
    of [GenerateOmniView]. *)
Theorem player_view_censors_only (g : Game) (pn : Z) (gv : GameView) :
  GeneratePlayerView p_allIn p_in p_bet BestFiveOfSeven g pn = Ok gv ->
  Forall2 censored (players g) (Players gv) /\
  mkView (DealerNum gv) (ActionNum gv) (UTGNum gv) (SBNum gv) (BBNum gv)
    (CalledNum gv) (CommunityCards gv) (Stage gv) (Betting gv)
    (mkConfig (MaxBuy (Config gv)) (BigBlind (Config gv))
       (SmallBlind (Config gv)) (Seed (config g)))
    (players g) (deck g) (Pots gv) (MinRaise gv) (ReadyCount gv) =
  GenerateOmniView g.
Proof.
  intros H. split; [exact (proj1 (player_view_seats g pn gv H))|].
  unfold GeneratePlayerView in H.
  apply obind_Ok in H. destruct H as [st [_ H]].
  apply obind_Ok in H. destruct H as [vp1 [_ H]].
  apply obind_Ok in H. destruct H as [vp2 [_ H]].
  inversion H; subst gv. clear H.
  unfold GenerateOmniView, copyToView. cbn. destruct (config g); reflexivity.
Qed.

End ViewShows.

Lemma player_view_shows_witness :
  exists gv,
    GeneratePlayerView viewAllIn viewIn viewBet sampleRanking showdownOver 0 =
    Ok gv /\
    (Z.of_nat 1 = 0 \/
     revealed viewAllIn viewIn viewBet sampleRanking showdownOver 1) /\
    Players gv !! 1%nat = players showdownOver !! 1%nat.
Proof.
  destruct (GeneratePlayerView viewAllIn viewIn viewBet sampleRanking
              showdownOver 0) as [gv| |] eqn:E;
    [|vm_compute in E; discriminate|vm_compute in E; discriminate].
  assert (Hrev : Z.of_nat 1 = 0 \/
                 revealed viewAllIn viewIn viewBet sampleRanking showdownOver 1).
  { right. right. split.
    - split; [reflexivity | vm_compute; reflexivity].
    - left. reflexivity. }
  exists gv. split; [reflexivity|]. split; [exact Hrev|].
  exact (player_view_shows viewAllIn viewIn viewBet sampleRanking
           showdownOver 0 gv 1 E Hrev).
Defined.

Lemma player_view_censors_only_witness :
  exists gv,
    GeneratePlayerView viewAllIn viewIn viewBet sampleRanking showdownOver 0 =
    Ok gv /\
    Forall2 censored (players showdownOver) (Players gv) /\
    mkView (DealerNum gv) (ActionNum gv) (UTGNum gv) (SBNum gv) (BBNum gv)
      (CalledNum gv) (CommunityCards gv) (Stage gv) (Betting gv)
      (mkConfig (MaxBuy (Config gv)) (BigBlind (Config gv))
         (SmallBlind (Config gv)) (Seed (config showdownOver)))
      (players showdownOver) (deck showdownOver) (Pots gv) (MinRaise gv)
      (ReadyCount gv) =
    GenerateOmniView showdownOver.
Proof.
  destruct (GeneratePlayerView viewAllIn viewIn viewBet sampleRanking
              showdownOver 0) as [gv| |] eqn:E;
    [|vm_compute in E; discriminate|vm_compute in E; discriminate].
  exists gv. split; [reflexivity|].
  exact (player_view_censors_only viewAllIn viewIn viewBet sampleRanking
           showdownOver 0 gv E).
Defined.

(** ** Restoring a table from its own snapshot (lines 51-111) *)

Lemma byte_pairs_checked (P : Z -> Z -> bool) :
  forallb (fun a => forallb (fun b => P (Z.of_nat a) (Z.of_nat b)) (seq 0 256))
          (seq 0 256) = true ->
  forall f f0 : Z, 0 <= f < 256 -> 0 <= f0 < 256 -> P f f0 = true.
Proof.
  intros H f f0 Hf Hf0. rewrite forallb_forall in H.
  specialize (H (Z.to_nat f) ltac:(apply in_seq; lia)).
  rewrite forallb_forall in H.
  specialize (H (Z.to_nat f0) ltac:(apply in_seq; lia)).
  rewrite !Z2Nat.id in H by lia. exact H.
Qed.

Lemma restore_flags (f f0 : Z) :
  0 <= f < 256 -> 0 <= f0 < 256 ->
  (if Z.land f0 8 =? 8
   then Z.lor (Z.lor (Z.land f 248) (Z.land f0 7)) 8
   else Z.land (Z.lor (Z.land f 248) (Z.land f0 7)) 247) =
  Z.lor (Z.land f 240) (Z.land f0 15).
Proof.
  intros Hf Hf0. apply Z.eqb_eq.
  apply (byte_pairs_checked
           (fun f f0 =>
              (if Z.land f0 8 =? 8
               then Z.lor (Z.lor (Z.land f 248) (Z.land f0 7)) 8
               else Z.land (Z.lor (Z.land f 248) (Z.land f0 7)) 247) =?
              Z.lor (Z.land f 240) (Z.land f0 15)));
    [vm_compute; reflexivity | exact Hf | exact Hf0].
Qed.

Lemma byte_halves (f : Z) :
  0 <= f < 256 -> Z.lor (Z.land f 240) (Z.land f 15) = f.
Proof.
  intros Hf. apply Z.eqb_eq.
  refine (byte_pairs_checked
            (fun f _ => Z.lor (Z.land f 240) (Z.land f 15) =? f) _ f f Hf Hf).
  vm_compute. reflexivity.
Qed.

(** X18. Restoring a table from the omniscient snapshot of a table [g0]
    gives [g0] back, except for the random source, which is a fresh one
    made from the seed, and for the status word, whose four low bits
    (stage and betting flag) are those of [g0] and whose four high bits
    are those of the table restored into; when the two tables agree on
    these unused high bits, nothing but the random source differs. *)
Theorem restore_own_snapshot (g g0 : Game) :
  0 <= flags g < 256 ->
  0 <= flags g0 < 256 ->
  FillFromView g (GenerateOmniView g0) =
  set_flags (set_rand g0 (newRand (Seed (config g0))))
    (Z.lor (Z.land (flags g) 240) (Z.land (flags g0) 15)) /\
  (Z.land (flags g) 240 = Z.land (flags g0) 240 ->
   FillFromView g (GenerateOmniView g0) =
   set_rand g0 (newRand (Seed (config g0)))).
Proof.
  intros Hf Hf0.
  assert (Hfill : FillFromView g (GenerateOmniView g0) =
                  set_flags (set_rand g0 (newRand (Seed (config g0))))
                    (Z.lor (Z.land (flags g) 240) (Z.land (flags g0) 15))).
  { rewrite <- (restore_flags (flags g) (flags g0) Hf Hf0).
    unfold FillFromView, GenerateOmniView, copyToView, setStageAndBetting,
      setBetting, setStage, getBetting, getStage.
    cbn [DealerNum ActionNum UTGNum SBNum BBNum CalledNum CommunityCards Stage
         Betting Config Players Deck Pots MinRaise].
    rewrite !copyPots_id, !app_nil_l.
    destruct (Z.land (flags g0) 8 =? 8); destruct g0; reflexivity. }
  split; [exact Hfill|]. intros Hhigh.
  rewrite Hfill, Hhigh, (byte_halves (flags g0) Hf0). destruct g0; reflexivity.
Qed.

Lemma restore_own_snapshot_witness :
  (0 <= flags NewGame < 256 /\ 0 <= flags showdownOver < 256) /\
  FillFromView NewGame (GenerateOmniView showdownOver) =
  set_flags (set_rand showdownOver (newRand (Seed (config showdownOver))))
    (Z.lor (Z.land (flags NewGame) 240) (Z.land (flags showdownOver) 15)) /\
  (Z.land (flags NewGame) 240 = Z.land (flags showdownOver) 240 ->
   FillFromView NewGame (GenerateOmniView showdownOver) =
   set_rand showdownOver (newRand (Seed (config showdownOver)))).
Proof.
  assert (Hf : 0 <= flags NewGame < 256) by (simpl; lia).
  assert (Hf0 : 0 <= flags showdownOver < 256) by (simpl; lia).
  split; [split; assumption|].
  exact (restore_own_snapshot NewGame showdownOver Hf Hf0).
Defined.

(** * The general lemmas of the development on sample tables *)

(** The button moves from seat 3 to seat 4 of five, the next ready seat. *)
Lemma resetForNextHand_in_range_witness :
  len (players threeReady) <= wB /\
  uadd (dealerNum threeReady) 1 < len (players threeReady) /\
  (exists (r : nat) (p : Player),
      players threeReady !! r = Some p /\ Ready p = true /\ Stack p <> 0) /\
  exists d : Z,
    resetForNextHand threeReady =
    Ok (setStageAndBetting
          (set_dealerNum
             (set_players threeReady (resetPlayer <$> players threeReady)) d)
          PreDeal false) /\
    firstReadyAfter (resetPlayer <$> players threeReady)
      (dealerNum threeReady) d.
Proof.
  assert (Hfit : len (players threeReady) <= wB) by (vm_compute; discriminate).
  assert (Hnext : uadd (dealerNum threeReady) 1 < len (players threeReady))
    by (vm_compute; reflexivity).
  assert (Hex : exists (r : nat) (p : Player),
             players threeReady !! r = Some p /\ Ready p = true /\ Stack p <> 0).
  { exists 0%nat. eexists. split; [reflexivity|]. split; [reflexivity|].
    discriminate. }
  split; [exact Hfit|]. split; [exact Hnext|]. split; [exact Hex|].
  exact (resetForNextHand_in_range threeReady Hfit Hnext Hex).
Defined.

(** The button on the last of two seats leaves the table. *)
Lemma resetForNextHand_past_last_seat_witness :
  len (players dealerOnLastSeat) <= uadd (dealerNum dealerOnLastSeat) 1 /\
  resetForNextHand dealerOnLastSeat = Panic.
Proof.
  assert (H : len (players dealerOnLastSeat) <=
              uadd (dealerNum dealerOnLastSeat) 1) by (vm_compute; discriminate).
  split; [exact H|]. exact (resetForNextHand_past_last_seat dealerOnLastSeat H).
Defined.

(** Seat 0 is in for 100 against 40: both top bettors stay on seat 0. *)
Lemma topBettors_seat_0_on_top_witness :
  players overbetTable !! 0%nat = Some (mkPlayer true true 50 100 100 (7, 7)) /\
  Forall (fun ndx => exists p, at_ (players overbetTable) ndx = Ok p /\
                               TotalBet p <=
                               TotalBet (mkPlayer true true 50 100 100 (7, 7)))
         [0; 1] /\
  topBettors overbetTable [0; 1] = Ok (0, 0).
Proof.
  assert (H0 : players overbetTable !! 0%nat =
               Some (mkPlayer true true 50 100 100 (7, 7))) by reflexivity.
  assert (Hall : Forall (fun ndx =>
                           exists p, at_ (players overbetTable) ndx = Ok p /\
                                     TotalBet p <=
                                     TotalBet (mkPlayer true true 50 100 100 (7, 7)))
                   [0; 1]).
  { constructor; [|constructor; [|constructor]];
      (eexists; split; [reflexivity | simpl; lia]). }
  split; [exact H0|]. split; [exact Hall|].
  exact (topBettors_seat_0_on_top overbetTable _ [0; 1] H0 Hall).
Defined.

(** Carving at the all-in levels 30 and 50 of a table with 170 chips
    out. *)
Lemma carve_conserves_witness :
  exists res,
    foldM carveStep [0; 1] ([], players twoLevelsTable) = Ok res /\
    (sumAmt res.1 + sumTotalBet res.2) mod wB =
    (sumAmt [] + sumTotalBet (players twoLevelsTable)) mod wB.
Proof.
  destruct (foldM carveStep [0; 1] ([], players twoLevelsTable))
    as [res| |] eqn:E;
    [|vm_compute in E; discriminate|vm_compute in E; discriminate].
  exists res. split; [reflexivity|].
  exact (carve_conserves [0; 1] [] (players twoLevelsTable) res E).
Defined.

(** All-in seats at 30, 50 and 50: taking the two seats at 50 in either
    order carves the same pots. *)
Lemma carve_any_sort_witness :
  Forall (fun ndx => exists p, at_ (players threeAllInTable) ndx = Ok p)
         [0; 1; 2] /\
  [0; 2; 1] ≡ₚ [0; 1; 2] /\
  ascendingFrom 0 (totalBetOf (players threeAllInTable) <$> [0; 2; 1]) /\
  (forall ndx, 0 <= totalBetOf (players threeAllInTable) ndx) /\
  carve (players threeAllInTable) [0; 2; 1] =
  carve (players threeAllInTable)
    (sortSlice (totalBetOf (players threeAllInTable)) [0; 1; 2]).
Proof.
  assert (Hseats : Forall (fun ndx => exists p,
                               at_ (players threeAllInTable) ndx = Ok p)
                     [0; 1; 2]).
  { repeat constructor; eexists; reflexivity. }
  assert (Hperm : [0; 2; 1] ≡ₚ [0; 1; 2]) by (constructor; apply perm_swap).
  assert (Hasc : ascendingFrom 0
                   (totalBetOf (players threeAllInTable) <$> [0; 2; 1])).
  { simpl. unfold totalBetOf. simpl. lia. }
  assert (HL : forall ndx, 0 <= totalBetOf (players threeAllInTable) ndx).
  { intros ndx. apply totalBetOf_nonneg.
    repeat constructor; simpl; unfold wB; lia. }
  split; [exact Hseats|]. split; [exact Hperm|]. split; [exact Hasc|].
  split; [exact HL|].
  exact (carve_any_sort (players threeAllInTable) [0; 1; 2] [0; 2; 1] 0
           Hseats Hperm Hasc HL).
Defined.

(** A side pot of 90 open to seats 0, 1 and 2: seat 0 holds the best
    hand and is the only winner. *)
Lemma settlePot_winners_witness :
  exists res,
    settlePot sampleRanking twoLevelsTable ([], players twoLevelsTable)
      (mkPot 30 90 [0; 1; 2] [] [] 0) = Ok res /\
    exists q' : Pot,
      res.1 = [] ++ [q'] /\ Amt q' = 90 /\
      WinningPlayerNums q' =
        List.filter
          (fun n => handScore sampleRanking twoLevelsTable
                      (players twoLevelsTable) n =? WinningScore q')
          [0; 1; 2].
Proof.
  destruct (settlePot sampleRanking twoLevelsTable ([], players twoLevelsTable)
              (mkPot 30 90 [0; 1; 2] [] [] 0)) as [res| |] eqn:E;
    [|vm_compute in E; discriminate|vm_compute in E; discriminate].
  exists res. split; [reflexivity|].
  destruct (settlePot_winners sampleRanking twoLevelsTable []
              (players twoLevelsTable) (mkPot 30 90 [0; 1; 2] [] [] 0) res E
              eq_refl) as [q' [Hres [[_ [Hamt _]] [_ [_ [Hwin _]]]]]].
  exists q'. split; [exact Hres|]. split; [exact Hamt | exact Hwin].
Defined.

(** With the five community cards on the board, settlement over the two
    all-in seats runs to its end. *)
Lemma settle_returns_witness :
  (5 <= length (communityCards twoLevelsTable))%nat /\
  Forall (fun ndx => 0 <= ndx < len (players twoLevelsTable)) [0; 1] /\
  exists st, settle allIn sampleRanking twoLevelsTable [0; 1] = Ok st.
Proof.
  assert (Hboard : (5 <= length (communityCards twoLevelsTable))%nat)
    by (simpl; lia).
  assert (Hseats : Forall (fun ndx => 0 <= ndx < len (players twoLevelsTable))
                     [0; 1]).
  { constructor; [|constructor; [|constructor]]; vm_compute; split;
      (discriminate || reflexivity). }
  split; [exact Hboard|]. split; [exact Hseats|].
  exact (settle_returns allIn sampleRanking twoLevelsTable Hboard [0; 1] Hseats).
Defined.

(** The final pot of a settled table lists no eligible seat. *)
Lemma final_pot_no_eligible_witness :
  exists st,
    settle allIn sampleRanking allInWinnerTable [0] = Ok st /\
    EligblePlayerNums (finalPot st) = [].
Proof.
  destruct (settle allIn sampleRanking allInWinnerTable [0]) as [st| |] eqn:E;
    [|vm_compute in E; discriminate|vm_compute in E; discriminate].
  exists st. split; [reflexivity|].
  exact (final_pot_no_eligible allIn sampleRanking allInWinnerTable [0] st E).
Defined.

(** On the flop the projection returns a view for seat 0. *)
Lemma GeneratePlayerView_returns_witness :
  (getStage overbetTable =? PreDeal) &&
  (countIf (fun p => viewIn p (getStage overbetTable)) (players overbetTable)
   >? 1) = false /\
  exists gv,
    GeneratePlayerView viewAllIn viewIn viewBet sampleRanking overbetTable 0 =
    Ok gv.
Proof.
  assert (H : (getStage overbetTable =? PreDeal) &&
              (countIf (fun p => viewIn p (getStage overbetTable))
                 (players overbetTable) >? 1) = false) by reflexivity.
  split; [exact H|].
  exact (GeneratePlayerView_returns viewAllIn viewIn viewBet sampleRanking
           overbetTable 0 H).
Defined.
